(** * SaaS Signal Miner: parsing, scoring, formatting and filtering

    A shallow embedding of [utils.py] and of the decision logic of
    [main.py], with the properties of the written specification proved or
    refuted against it.

    Modelling conventions.
    - A Python [str] is a Rocq [string] (a sequence of bytes, UTF-8 for
      characters outside ASCII).  The character classes [\s], [\d], the
      method [str.lower] and [str.strip] are modelled on the ASCII range;
      bytes above 127 are neither whitespace nor digits and have no case.
    - A Python [dict] with string keys is a [gmap string value].
    - An exception is a value of [exn]; code that may raise returns a
      [result].  [print] calls are not modelled.
    - The two limits of the interpreter that [json.loads] can meet, the
      depth of recursion and the length of an integer literal, are
      parameters ([PyLimits]); memory is not modelled. *)

From Stdlib Require Import ZArith Ascii String List Lia Bool Sorted Permutation.
From stdpp Require Import base option gmap strings list.

Set Warnings "-register-all".
Local Open Scope string_scope.
Local Open Scope Z_scope.

(** ** Python values, exceptions and results *)

Module Py.

(** The values [json.loads] can produce, which are also the values a
    startup dictionary can hold.  A float keeps the text of its literal:
    no floating-point arithmetic is modelled. *)
Inductive value : Type :=
| VNone
| VBool (b : bool)
| VInt (z : Z)
| VFloat (lexeme : string)
| VStr (s : string)
| VList (l : list value)
| VDict (d : gmap string value).

Abbreviation dict := (gmap string value).

(** The exception classes the code can meet; all derive from [Exception]. *)
Inductive exn : Type :=
| JSONDecodeError
| AttributeError
| TypeError
| KeyError
| ValueError
| RequestException
| OtherException (name : string).

Inductive result (A : Type) : Type :=
| Ok (a : A)
| Raise (e : exn).
Arguments Ok {A} a.
Arguments Raise {A} e.

Definition rbind {A B} (r : result A) (f : A -> result B) : result B :=
  match r with
  | Ok a => f a
  | Raise e => Raise e
  end.

(** [isinstance(v, dict)] together with the cast it licenses. *)
Definition as_dict (v : value) : option dict :=
  match v with
  | VDict d => Some d
  | _ => None
  end.

(** [d.get(k, default)] *)
Definition get (d : dict) (k : string) (default : value) : value :=
  match d !! k with
  | Some v => v
  | None => default
  end.

(** *** Strings *)

Definition code (c : ascii) : N := N_of_ascii c.

(** ['A' <= c <= 'Z'] *)
Definition is_upper (c : ascii) : bool :=
  ((65 <=? code c) && (code c <=? 90))%N.

Definition lower_char (c : ascii) : ascii :=
  if is_upper c then ascii_of_N (code c + 32) else c.

(** [s.lower()] *)
Fixpoint lower (s : string) : string :=
  match s with
  | EmptyString => EmptyString
  | String c s' => String (lower_char c) (lower s')
  end.

(** Python's whitespace on the ASCII range: TAB, LF, VT, FF, CR,
    FS, GS, RS, US and the space. *)
Definition is_space (c : ascii) : bool :=
  (((9 <=? code c) && (code c <=? 13))
   || ((28 <=? code c) && (code c <=? 32)))%N.

Definition is_digit (c : ascii) : bool :=
  ((48 <=? code c) && (code c <=? 57))%N.

(** The double quote and the line feed. *)
Definition dquote : ascii := ascii_of_N 34.
Definition newline : ascii := ascii_of_N 10.

Fixpoint lstrip (s : string) : string :=
  match s with
  | String c s' => if is_space c then lstrip s' else s
  | EmptyString => EmptyString
  end.

Fixpoint rev_onto (s acc : string) : string :=
  match s with
  | EmptyString => acc
  | String c s' => rev_onto s' (String c acc)
  end.

Definition srev (s : string) : string := rev_onto s EmptyString.

Definition rstrip (s : string) : string := srev (lstrip (srev s)).

(** [s.strip()] *)
Definition strip (s : string) : string := rstrip (lstrip s).

(** [needle in hay] on two strings. *)
Fixpoint contains (needle hay : string) : bool :=
  String.prefix needle hay
  || match hay with
     | EmptyString => false
     | String _ hay' => contains needle hay'
     end.

(** [v.lower()] on an arbitrary value: only a [str] has the method. *)
Definition lower_of (v : value) : result string :=
  match v with
  | VStr s => Ok (lower s)
  | _ => Raise AttributeError
  end.

End Py.
Export Py.

Notation "x <- r ;; k" := (rbind r (fun x => k))
  (at level 100, r at next level, right associativity).

(** ** Regular expressions

    The fragment of Python's [re] that the source uses: literals, character
    classes, greedy repetition of a class, sequence, ordered alternation
    and capture groups, run by a backtracking matcher with Python's
    priorities (leftmost, greedy, first alternative first). *)

Module Re.

Inductive regex : Type :=
| Eps
| Cls (p : ascii -> bool)
| Star (p : ascii -> bool)
| Plus (p : ascii -> bool)
| Seq (r1 r2 : regex)
| Alt (r1 r2 : regex)
| Grp (r : regex).

Definition ochoice {A} (x y : option A) : option A :=
  match x with
  | Some _ => x
  | None => y
  end.

(** Greedy [C*]: take as many characters as possible, give them back one
    at a time while the continuation fails. *)
Fixpoint star {A} (p : ascii -> bool) (s : string)
    (k : string -> option A) : option A :=
  match s with
  | String c s' => if p c then ochoice (star p s' k) (k s) else k s
  | EmptyString => k s
  end.

Definition plus {A} (p : ascii -> bool) (s : string)
    (k : string -> option A) : option A :=
  match s with
  | String c s' => if p c then star p s' k else None
  | EmptyString => None
  end.

(** The part of [s] in front of its suffix [rest]. *)
Definition consumed (s rest : string) : string :=
  String.substring 0 (String.length s - String.length rest) s.

Fixpoint exec {A} (r : regex) (s : string) (caps : list string)
    (k : string -> list string -> option A) : option A :=
  match r with
  | Eps => k s caps
  | Cls p =>
      match s with
      | String c s' => if p c then k s' caps else None
      | EmptyString => None
      end
  | Star p => star p s (fun rest => k rest caps)
  | Plus p => plus p s (fun rest => k rest caps)
  | Seq r1 r2 => exec r1 s caps (fun rest caps' => exec r2 rest caps' k)
  | Alt r1 r2 => ochoice (exec r1 s caps k) (exec r2 s caps k)
  | Grp r1 =>
      exec r1 s caps (fun rest caps' => k rest (caps' ++ [consumed s rest])%list)
  end.

(** A match object: [group()] and the numbered groups. *)
Record rmatch : Type := { group0 : string; groups : list string }.

(** [group(n)] for a group [n >= 1] that the pattern has. *)
Definition group (m : rmatch) (n : nat) : string :=
  nth (n - 1) (groups m) EmptyString.

(** Match at the start of [s]: the suffix left over and the match. *)
Definition match_here (r : regex) (s : string) : option (string * rmatch) :=
  exec r s [] (fun rest caps =>
    Some (rest, {| group0 := consumed s rest; groups := caps |})).

(** [re.search(r, s)]: the leftmost position where [r] matches. *)
Fixpoint search (r : regex) (s : string) : option rmatch :=
  match match_here r s with
  | Some (_, m) => Some m
  | None =>
      match s with
      | String _ s' => search r s'
      | EmptyString => None
      end
  end.

(** [re.split(r, s)] for a pattern without groups whose matches are
    never empty.  [skip] counts the characters of the current match that
    are still to be passed over, [cur] is the piece being collected. *)
Fixpoint split_go (r : regex) (s : string) (skip : nat) (cur : string)
    : list string :=
  match s with
  | EmptyString => [cur]
  | String c s' =>
      match skip with
      | S n => split_go r s' n cur
      | O =>
          match match_here r s with
          | Some (rest, _) =>
              match (String.length s - String.length rest)%nat with
              | S n => cur :: split_go r s' n EmptyString
              | O => split_go r s' O (cur +:+ String c EmptyString)
              end
          | None => split_go r s' O (cur +:+ String c EmptyString)
          end
      end
  end.

Definition split (r : regex) (s : string) : list string :=
  split_go r s O EmptyString.

(** *** Pattern constructors *)

Definition chr (c : ascii) : regex := Cls (fun x => Ascii.eqb x c).

(** A literal character under [re.IGNORECASE]. *)
Definition ichr (c : ascii) : regex :=
  Cls (fun x => Ascii.eqb (lower_char x) (lower_char c)).

(** A literal string, each character matched by [one] ([chr] or [ichr]). *)
Fixpoint lit (one : ascii -> regex) (s : string) : regex :=
  match s with
  | EmptyString => Eps
  | String c s' => Seq (one c) (lit one s')
  end.

End Re.

(** ** JSON decoding

    A model of [json.loads] of Python's standard library, following the
    structure of [json.decoder] and [json.scanner]: [scan_once] dispatches
    on the first character, [JSONArray] and [JSONObject] loop over the
    items, [py_scanstring] reads a string in strict mode.  A failure of
    the decoder is a [JSONDecodeError]; at the limits of the interpreter
    it raises [RecursionError] or [ValueError] instead. *)

Module Json.

(** The outcome of a scanning function: a value and the text after it, a
    decode error, an exhausted budget of the model (which [json_loads]
    never meets, see [loads_fuel]), or an exception of another class. *)
Inductive scan (A : Type) : Type :=
| Done (a : A) (rest : string)
| Fail
| Fuel
| Abort (e : exn).
Arguments Done {A} a rest.
Arguments Fail {A}.
Arguments Fuel {A}.
Arguments Abort {A} e.

(** The limits of the interpreter that decoding can meet.  [max_nesting]
    is the number of arrays and objects the decoder may be inside of at
    once at this call: entering one more exceeds the recursion limit.
    [max_str_digits] is the greatest number of digits of an integer
    literal that [int] converts, [None] when that limit is switched
    off. *)
Class PyLimits : Type := {
  max_nesting : nat;
  max_str_digits : option nat
}.

(** CPython's defaults: a recursion limit of 1000, all of it taken as left
    to the decoder, and 4300 digits. *)
#[export] Instance default_limits : PyLimits := {|
  max_nesting := 1000;
  max_str_digits := Some 4300%nat
|}.

Definition RecursionError : exn := OtherException "RecursionError".

(** The number of characters of [s] in the class [p]. *)
Fixpoint count (p : ascii -> bool) (s : string) : nat :=
  match s with
  | String c s' => ((if p c then 1 else 0) + count p s')%nat
  | EmptyString => 0%nat
  end.

(** JSON whitespace: space, TAB, LF, CR. *)
Definition is_ws (c : ascii) : bool :=
  ((code c =? 32) || (code c =? 9) || (code c =? 10) || (code c =? 13))%N.

Fixpoint skip_ws (s : string) : string :=
  match s with
  | String c s' => if is_ws c then skip_ws s' else s
  | EmptyString => EmptyString
  end.

Fixpoint sdrop (n : nat) (s : string) : string :=
  match n, s with
  | S n', String _ s' => sdrop n' s'
  | _, _ => s
  end.

(** The longest prefix of characters in the class, and what follows. *)
Fixpoint span (p : ascii -> bool) (s : string) : string * string :=
  match s with
  | String c s' =>
      if p c then let '(a, b) := span p s' in (String c a, b)
      else (EmptyString, s)
  | EmptyString => (EmptyString, EmptyString)
  end.

(** *** Strings *)

Definition hex_val (c : ascii) : option N :=
  let n := code c in
  if ((48 <=? n) && (n <=? 57))%N then Some (n - 48)%N
  else if ((97 <=? n) && (n <=? 102))%N then Some (n - 87)%N
  else if ((65 <=? n) && (n <=? 70))%N then Some (n - 55)%N
  else None.

(** [int(h1 h2 h3 h4, 16)] when the four characters are hex digits. *)
Definition hex4 (h1 h2 h3 h4 : ascii) : option N :=
  match hex_val h1, hex_val h2, hex_val h3, hex_val h4 with
  | Some a, Some b, Some c, Some d =>
      Some (((a * 16 + b) * 16 + c) * 16 + d)%N
  | _, _, _, _ => None
  end.

Definition byte (n : N) : ascii := ascii_of_N n.

(** [chr(u)] as the bytes of its UTF-8 encoding (three bytes also for a
    lone surrogate). *)
Definition chr_utf8 (u : N) (tail : string) : string :=
  if (u <? 128)%N then String (byte u) tail
  else if (u <? 2048)%N then
    String (byte (192 + u / 64)) (String (byte (128 + u mod 64)) tail)
  else if (u <? 65536)%N then
    String (byte (224 + u / 4096))
      (String (byte (128 + (u / 64) mod 64))
         (String (byte (128 + u mod 64)) tail))
  else
    String (byte (240 + u / 262144))
      (String (byte (128 + (u / 4096) mod 64))
         (String (byte (128 + (u / 64) mod 64))
            (String (byte (128 + u mod 64)) tail))).

(** The [BACKSLASH] table of [json.decoder]. *)
Definition backslash (esc : ascii) : option ascii :=
  if Ascii.eqb esc dquote then Some dquote
  else if Ascii.eqb esc "\" then Some "\"%char
  else if Ascii.eqb esc "/" then Some "/"%char
  else if Ascii.eqb esc "b" then Some (byte 8)
  else if Ascii.eqb esc "f" then Some (byte 12)
  else if Ascii.eqb esc "n" then Some (byte 10)
  else if Ascii.eqb esc "r" then Some (byte 13)
  else if Ascii.eqb esc "t" then Some (byte 9)
  else None.

Definition is_high_surrogate (u : N) : bool :=
  ((55296 <=? u) && (u <=? 56319))%N.
Definition is_low_surrogate (u : N) : bool :=
  ((56320 <=? u) && (u <=? 57343))%N.

(** [py_scanstring(s, end, strict=True)], entered after the opening
    quote; [acc] holds the decoded characters in reverse. *)
Fixpoint py_scanstring (s : string) (acc : string) : scan string :=
  match s with
  | EmptyString => Fail
  | String c s1 =>
      if Ascii.eqb c dquote then Done (srev acc) s1
      else if Ascii.eqb c "\" then
        match s1 with
        | EmptyString => Fail
        | String esc s2 =>
            if Ascii.eqb esc "u" then
              match s2 with
              | String h1 (String h2 (String h3 (String h4 s3))) =>
                  match hex4 h1 h2 h3 h4 with
                  | None => Fail
                  | Some uni =>
                      let single :=
                        py_scanstring s3 (srev (chr_utf8 uni EmptyString) +:+ acc) in
                      match s3 with
                      | String b (String u s4) =>
                          if is_high_surrogate uni && Ascii.eqb b "\"
                             && Ascii.eqb u "u" then
                            match s4 with
                            | String g1 (String g2 (String g3 (String g4 s5))) =>
                                match hex4 g1 g2 g3 g4 with
                                | None => Fail
                                | Some uni2 =>
                                    if is_low_surrogate uni2 then
                                      py_scanstring s5
                                        (srev (chr_utf8
                                           (65536 + (uni - 55296) * 1024
                                            + (uni2 - 56320))%N EmptyString) +:+ acc)
                                    else single
                                end
                            | _ => Fail
                            end
                          else single
                      | _ => single
                      end
                  end
              | _ => Fail
              end
            else
              match backslash esc with
              | Some ch => py_scanstring s2 (String ch acc)
              | None => Fail
              end
        end
      else if (code c <? 32)%N then Fail
      else py_scanstring s1 (String c acc)
  end.

(** *** Numbers *)

Definition digit_val (c : ascii) : Z := Z.of_N (code c) - 48.

Fixpoint int_of_digits (s : string) (acc : Z) : Z :=
  match s with
  | String c s' => int_of_digits s' (acc * 10 + digit_val c)
  | EmptyString => acc
  end.

(** The value of an optional minus sign followed by digits. *)
Definition parse_int (lexeme : string) : Z :=
  match lexeme with
  | String c ds =>
      if Ascii.eqb c "-" then - int_of_digits ds 0
      else int_of_digits lexeme 0
  | EmptyString => 0
  end.

Definition is_nonzero_digit (c : ascii) : bool :=
  ((49 <=? code c) && (code c <=? 57))%N.

(** The integer group of [NUMBER_RE]: an optional minus sign, then
    either 0 or a nonzero digit and any digits. *)
Definition lex_integer (s : string) : option (string * string) :=
  let '(sign, s1) :=
    match s with
    | String c r => if Ascii.eqb c "-" then ("-", r) else (EmptyString, s)
    | EmptyString => (EmptyString, s)
    end in
  match s1 with
  | String c r =>
      if Ascii.eqb c "0" then Some (sign +:+ "0", r)
      else if is_nonzero_digit c then
        let '(ds, r') := span is_digit r in Some (sign +:+ String c ds, r')
      else None
  | EmptyString => None
  end.

(** The optional fraction group: a point and one or more digits. *)
Definition lex_frac (s : string) : string * string :=
  match s with
  | String c r =>
      if Ascii.eqb c "." then
        match span is_digit r with
        | (String d ds, r') => (String "." (String d ds), r')
        | _ => (EmptyString, s)
        end
      else (EmptyString, s)
  | EmptyString => (EmptyString, s)
  end.

(** The optional exponent group: e or E, an optional sign, one or more
    digits. *)
Definition lex_exp (s : string) : string * string :=
  match s with
  | String e r =>
      if Ascii.eqb e "e" || Ascii.eqb e "E" then
        let '(sign, r1) :=
          match r with
          | String c r0 =>
              if Ascii.eqb c "-" || Ascii.eqb c "+"
              then (String c EmptyString, r0) else (EmptyString, r)
          | EmptyString => (EmptyString, r)
          end in
        match span is_digit r1 with
        | (String d ds, r') => (String e (sign +:+ String d ds), r')
        | _ => (EmptyString, s)
        end
      else (EmptyString, s)
  | EmptyString => (EmptyString, s)
  end.

Section Decoder.
Context `{PyLimits}.

(** [int(lexeme)], which the scanner uses for [parse_int]: a literal with
    more digits than the limit allows raises [ValueError]. *)
Definition py_int (lexeme : string) : result Z :=
  match max_str_digits with
  | Some most =>
      if (count is_digit lexeme <=? most)%nat then Ok (parse_int lexeme)
      else Raise ValueError
  | None => Ok (parse_int lexeme)
  end.

(** [match_number] and the choice between [parse_int] and [parse_float]. *)
Definition lex_number (s : string) : option (result value * string) :=
  match lex_integer s with
  | None => None
  | Some (integer, r1) =>
      let '(frac, r2) := lex_frac r1 in
      let '(exp, r3) := lex_exp r2 in
      match frac +:+ exp with
      | EmptyString => Some (n <- py_int integer ;; Ok (VInt n), r3)
      | _ => Some (Ok (VFloat (integer +:+ frac +:+ exp)), r3)
      end
  end.

(** The branches of [scan_once] that do not recurse: the three literals,
    numbers, and the constants [NaN], [Infinity], [-Infinity].  [None]
    is [StopIteration]. *)
Definition scan_atom (s : string) : option (result value * string) :=
  if String.prefix "null" s then Some (Ok VNone, sdrop 4 s)
  else if String.prefix "true" s then Some (Ok (VBool true), sdrop 4 s)
  else if String.prefix "false" s then Some (Ok (VBool false), sdrop 5 s)
  else
    match lex_number s with
    | Some r => Some r
    | None =>
        if String.prefix "NaN" s then Some (Ok (VFloat "NaN"), sdrop 3 s)
        else if String.prefix "Infinity" s
        then Some (Ok (VFloat "Infinity"), sdrop 8 s)
        else if String.prefix "-Infinity" s
        then Some (Ok (VFloat "-Infinity"), sdrop 9 s)
        else None
    end.

(** *** Arrays and objects *)

(** [scan_once], the loop of [JSONArray] entered at an item, and the loop
    of [JSONObject] entered after the opening quote of a key.  [acc] and
    [pairs] hold what was read so far, latest first; [dict(pairs)] keeps
    the last value of a repeated key.  [depth] is the number of arrays
    and objects that may still be entered, one inside the other. *)
Fixpoint scan_once (fuel depth : nat) (s : string) : scan value :=
  match fuel with
  | O => Fuel
  | S n =>
      match s with
      | EmptyString => Fail
      | String c s1 =>
          if Ascii.eqb c dquote then
            match py_scanstring s1 EmptyString with
            | Done str rest => Done (VStr str) rest
            | Fail => Fail
            | Fuel => Fuel
            | Abort e => Abort e
            end
          else if Ascii.eqb c "{" then
            match depth with
            | O => Abort RecursionError
            | S d =>
                match skip_ws s1 with
                | String c2 s2 =>
                    if Ascii.eqb c2 "}" then Done (VDict ∅) s2
                    else if Ascii.eqb c2 dquote then object_items n d s2 []
                    else Fail
                | EmptyString => Fail
                end
            end
          else if Ascii.eqb c "[" then
            match depth with
            | O => Abort RecursionError
            | S d =>
                match skip_ws s1 with
                | String c2 s2 =>
                    if Ascii.eqb c2 "]" then Done (VList []) s2
                    else array_items n d (String c2 s2) []
                | EmptyString => array_items n d EmptyString []
                end
            end
          else
            match scan_atom s with
            | Some (Ok v, rest) => Done v rest
            | Some (Raise e, _) => Abort e
            | None => Fail
            end
      end
  end
with array_items (fuel depth : nat) (s : string) (acc : list value)
    : scan value :=
  match fuel with
  | O => Fuel
  | S n =>
      match scan_once n depth s with
      | Done v rest =>
          match skip_ws rest with
          | String c rest' =>
              if Ascii.eqb c "]" then Done (VList (rev (v :: acc))) rest'
              else if Ascii.eqb c ","
              then array_items n depth (skip_ws rest') (v :: acc)
              else Fail
          | EmptyString => Fail
          end
      | Fail => Fail
      | Fuel => Fuel
      | Abort e => Abort e
      end
  end
with object_items (fuel depth : nat) (s : string)
    (pairs : list (string * value)) : scan value :=
  match fuel with
  | O => Fuel
  | S n =>
      match py_scanstring s EmptyString with
      | Done key rest =>
          match skip_ws rest with
          | String c1 rest1 =>
              if Ascii.eqb c1 ":" then
                match scan_once n depth (skip_ws rest1) with
                | Done v rest2 =>
                    match skip_ws rest2 with
                    | String c3 rest3 =>
                        if Ascii.eqb c3 "}" then
                          Done (VDict (list_to_map ((key, v) :: pairs))) rest3
                        else if Ascii.eqb c3 "," then
                          match skip_ws rest3 with
                          | String c4 rest4 =>
                              if Ascii.eqb c4 dquote
                              then object_items n depth rest4
                                     ((key, v) :: pairs)
                              else Fail
                          | EmptyString => Fail
                          end
                        else Fail
                    | EmptyString => Fail
                    end
                | Fail => Fail
                | Fuel => Fuel
                | Abort e => Abort e
                end
              else Fail
          | EmptyString => Fail
          end
      | Fail => Fail
      | Fuel => Fuel
      | Abort e => Abort e
      end
  end.

(** The UTF-8 byte order mark, which [json.loads] refuses. *)
Definition bom : string :=
  String (byte 239) (String (byte 187) (String (byte 191) EmptyString)).

(** [JSONDecoder.decode]: one value, surrounded by whitespace only. *)
Definition decode (fuel : nat) (s : string) : scan value :=
  if String.prefix bom s then Fail
  else
    match scan_once fuel max_nesting (skip_ws s) with
    | Done v rest =>
        match skip_ws rest with
        | EmptyString => Done v EmptyString
        | _ => Fail
        end
    | Fail => Fail
    | Fuel => Fuel
    | Abort e => Abort e
    end.

(** [json.loads(s)] *)
Definition json_loads (s : string) : result value :=
  match decode (2 * String.length s + 1) s with
  | Done v _ => Ok v
  | Fail => Raise JSONDecodeError
  | Fuel => Raise RecursionError
  | Abort e => Raise e
  end.

End Decoder.

End Json.

(** ** The comparison operators on values

    Python's [<] and [>=] between two score values are taken as an
    interface.  The development relies only on their behaviour on
    integers; [int_order] below is the instance used for concrete runs. *)

Class PyOrder : Type := {
  py_lt : value -> value -> result bool;
  py_ge : value -> value -> result bool;
  py_lt_int : forall a b : Z, py_lt (VInt a) (VInt b) = Ok (a <? b);
  py_ge_int : forall a b : Z, py_ge (VInt a) (VInt b) = Ok (b <=? a)
}.

(** Integers and booleans as numbers. *)
Definition num_of (v : value) : option Z :=
  match v with
  | VInt z => Some z
  | VBool b => Some (if b then 1 else 0)
  | _ => None
  end.

(** The operators on numbers without fraction and on strings of equal
    kind; [None], dictionaries and a number against a string raise
    [TypeError] as in Python.  Floats and lists, which Python does order,
    are left out of this instance and reported as [TypeError] too. *)
Definition order_with (num : Z -> Z -> bool) (str : string -> string -> bool)
    (a b : value) : result bool :=
  match num_of a, num_of b with
  | Some x, Some y => Ok (num x y)
  | _, _ =>
      match a, b with
      | VStr s, VStr t => Ok (str s t)
      | _, _ => Raise TypeError
      end
  end.

#[export] Instance int_order : PyOrder := {|
  py_lt := order_with Z.ltb String.ltb;
  py_ge := order_with Z.geb (fun s t => String.leb t s);
  py_lt_int := fun a b => eq_refl;
  py_ge_int := fun a b => f_equal Ok (Z.geb_leb a b)
|}.

(** ** The clock and the effects of formatting

    [datetime.now().isoformat()] is the only source of state: [clock n] is
    the text of the [n]-th reading since the start of the run.  A
    computation takes the number of readings made so far and returns its
    result or exception together with the new count; the count is kept
    when an exception is raised. *)

Definition M (A : Type) : Type := nat -> result A * nat.

Definition ret {A} (a : A) : M A := fun t => (Ok a, t).

Definition bind {A B} (m : M A) (f : A -> M B) : M B :=
  fun t =>
    match m t with
    | (Ok a, t') => f a t'
    | (Raise e, t') => (Raise e, t')
    end.

Definition lift {A} (r : result A) : M A := fun t => (r, t).

(** [try: body except Exception: handler] *)
Definition try_except {A} (body : M A) (handler : exn -> M A) : M A :=
  fun t =>
    match body t with
    | (Ok a, t') => (Ok a, t')
    | (Raise e, t') => handler e t'
    end.

Notation "x <~ m ;; k" := (bind m (fun x => k))
  (at level 100, m at next level, right associativity).

(** ** utils.py *)

Module Utils.
Import Re Json.

(** *** The patterns *)

Definition any_char (c : ascii) : bool := true.
Definition not_newline (c : ascii) : bool := negb (Ascii.eqb c newline).
Definition colon_or_space (c : ascii) : bool :=
  Ascii.eqb c ":" || is_space c.

(** [r'\[.*\]'] with [re.DOTALL] *)
Definition json_array_re : regex :=
  Seq (chr "[") (Seq (Star any_char) (chr "]")).

(** [r'\n\d+\.|\n•|\n-'] *)
Definition entry_sep_re : regex :=
  Alt (Seq (chr newline) (Seq (Plus is_digit) (chr ".")))
    (Alt (Seq (chr newline) (lit chr "•"))
       (Seq (chr newline) (chr "-"))).

(** [label + r'[:\s]+([^\n]+)'] with [re.IGNORECASE] *)
Definition label_re (label : string) : regex :=
  Seq (lit ichr label) (Seq (Plus colon_or_space) (Grp (Plus not_newline))).

(** *** Tier 2: structured text *)

(** The dictionary literal with the eight keys of a startup. *)
Definition startup_dict
    (name description growth_reason source_link sector funding_stage
       signal_type : string) (score : Z) : dict :=
  list_to_map
    [("name", VStr name);
     ("description", VStr description);
     ("growth_reason", VStr growth_reason);
     ("source_link", VStr source_link);
     ("sector", VStr sector);
     ("funding_stage", VStr funding_stage);
     ("signal_type", VStr signal_type);
     ("score", VInt score)].

(** [m.group(1).strip() if m else default] *)
Definition group1_or (m : option rmatch) (default : string) : string :=
  match m with
  | Some m => strip (group m 1)
  | None => default
  end.

(** The body of the loop over the entries: the mapping an entry yields,
    if any. *)
Definition parse_entry (entry : string) : option dict :=
  match strip entry with
  | EmptyString => None
  | _ =>
      let name_match := search (label_re "Name") entry in
      let desc_match := search (label_re "Description") entry in
      let reason_match := search (label_re "Reason") entry in
      let source_match := search (label_re "Source") entry in
      match name_match with
      | Some nm =>
          Some (startup_dict
                  (strip (group nm 1))
                  (group1_or desc_match "No description")
                  (group1_or reason_match "Growth potential detected")
                  (group1_or source_match "https://example.com")
                  "Technology" "Early Stage" "News" 75)
      | None => None
      end
  end.

Definition parse_structured_text (text : string) : list dict :=
  let entries := split entry_sep_re text in
  omap parse_entry entries.

(** *** The fallback catalog *)

Definition get_fallback_data : list dict :=
  [ startup_dict "TechFlow Analytics"
      "AI-powered business intelligence platform for SMBs"
      "Recent Series A funding of $5M, growing customer base"
      "https://techcrunch.com/techflow-analytics"
      "Business Intelligence" "Series A" "Funding" 85;
    startup_dict "CloudSync Pro"
      "Enterprise-grade file synchronization solution"
      "Major partnership with Microsoft, expanding team"
      "https://venturebeat.com/cloudsync-pro"
      "Cloud Computing" "Seed" "Partnership" 78;
    startup_dict "DataVault Security"
      "Zero-trust cybersecurity platform for enterprises"
      "Increased demand post-cyber attacks, new product launch"
      "https://techcrunch.com/datavault-security"
      "Cybersecurity" "Early Stage" "Market Demand" 92;
    startup_dict "GreenTech Solutions"
      "Sustainability tracking software for manufacturing"
      "Regulatory compliance requirements, ESG focus"
      "https://greenbiz.com/greentech-solutions"
      "Sustainability" "Seed" "Regulatory" 80;
    startup_dict "HealthAI Connect"
      "AI-powered patient care coordination platform"
      "Healthcare digitization trends, pilot with major hospital"
      "https://healthcareitnews.com/healthai-connect"
      "Healthcare" "Series A" "Industry Trend" 88;
    startup_dict "EduTech Pro"
      "Personalized learning platform for K-12 education"
      "Remote learning adoption, government contracts"
      "https://edtechmagazine.com/edutech-pro"
      "Education" "Early Stage" "Government" 75;
    startup_dict "FinFlow Analytics"
      "Real-time financial data analysis for traders"
      "Market volatility, institutional interest"
      "https://fintechnews.com/finflow-analytics"
      "Fintech" "Seed" "Market Opportunity" 82;
    startup_dict "LogiChain Pro"
      "Supply chain optimization using blockchain"
      "Global supply chain disruptions, Fortune 500 pilots"
      "https://supplychaindive.com/logichain-pro"
      "Logistics" "Series A" "Market Disruption" 79;
    startup_dict "RetailAI Insights"
      "AI-powered retail analytics and customer insights"
      "E-commerce growth, major retail partnerships"
      "https://retailwire.com/retailai-insights"
      "Retail" "Early Stage" "Partnership" 76;
    startup_dict "EnergyGrid Optimizer"
      "Smart grid management and energy optimization"
      "Renewable energy transition, government incentives"
      "https://energynews.com/energygrid-optimizer"
      "Energy" "Seed" "Policy" 84 ].

(** *** The response parser *)

(** [for startup in startups] on an arbitrary value: the items of a list,
    the characters of a string, the keys of a dictionary (none of the
    last two is a dictionary, so their order does not matter to the
    validation loop). *)
Definition py_iter (v : value) : result (list value) :=
  match v with
  | VList l => Ok l
  | VStr s => Ok ((fun c => VStr (String c EmptyString)) <$> list_ascii_of_string s)
  | VDict d => Ok ((fun kv => VStr kv.1) <$> map_to_list d)
  | _ => Raise TypeError
  end.

(** The dictionary built for one startup in the validation loop. *)
Definition validated_startup (startup : dict) : dict :=
  list_to_map
    [("name", get startup "name" (VStr "Unknown Startup"));
     ("description", get startup "description" (VStr "No description available"));
     ("growth_reason", get startup "growth_reason" (VStr "Growth signals detected"));
     ("source_link", get startup "source_link" (VStr "https://example.com"));
     ("sector", get startup "sector" (VStr "Technology"));
     ("funding_stage", get startup "funding_stage" (VStr "Early Stage"));
     ("signal_type", get startup "signal_type" (VStr "News"));
     ("score", get startup "score" (VInt 75))].

(** The validation loop: entries that are not dictionaries are passed
    over. *)
Fixpoint validate (startups : list value) : list dict :=
  match startups with
  | [] => []
  | startup :: rest =>
      match as_dict startup with
      | Some d => validated_startup d :: validate rest
      | None => validate rest
      end
  end.

(** The [try] block: JSON when a bracketed span is found, structured
    text otherwise. *)
Definition extract `{PyLimits} (response_text : string) : result value :=
  match search json_array_re response_text with
  | Some json_match => json_loads (group0 json_match)
  | None => Ok (VList (VDict <$> parse_structured_text response_text))
  end.

(** [except (json.JSONDecodeError, AttributeError)] *)
Definition caught (e : exn) : bool :=
  match e with
  | JSONDecodeError | AttributeError => true
  | _ => false
  end.

Definition parse_saas_startups_response `{PyLimits} (response_text : string)
    : result (list dict) :=
  startups <-
    match extract response_text with
    | Ok startups => Ok startups
    | Raise e =>
        if caught e then Ok (VList (VDict <$> get_fallback_data))
        else Raise e
    end ;;
  items <- py_iter startups ;;
  Ok (validate items).

(** *** The scorer *)

Definition calculate_growth_score (startup : dict) : result Z :=
  let score := 50 in
  funding_stage <- lower_of (get startup "funding_stage" (VStr EmptyString)) ;;
  let score :=
    if contains "seed" funding_stage then score + 10
    else if contains "series a" funding_stage then score + 15
    else if contains "series b" funding_stage then score + 20
    else score in
  signal_type <- lower_of (get startup "signal_type" (VStr EmptyString)) ;;
  let score :=
    if contains "funding" signal_type then score + 15
    else if contains "partnership" signal_type then score + 12
    else if contains "acquisition" signal_type then score + 20
    else score in
  sector <- lower_of (get startup "sector" (VStr EmptyString)) ;;
  let score :=
    if contains "ai" sector || contains "artificial intelligence" sector
    then score + 8
    else if contains "cybersecurity" sector then score + 10
    else if contains "healthcare" sector then score + 7
    else score in
  Ok (Z.min 100 (Z.max 0 score)).

(** *** Sorting and formatting *)

Fixpoint mapM {A B} (f : A -> result B) (l : list A) : result (list B) :=
  match l with
  | [] => Ok []
  | x :: l' => y <- f x ;; ys <- mapM f l' ;; Ok (y :: ys)
  end.

Section Format.
Context `{PyOrder}.
Variable clock : nat -> string.

(** One step of a stable ascending insertion sort on (key, item)
    pairs: [x], which stood before every element of [sorted], passes
    the elements whose key is smaller than its own.  Only [<] is used,
    as in [list.sort]. *)
Fixpoint insert_asc (x : value * dict) (sorted : list (value * dict))
    : result (list (value * dict)) :=
  match sorted with
  | [] => Ok [x]
  | y :: rest =>
      smaller <- py_lt y.1 x.1 ;;
      if smaller
      then (r <- insert_asc x rest ;; Ok (y :: r))
      else Ok (x :: y :: rest)
  end.

Fixpoint sort_asc (l : list (value * dict)) : result (list (value * dict)) :=
  match l with
  | [] => Ok []
  | x :: l' => sorted <- sort_asc l' ;; insert_asc x sorted
  end.

(** The key function [lambda x: x['score']] *)
Definition score_key (x : dict) : result value :=
  match x !! "score" with
  | Some v => Ok v
  | None => Raise KeyError
  end.

(** [l.sort(key=lambda x: x['score'], reverse=True)]: the keys are
    computed, the list is reversed, sorted by a stable ascending sort
    and reversed again, which is how [list.sort] keeps the order of
    equal keys under [reverse=True]. *)
Definition sort_by_score_reverse (l : list dict) : result (list dict) :=
  keys <- mapM score_key l ;;
  sorted <- sort_asc (rev (zip keys l)) ;;
  Ok (rev (snd <$> sorted)).

(** [datetime.now().isoformat()] *)
Definition now : M string := fun t => (Ok (clock t), S t).

(** The body of the loop of [format_startup_data].  The source updates
    the dictionary in place; the dictionaries of the list are taken to be
    distinct objects, as the validation loop and the catalog make them. *)
Definition format_one (startup : dict) : M dict :=
  startup <~
    match startup !! "score" with
    | None =>
        score <~ lift (calculate_growth_score startup) ;;
        ret (<["score" := VInt score]> startup)
    | Some _ => ret startup
    end ;;
  timestamp <~ now ;;
  ret (<["timestamp" := VStr timestamp]> startup).

Fixpoint format_loop (startups : list dict) : M (list dict) :=
  match startups with
  | [] => ret []
  | startup :: rest =>
      formatted <~ format_one startup ;;
      others <~ format_loop rest ;;
      ret (formatted :: others)
  end.

Definition format_startup_data (startups : list dict) : M (list dict) :=
  formatted_startups <~ format_loop startups ;;
  lift (sort_by_score_reverse formatted_startups).

End Format.

End Utils.

(** ** main.py *)

Module Main.
Import Json Utils.

Definition generate_startup_query : string :=
"Give me 10 early-stage SaaS startups that are likely to experience significant growth based on recent public signals. 

For each startup, provide the following information in JSON format:
- name: Company name
- description: Brief description of what they do
- growth_reason: Specific reason why they show growth potential (funding, partnerships, market trends, etc.)
- source_link: URL or source of the signal
- sector: Industry sector
- funding_stage: Current funding stage
- signal_type: Type of signal (funding, partnership, acquisition, market demand, etc.)

Focus on startups that have shown recent activity like:
- Recent funding rounds
- Strategic partnerships
- Product launches
- Market expansion
- Regulatory changes affecting their sector
- Industry trends favoring their solution

Return the data as a JSON array with these exact field names.".

(** [len(response)] *)
Definition py_len (v : value) : result nat :=
  match v with
  | VStr s => Ok (String.length s)
  | VList l => Ok (length l)
  | VDict d => Ok (size d)
  | _ => Raise TypeError
  end.

(** [parse_saas_startups_response(response)]: [re.search] refuses an
    argument that is not a string. *)
Definition parse_response `{PyLimits} (response : value)
    : result (list dict) :=
  match response with
  | VStr text => parse_saas_startups_response text
  | _ => Raise TypeError
  end.

Section Scan.
Context `{PyLimits} `{PyOrder}.
Variable clock : nat -> string.

(** [self.client] is [None] or a client, whose [ask] answers the query
    with a value or raises. *)
Definition scan_for_startups (client : option (string -> result value))
    : M (list dict) :=
  match client with
  | None => format_startup_data clock get_fallback_data
  | Some ask =>
      try_except
        (let query := generate_startup_query in
         response <~ lift (ask query) ;;
         _ <~ lift (py_len response) ;;
         startups <~ lift (parse_response response) ;;
         formatted_startups <~ format_startup_data clock startups ;;
         ret formatted_startups)
        (fun e => format_startup_data clock get_fallback_data)
  end.

End Scan.

(** *** Filtering

    Lists are objects: a heap maps the identity of a list to its items,
    so that what [filter_startups] does to the list it is given can be
    observed. *)

Abbreviation heap := (gmap nat (list dict)).

Definition H (A : Type) : Type := heap -> result A * heap.

Definition hret {A} (a : A) : H A := fun h => (Ok a, h).

Definition hbind {A B} (m : H A) (f : A -> H B) : H B :=
  fun h =>
    match m h with
    | (Ok a, h') => f a h'
    | (Raise e, h') => (Raise e, h')
    end.

(** A new list object. *)
Definition new_list (items : list dict) : H nat :=
  fun h => let loc := fresh (dom h) in (Ok loc, <[loc := items]> h).

Definition items_of (loc : nat) : H (list dict) :=
  fun h =>
    match h !! loc with
    | Some items => (Ok items, h)
    | None => (Raise (OtherException "NameError"), h)
    end.

(** [l.copy()] *)
Definition list_copy (loc : nat) : H nat :=
  hbind (items_of loc) new_list.

(** The items a comprehension keeps; the first exception of the
    condition ends it. *)
Fixpoint keep_if (cond : dict -> result bool) (items : list dict)
    : result (list dict) :=
  match items with
  | [] => Ok []
  | s :: rest =>
      b <- cond s ;;
      kept <- keep_if cond rest ;;
      Ok (if b then s :: kept else kept)
  end.

(** [[s for s in l if cond(s)]] *)
Definition comprehension (loc : nat) (cond : dict -> result bool) : H nat :=
  hbind (items_of loc) (fun items h =>
    match keep_if cond items with
    | Ok kept => new_list kept h
    | Raise e => (Raise e, h)
    end).

(** [c and c != "All"] for an optional string: the criterion when it
    applies. *)
Definition applies (c : option string) : option string :=
  match c with
  | None => None
  | Some c =>
      if String.eqb c EmptyString then None
      else if String.eqb c "All" then None
      else Some c
  end.

(** [s.get(field, '').lower() == c.lower()] *)
Definition field_is (field c : string) (s : dict) : result bool :=
  v <- lower_of (get s field (VStr EmptyString)) ;;
  Ok (String.eqb v (lower c)).

Section Filter.
Context `{PyOrder}.

(** [s.get('score', 0) >= min_score] *)
Definition score_at_least (min_score : Z) (s : dict) : result bool :=
  py_ge (get s "score" (VInt 0)) (VInt min_score).

Definition filter_by (field : string) (c : option string) (loc : nat)
    : H nat :=
  match applies c with
  | Some c => comprehension loc (field_is field c)
  | None => hret loc
  end.

Definition filter_startups (startups : nat)
    (sector funding_stage signal_type : option string) (min_score : Z)
    : H nat :=
  hbind (list_copy startups) (fun filtered_startups =>
  hbind (filter_by "sector" sector filtered_startups) (fun filtered_startups =>
  hbind (filter_by "funding_stage" funding_stage filtered_startups) (fun filtered_startups =>
  hbind (filter_by "signal_type" signal_type filtered_startups) (fun filtered_startups =>
  comprehension filtered_startups (score_at_least min_score))))).

End Filter.

End Main.

(** ** Notions used in the statements *)

Import Re Json Utils Main.

(** *** Scores and their order *)

(** The integer score of a record (0 when it has none). *)
Definition score_of (d : dict) : Z :=
  match d !! "score" with
  | Some (VInt z) => z
  | _ => 0
  end.

(** A record whose score is an integer. *)
Definition has_int_score (d : dict) : Prop :=
  exists z, d !! "score" = Some (VInt z).

(** A record whose score is an integer from 0 to 100. *)
Definition score_in_range (d : dict) : Prop :=
  exists z, d !! "score" = Some (VInt z) /\ 0 <= z <= 100.

(** A record with its integer score as sort key. *)
Definition tag (d : dict) : value * dict := (VInt (score_of d), d).

(** The two orders on records by score. *)
Definition ascending (a b : dict) : Prop := score_of a <= score_of b.
Definition descending (a b : dict) : Prop := score_of b <= score_of a.

(** A stable insertion sort on integer scores, ascending. *)
Fixpoint insert_by_score (x : dict) (sorted : list dict) : list dict :=
  match sorted with
  | [] => [x]
  | y :: rest =>
      if score_of y <? score_of x then y :: insert_by_score x rest
      else x :: y :: rest
  end.

Fixpoint sort_by_score (l : list dict) : list dict :=
  match l with
  | [] => []
  | x :: l' => insert_by_score x (sort_by_score l')
  end.

Definition sorted_desc (l : list dict) : list dict :=
  rev (sort_by_score (rev l)).

(** The records with a given score, in the order of the list. *)
Definition with_score (k : Z) (l : list dict) : list dict :=
  List.filter (fun d => score_of d =? k) l.

(** *** The scorer as the specification words it *)

(** The text of a field read with [d.get(k, '')], when it is a string. *)
Definition field_text (d : dict) (k : string) : option string :=
  match get d k (VStr EmptyString) with
  | VStr s => Some s
  | _ => None
  end.

Definition text_or_empty (d : dict) (k : string) : string :=
  default EmptyString (field_text d k).

(** A case-insensitive substring check. *)
Definition ci_in (needle text : string) : bool :=
  contains (lower needle) (lower text).

Definition stage_bonus (funding_stage : string) : Z :=
  if ci_in "seed" funding_stage then 10
  else if ci_in "series a" funding_stage then 15
  else if ci_in "series b" funding_stage then 20
  else 0.

Definition signal_bonus (signal_type : string) : Z :=
  if ci_in "funding" signal_type then 15
  else if ci_in "partnership" signal_type then 12
  else if ci_in "acquisition" signal_type then 20
  else 0.

Definition sector_bonus (sector : string) : Z :=
  if ci_in "ai" sector || ci_in "artificial intelligence" sector then 8
  else if ci_in "cybersecurity" sector then 10
  else if ci_in "healthcare" sector then 7
  else 0.

Definition clamp (lo hi x : Z) : Z := Z.min hi (Z.max lo x).

Definition score_spec (funding_stage signal_type sector : string) : Z :=
  clamp 0 100
    (50 + stage_bonus funding_stage + signal_bonus signal_type
     + sector_bonus sector).

(** *** The formatter on input it can score *)

(** A dictionary the formatter can score: its score is an integer, or it
    has none and the three fields the scorer reads are strings or
    missing. *)
Definition int_scored (d : dict) : Prop :=
  (exists z, d !! "score" = Some (VInt z))
  \/ (d !! "score" = None
      /\ is_Some (field_text d "funding_stage")
      /\ is_Some (field_text d "signal_type")
      /\ is_Some (field_text d "sector")).

(** A dictionary the formatter gives a score in range: it has one, or it
    has none and the scorer can read its three fields. *)
Definition range_scored (d : dict) : Prop :=
  score_in_range d
  \/ (d !! "score" = None
      /\ is_Some (field_text d "funding_stage")
      /\ is_Some (field_text d "signal_type")
      /\ is_Some (field_text d "sector")).

(** An entry of the parser output whose score, if it is a dictionary with
    one, is an integer. *)
Definition int_score_entry (v : value) : Prop :=
  forall d, v = VDict d ->
    d !! "score" = None \/ exists z, d !! "score" = Some (VInt z).

(** An entry of the parser output whose score, if it is a dictionary with
    one, is an integer from 0 to 100. *)
Definition range_entry (v : value) : Prop :=
  forall d, v = VDict d -> d !! "score" = None \/ score_in_range d.

(** The record with its score filled in. *)
Definition scored (d : dict) : dict :=
  match d !! "score" with
  | Some _ => d
  | None =>
      <["score" := VInt (score_spec (text_or_empty d "funding_stage")
                           (text_or_empty d "signal_type")
                           (text_or_empty d "sector"))]> d
  end.

(** The records in input order, scored and stamped with the readings
    [t], [t + 1], ... of the clock. *)
Fixpoint stamped (clock : nat -> string) (t : nat) (l : list dict)
    : list dict :=
  match l with
  | [] => []
  | d :: l' =>
      <["timestamp" := VStr (clock t)]> (scored d) :: stamped clock (S t) l'
  end.

(** The seven text fields and their default constants. *)
Definition text_defaults : list (string * string) :=
  [("name", "Unknown Startup");
   ("description", "No description available");
   ("growth_reason", "Growth signals detected");
   ("source_link", "https://example.com");
   ("sector", "Technology");
   ("funding_stage", "Early Stage");
   ("signal_type", "News")].

(** The nine fields of a record. *)
Definition record_fields : list string :=
  ["name"; "description"; "growth_reason"; "source_link"; "sector";
   "funding_stage"; "signal_type"; "score"; "timestamp"].

(** A text field of an output record [r] is the default constant when the
    input mapping [d] lacks it and the value of [d] otherwise. *)
Definition defaulted (d r : dict) (kd : string * string) : Prop :=
  (d !! kd.1 = None -> r !! kd.1 = Some (VStr kd.2))
  /\ (forall v, d !! kd.1 = Some v -> r !! kd.1 = Some v).

(** *** The catalog in order of score *)

(** The catalog in descending order of score. *)
Definition catalog_by_score : list dict :=
  (fun i => nth i get_fallback_data ∅) <$> [2; 4; 0; 9; 6; 3; 7; 1; 8; 5]%nat.

(** The catalog in descending order of score, stamped in catalog order
    from reading [t] on. *)
Definition stamped_catalog_by_score (clock : nat -> string) (t : nat)
    : list dict :=
  (fun i => <["timestamp" := VStr (clock (i + t)%nat)]>
              (nth i get_fallback_data ∅))
    <$> [2; 4; 0; 9; 6; 3; 7; 1; 8; 5]%nat.

(** *** The orchestrator *)

(** A client whose [ask] raises on every query. *)
Definition always_fails (ask : string -> result value) : Prop :=
  forall query, exists e, ask query = Raise e.

(** *** Filtering as the specification words it *)

(** A record as the data model types it: the three category fields are
    strings when present and the score is an integer when present. *)
Definition typed_record (d : dict) : Prop :=
  is_Some (field_text d "sector")
  /\ is_Some (field_text d "funding_stage")
  /\ is_Some (field_text d "signal_type")
  /\ (d !! "score" = None \/ exists z, d !! "score" = Some (VInt z)).

(** A criterion that is absent, empty or the sentinel holds of every
    record; any other holds when the field equals it up to case. *)
Definition criterion_holds (field : string) (c : option string) (d : dict)
    : bool :=
  match c with
  | None => true
  | Some c =>
      if String.eqb c EmptyString || String.eqb c "All" then true
      else String.eqb (lower (text_or_empty d field)) (lower c)
  end.

Definition survives (sector funding_stage signal_type : option string)
    (min_score : Z) (d : dict) : bool :=
  criterion_holds "sector" sector d
  && criterion_holds "funding_stage" funding_stage d
  && criterion_holds "signal_type" signal_type d
  && (min_score <=? score_of d).

(** The items of the list that [filter_startups] returns for a list given
    by its items. *)
Definition filtered `{PyOrder} (records : list dict)
    (sector funding_stage signal_type : option string) (min_score : Z)
    : result (list dict) :=
  match filter_startups 0%nat sector funding_stage signal_type min_score
          (<[0%nat := records]> ∅) with
  | (Ok out, h') => Ok (default [] (h' !! out))
  | (Raise e, _) => Raise e
  end.

(** The names of the records of a result. *)
Definition names (r : result (list dict)) : list value :=
  match r with
  | Ok l => (fun d : dict => default VNone (d !! "name")) <$> l
  | Raise _ => []
  end.

(** *** Concrete inputs *)

(** A clock for concrete runs: every reading gives the same text. *)
Definition fixed_clock (n : nat) : string := "2025-01-01T00:00:00".

(** The text of the example: two labelled lines under a numbered item. *)
Definition acme_text : string :=
  "1. Name: Acme Corp" +:+ String newline "Description: Widgets"
  +:+ String newline EmptyString.

Definition acme_mapping : dict :=
  startup_dict "Acme Corp" "Widgets" "Growth potential detected"
    "https://example.com" "Technology" "Early Stage" "News" 75.

(** The text [Here is data: [{"name":"Acme","score":90}] done]. *)
Definition acme_json_text : string :=
  let q := String dquote EmptyString in
  "Here is data: [{" +:+ q +:+ "name" +:+ q +:+ ":" +:+ q +:+ "Acme" +:+ q
  +:+ "," +:+ q +:+ "score" +:+ q +:+ ":90}] done".

(** The startup of the scoring example. *)
Definition series_a_funding_cybersecurity : dict :=
  <["funding_stage" := VStr "Series A"]>
    (<["signal_type" := VStr "Funding"]>
       (<["sector" := VStr "Cybersecurity"]> ∅)).

(** A response whose only entry carries the score 150. *)
Definition overscored : list value := [VDict (<["score" := VInt 150]> ∅)].

(** What the formatter makes of it at the first reading of the clock. *)
Definition overscored_record : dict :=
  <["timestamp" := VStr (fixed_clock 0)]>
    (validated_startup (<["score" := VInt 150]> ∅)).

(** Two mappings without any text field, the first with a text for
    score. *)
Definition text_scored : list value :=
  [VDict (<["score" := VStr "high"]> ∅); VDict ∅].

(** A client that is out of reach. *)
Definition unreachable (query : string) : result value := Raise RequestException.

(** Two records of the catalog and one without a sector, as a list object
    at address 0. *)
Definition sample_records : list dict :=
  [ startup_dict "DataVault Security"
      "Zero-trust cybersecurity platform for enterprises"
      "Increased demand post-cyber attacks, new product launch"
      "https://techcrunch.com/datavault-security"
      "Cybersecurity" "Early Stage" "Market Demand" 92;
    startup_dict "EduTech Pro"
      "Personalized learning platform for K-12 education"
      "Remote learning adoption, government contracts"
      "https://edtechmagazine.com/edutech-pro"
      "Education" "Early Stage" "Government" 75;
    <["name" := VStr "Nameless"]> ∅ ].

Definition sample_heap : heap := <[0%nat := sample_records]> ∅.

(** A record without a score, alone in a list object at address 1. *)
Definition unscored_record : dict := <["sector" := VStr "Energy"]> ∅.

Definition unscored_heap : heap := <[1%nat := [unscored_record]]> ∅.

(** *** Further notions *)

(** The eight keys of a validated startup. *)
Definition startup_keys : gset string :=
  list_to_set ["name"; "description"; "growth_reason"; "source_link";
               "sector"; "funding_stage"; "signal_type"; "score"].

(** A startup with the three highest bonuses. *)
Definition top_scored : dict :=
  <["funding_stage" := VStr "Series B"]>
    (<["signal_type" := VStr "Acquisition"]>
       (<["sector" := VStr "Cybersecurity"]> ∅)).

(** The startup of the scoring example, written in capitals. *)
Definition series_a_in_capitals : dict :=
  <["funding_stage" := VStr "SERIES A"]>
    (<["signal_type" := VStr "FUNDING"]>
       (<["sector" := VStr "CYBERSECURITY"]> ∅)).

(** The three fields the scorer reads. *)
Definition scorer_fields : list string :=
  ["funding_stage"; "signal_type"; "sector"].

(** The fields of two startups that the scorer reads are the same texts
    up to the case of the letters. *)
Definition same_up_to_case (d d' : dict) (k : string) : Prop :=
  exists s s', field_text d k = Some s /\ field_text d' k = Some s'
               /\ lower s = lower s'.

(** The four criteria of a call of [filter_startups]. *)
Record criteria : Type := {
  by_sector : option string;
  by_funding_stage : option string;
  by_signal_type : option string;
  at_least : Z
}.

Definition meets (c : criteria) (d : dict) : bool :=
  survives (by_sector c) (by_funding_stage c) (by_signal_type c) (at_least c) d.

(** [filter_startups] called with the criteria [c]. *)
Definition filter_with `{PyOrder} (c : criteria) (startups : nat) : H nat :=
  filter_startups startups (by_sector c) (by_funding_stage c)
    (by_signal_type c) (at_least c).

(** Keeping the sector Cybersecurity, and keeping the scores from 80. *)
Definition cybersecurity_only : criteria :=
  {| by_sector := Some "Cybersecurity"; by_funding_stage := None;
     by_signal_type := None; at_least := 0 |}.

Definition scored_80_up : criteria :=
  {| by_sector := None; by_funding_stage := None;
     by_signal_type := None; at_least := 80 |}.

(** A record whose score is an integer or missing. *)
Definition score_typed (d : dict) : Prop :=
  d !! "score" = None \/ exists z, d !! "score" = Some (VInt z).

(** A list object at address 0 whose only record has no text for
    sector. *)
Definition null_sector_records : list dict :=
  [<["sector" := VNone]> (<["score" := VInt 90]> ∅)].

Definition null_sector_heap : heap := <[0%nat := null_sector_records]> ∅.

(** *** Bracketed text *)

(** Whether the character [c] occurs in [s]. *)
Fixpoint occurs (c : ascii) (s : string) : bool :=
  match s with
  | EmptyString => false
  | String x s' => Ascii.eqb x c || occurs c s'
  end.

(** The text [pre [mid] post], cut at one opening and one closing
    bracket. *)
Definition bracketed (pre mid post : string) : string :=
  pre +:+ String "[" (mid +:+ String "]" post).

(** The continuation of the closing bracket: it wants a bracket next and
    hands what follows to [f]. *)
Definition closing {A} (f : string -> A) (rest : string) : option A :=
  match rest with
  | String c rest' => if Ascii.eqb c "]" then Some (f rest') else None
  | EmptyString => None
  end.

(** A piece of text with two arrays in it. *)
Definition two_arrays : string := "first [1] then [2] done".

(** ** main.py: the distinct values of a field *)

(** A float is kept as the text of its literal; what Python's object
    protocol makes of it is an interface: its truth value, whether a set
    takes two floats for the same element, and whether it equals a given
    integer. *)
Class PyFloat : Type := {
  float_truthy : string -> bool;
  float_same : string -> string -> bool;
  float_is_int : string -> Z -> bool
}.

(** For runs on data that has no float in it, an instance that compares
    the literals as texts; it stands in for the interface there and is
    not Python's arithmetic. *)
#[export] Instance literal_floats : PyFloat := {|
  float_truthy := fun x => negb (String.eqb x "0.0");
  float_same := String.eqb;
  float_is_int := fun x n => false
|}.

(** The order of [PyOrder] on strings is the order of their
    characters. *)
Class PyStrOrder `{PyOrder} : Prop := {
  py_lt_str : forall a b : string, py_lt (VStr a) (VStr b) = Ok (String.ltb a b)
}.

#[export] Instance int_order_on_strings : @PyStrOrder int_order.
Proof. constructor. reflexivity. Qed.

(** [bool(v)] *)
Definition truthy `{PyFloat} (v : value) : bool :=
  match v with
  | VNone => false
  | VBool b => b
  | VInt z => negb (z =? 0)
  | VFloat x => float_truthy x
  | VStr s => negb (String.eqb s EmptyString)
  | VList l => match l with [] => false | _ :: _ => true end
  | VDict d => negb (bool_decide (d = ∅))
  end.

(** Whether a set takes [a] and [b] for the same element: equal numbers
    (booleans count as 0 and 1), equal strings. *)
Definition py_same `{PyFloat} (a b : value) : bool :=
  match a, b with
  | VStr s, VStr t => String.eqb s t
  | VNone, VNone => true
  | VFloat x, VFloat y => float_same x y
  | VFloat x, _ => match num_of b with Some n => float_is_int x n | None => false end
  | _, VFloat y => match num_of a with Some n => float_is_int y n | None => false end
  | _, _ =>
      match num_of a, num_of b with
      | Some m, Some n => m =? n
      | _, _ => false
      end
  end.

(** Lists and dictionaries cannot be hashed. *)
Definition hashable (v : value) : bool :=
  match v with
  | VList _ | VDict _ => false
  | _ => true
  end.

(** [values.add(v)] on a set kept as the list of its elements in the
    order they came in (the order in which Python goes through a set is
    not fixed; it does not matter once the elements are sorted by a
    total order). *)
Definition set_add `{PyFloat} (v : value) (values : list value)
    : result (list value) :=
  if hashable v then
    Ok (if existsb (py_same v) values then values else values ++ [v])%list
  else Raise TypeError.

(** [sorted(l)]: a stable ascending insertion sort that uses only [<]. *)
Fixpoint insert_sorted `{PyOrder} (x : value) (sorted : list value)
    : result (list value) :=
  match sorted with
  | [] => Ok [x]
  | y :: rest =>
      smaller <- py_lt y x ;;
      if smaller
      then (r <- insert_sorted x rest ;; Ok (y :: r))
      else Ok (x :: y :: rest)
  end.

Fixpoint py_sorted `{PyOrder} (l : list value) : result (list value) :=
  match l with
  | [] => Ok []
  | x :: l' => sorted <- py_sorted l' ;; insert_sorted x sorted
  end.

(** The loop of [get_unique_values]. *)
Fixpoint collect_values `{PyFloat} (startups : list dict) (field : string)
    (values : list value) : result (list value) :=
  match startups with
  | [] => Ok values
  | startup :: rest =>
      let value := get startup field (VStr EmptyString) in
      if truthy value
      then (values' <- set_add value values ;;
            collect_values rest field values')
      else collect_values rest field values
  end.

Definition get_unique_values `{PyFloat} `{PyOrder} (startups : list dict)
    (field : string) : result (list value) :=
  values <- collect_values startups field [] ;;
  py_sorted values.

(** The field is a string, [None] or missing. *)
Definition text_or_none (field : string) (d : dict) : Prop :=
  d !! field = None \/ d !! field = Some VNone
  \/ exists s, d !! field = Some (VStr s).

Definition add_name (s : string) (names : list string) : list string :=
  if existsb (String.eqb s) names then names else (names ++ [s])%list.

Fixpoint collect_names (startups : list dict) (field : string)
    (names : list string) : list string :=
  match startups with
  | [] => names
  | d :: rest =>
      match d !! field with
      | Some (VStr s) =>
          if String.eqb s EmptyString then collect_names rest field names
          else collect_names rest field (add_name s names)
      | _ => collect_names rest field names
      end
  end.

Fixpoint insert_name (x : string) (sorted : list string) : list string :=
  match sorted with
  | [] => [x]
  | y :: rest =>
      if String.ltb y x then y :: insert_name x rest else x :: y :: rest
  end.

Fixpoint sort_names (l : list string) : list string :=
  match l with
  | [] => []
  | x :: l' => insert_name x (sort_names l')
  end.

Definition strictly_before (a b : string) : Prop := String.ltb a b = true.

(** A record whose sector is a list of texts. *)
Definition listed_sector : dict :=
  <["sector" := VList [VStr "Energy"; VStr "Grid"]]> ∅.

(** ** perplexity_client.py *)
(** The attributes [__init__] sets. *)
Record PerplexityClient : Type := {
  api_key : string;
  base_url : string;
  model : string
}.

(** Whether an optional text is true: it is there and not empty. *)
Definition given (text : option string) : bool :=
  match text with
  | Some s => negb (String.eqb s EmptyString)
  | None => false
  end.

(** [PerplexityClient(api_key)].  [secret] is the outcome of
    [st.secrets["API"]["PERPLEXITY_API_KEY"]] and [getenv] that of
    [os.getenv('PERPLEXITY_API_KEY')]; keys are texts. *)
Definition PerplexityClient_init (key : option string) (secret : result string)
    (getenv : option string) : result PerplexityClient :=
  found <-
    (if given key then Ok key
     else match secret with
          | Ok k => Ok (Some k)
          | Raise KeyError | Raise AttributeError => Ok getenv
          | Raise e => Raise e
          end) ;;
  match found with
  | Some k =>
      if given found
      then Ok {| api_key := k;
                 base_url := "https://api.perplexity.ai/chat/completions";
                 model := "llama-3-sonar-large-32k" |}
      else Raise ValueError
  | None => Raise ValueError
  end.

Definition headers (self : PerplexityClient) : dict :=
  <["Authorization" := VStr ("Bearer " +:+ api_key self)]>
    (<["Content-Type" := VStr "application/json"]> ∅).

Definition payload (self : PerplexityClient) (prompt system_prompt : string)
    : dict :=
  <["model" := VStr (model self)]>
    (<["messages" :=
         VList [VDict (<["role" := VStr "system"]>
                         (<["content" := VStr system_prompt]> ∅));
                VDict (<["role" := VStr "user"]>
                         (<["content" := VStr prompt]> ∅))]]>
       (<["max_tokens" := VInt 4000]>
          (<["temperature" := VFloat "0.2"]>
             (<["stream" := VBool false]> ∅)))).

(** [key in v] for a text [key]: a key of a dictionary, an item of a
    list, a part of a string. *)
Definition py_in (key : string) (v : value) : result bool :=
  match v with
  | VDict d => Ok (bool_decide (is_Some (d !! key)))
  | VList l =>
      Ok (existsb (fun x => match x with
                            | VStr s => String.eqb s key
                            | _ => false
                            end) l)
  | VStr s => Ok (contains key s)
  | _ => Raise TypeError
  end.

(** [v[key]] for a text [key]. *)
Definition item (v : value) (key : string) : result value :=
  match v with
  | VDict d =>
      match d !! key with
      | Some x => Ok x
      | None => Raise KeyError
      end
  | _ => Raise TypeError
  end.

(** A byte that continues a character of more than one byte. *)
Definition is_continuation (c : ascii) : bool :=
  ((128 <=? code c) && (code c <? 192))%N.

Fixpoint continuation (s : string) : string :=
  match s with
  | String c rest =>
      if is_continuation c then String c (continuation rest) else EmptyString
  | EmptyString => EmptyString
  end.

(** [v[0]]: the first item of a list, the first character of a string;
    the keys of the dictionaries here are texts, so 0 is not among
    them. *)
Definition first_item (v : value) : result value :=
  match v with
  | VList (x :: _) => Ok x
  | VList [] => Raise (OtherException "IndexError")
  | VStr (String c rest) => Ok (VStr (String c (continuation rest)))
  | VStr EmptyString => Raise (OtherException "IndexError")
  | VDict _ => Raise KeyError
  | _ => Raise TypeError
  end.

(** What [ask] does with the decoded response. *)
Definition content_of_response `{PyFloat} (data : value) : result value :=
  found <- py_in "choices" data ;;
  if negb found then Raise ValueError
  else
    choices <- item data "choices" ;;
    if negb (truthy choices) then Raise ValueError
    else
      choices <- item data "choices" ;;
      first <- first_item choices ;;
      message <- item first "message" ;;
      item message "content".

(** [self.ask(prompt, system_prompt)].  [post url headers json] stands for
    [requests.post], [raise_for_status] and [response.json()] in a row: it
    gives the decoded response or the first exception of the three, an
    exception that is a [RequestException] being [RequestException]
    whatever else it is. *)
Definition ask `{PyFloat} (post : string -> dict -> dict -> result value)
    (self : PerplexityClient) (prompt system_prompt : string)
    : result value :=
  match (data <- post (base_url self) (headers self)
                   (payload self prompt system_prompt) ;;
         content_of_response data) with
  | Ok content => Ok content
  | Raise RequestException => Raise RequestException
  | Raise KeyError | Raise ValueError | Raise JSONDecodeError =>
      Raise ValueError
  | Raise e => Raise e
  end.

(** ** The client in use: main.py and app.py *)
(** [SaaSSignalMiner()]: the client, or [None] when it cannot be made. *)
Definition SaaSSignalMiner_init (secret : result string)
    (getenv : option string) : option PerplexityClient :=
  match PerplexityClient_init None secret getenv with
  | Ok client => Some client
  | Raise _ => None
  end.

(** [self.client.ask] as [scan_for_startups] calls it, with the default
    system prompt. *)
Definition asking `{PyFloat} (post : string -> dict -> dict -> result value)
    (client : option PerplexityClient) : option (string -> result value) :=
  (fun self query => ask post self query "You are a helpful assistant.")
  <$> client.

(** The body of [load_startup_data], as it runs when the cache has no
    answer. *)
Definition load_startup_data `{PyLimits} `{PyFloat} `{PyOrder}
    (clock : nat -> string)
    (secret : result string) (getenv : option string)
    (post : string -> dict -> dict -> result value) : M (list dict) :=
  try_except
    (let miner := SaaSSignalMiner_init secret getenv in
     startups <~ scan_for_startups clock (asking post miner) ;;
     ret startups)
    (fun e => format_startup_data clock get_fallback_data).

(** The content of a response of the expected shape: an object whose
    [choices] is a list that starts with an object whose [message] is an
    object with a [content]. *)
Definition content_of (data : value) : option value :=
  match data with
  | VDict d =>
      match d !! "choices" with
      | Some (VList (VDict choice :: _)) =>
          match choice !! "message" with
          | Some (VDict message) => message !! "content"
          | _ => None
          end
      | _ => None
      end
  | _ => None
  end.

(** A transport that answers every request with the same data. *)
Definition answering (data : value)
    : string -> dict -> dict -> result value :=
  fun url headers json => Ok data.

Definition acme_response : value :=
  VDict (<["choices" :=
            VList [VDict (<["message" :=
                             VDict (<["content" := VStr acme_json_text]> ∅)]>
                            ∅)]]> ∅).

Definition acme_client : PerplexityClient :=
  {| api_key := "pplx-key";
     base_url := "https://api.perplexity.ai/chat/completions";
     model := "llama-3-sonar-large-32k" |}.

(** A response that is an array with the word choices in it. *)
Definition array_response : value := VList [VStr "choices"].

(** The lookup of a secret that is not there. *)
Definition no_secret : result string := Raise KeyError.

(** What the parser makes of the record of [acme_json_text]. *)
Definition acme_record : dict :=
  startup_dict "Acme" "No description available" "Growth signals detected"
    "https://example.com" "Technology" "Early Stage" "News" 90.

(** *** Parts of a text *)

(** [piece] is a part of [text]. *)
Definition part_of (piece text : string) : Prop :=
  exists before after, text = before +:+ (piece +:+ after).

(** A reply that names no startup. *)
Definition refusal : string := "I cannot share any startups today.".

(** [rest] is what is left of [s] after some of its characters. *)
Definition tail_of (rest s : string) : Prop :=
  exists before, s = before +:+ rest.

(** The characters that open an array or an object. *)
Definition is_open (c : ascii) : bool := Ascii.eqb c "[" || Ascii.eqb c "{".

(** The digits of [s] are no more than an integer literal may have. *)
Definition digits_fit `{PyLimits} (s : string) : Prop :=
  match max_str_digits with
  | Some most => (count is_digit s <= most)%nat
  | None => True
  end.

(** Text that cannot take the decoder to the limits of the interpreter,
    however it is read: it has no more opening brackets and braces than
    [depth] and no more digits than an integer literal may have. *)
Definition fits `{PyLimits} (depth : nat) (s : string) : Prop :=
  (count is_open s <= depth)%nat /\ digits_fit s.

Definition within_limits `{PyLimits} (s : string) : Prop :=
  fits max_nesting s.

(** [n] times the character [c]. *)
Fixpoint repeated (c : ascii) (n : nat) : string :=
  match n with
  | O => EmptyString
  | S n' => String c (repeated c n')
  end.

(** An array that holds one integer of 4301 digits. *)
Definition long_integer_text : string :=
  String "[" (repeated "1" 4301 +:+ String "]" EmptyString).

(** An empty array inside a thousand arrays. *)
Definition deep_array_text : string :=
  repeated "[" 1001 +:+ repeated "]" 1001.

(** The field [k] of the record [r] is there and is not null. *)
Definition populated (r : dict) (k : string) : Prop :=
  exists v, r !! k = Some v /\ v <> VNone.

(** The mapping [d] supplies none of the seven text fields as null. *)
Definition no_null_text (d : dict) : Prop :=
  Forall (fun kd : string * string => d !! kd.1 <> Some VNone) text_defaults.

(** One mapping, whose name is null. *)
Definition null_named : list value := [VDict {["name" := VNone]}].

(** A mapping with a name and a score. *)
Definition named_scored (name : string) (score : Z) : value :=
  VDict (<["name" := VStr name]> {["score" := VInt score]}).

(** Five entries: two mappings of score 80 around one of score 90, an
    entry that is no mapping, and a mapping without name and score. *)
Definition tied_entries : list value :=
  [named_scored "A" 80; VInt 3; named_scored "B" 90; named_scored "C" 80;
   VDict ∅].

(** The names of the records of a formatter's result, in order. *)
Definition names_of (res : result (list dict) * nat) : list (option value) :=
  match res with
  | (Ok out, _) => (fun r : dict => r !! "name") <$> out
  | (Raise _, _) => []
  end.

(** Two mappings, the second with a null score. *)
Definition null_scored : list value :=
  [VDict {["score" := VInt 90]}; VDict {["score" := VNone]}].

(** A record whose score is negative, alone in a list object at address
    0. *)
Definition loss_record : dict :=
  startup_dict "Sinking Ship" "Paper ledgers for offices" "None"
    "https://example.com" "Technology" "Seed" "News" (-1).

Definition loss_heap : heap := <[0%nat := [loss_record]]> ∅.

(** A scanning outcome that, when it is a value, leaves less text than
    it was given. *)
Definition shorter {A} (x : scan A) (s : string) : Prop :=
  forall v r, x = Done v r -> (String.length r < String.length s)%nat.

(** * Facts about the decoder *)

Lemma skip_ws_le s : (String.length (skip_ws s) <= String.length s)%nat.
Proof. induction s as [|c s IH]; simpl; [lia|]. destruct (is_ws c); simpl; lia. Qed.

Lemma prefix_sdrop p s :
  String.prefix p s = true ->
  (String.length (sdrop (String.length p) s) + String.length p = String.length s)%nat.
Proof.
  revert s. induction p as [|c p IH]; intros s Hp; simpl.
  - destruct s; simpl; lia.
  - destruct s as [|d s]; simpl in *; [discriminate|].
    destruct (ascii_dec c d); [|discriminate].
    specialize (IH _ Hp). lia.
Qed.

Lemma span_le p s a b :
  span p s = (a, b) -> (String.length b <= String.length s)%nat.
Proof.
  revert a b. induction s as [|c s IH]; intros a b Hs; simpl in Hs.
  - inversion Hs; simpl; lia.
  - destruct (p c).
    + destruct (span p s) as [a' b'] eqn:E. inversion Hs; subst.
      specialize (IH _ _ eq_refl). simpl; lia.
    + inversion Hs; subst; simpl; lia.
Qed.

Lemma lex_integer_lt s i r :
  lex_integer s = Some (i, r) -> (String.length r < String.length s)%nat.
Proof.
  unfold lex_integer. intros Hl.
  assert (Hgen : forall sg s1, (String.length s1 <= String.length s)%nat ->
     match s1 with
     | String c r0 =>
        if Ascii.eqb c "0" then Some (sg +:+ "0", r0)
        else if is_nonzero_digit c then
          let '(ds, r') := span is_digit r0 in Some (sg +:+ String c ds, r')
        else None
     | EmptyString => None
     end = Some (i, r) -> (String.length r < String.length s)%nat).
  { intros sg s1 Hle Hm. destruct s1 as [|c r0]; [discriminate|]. simpl in Hle.
    destruct (Ascii.eqb c "0"); [inversion Hm; subst; lia|].
    destruct (is_nonzero_digit c); [|discriminate].
    destruct (span is_digit r0) as [ds r'] eqn:E. inversion Hm; subst.
    apply span_le in E. lia. }
  destruct s as [|c r0]; [discriminate|].
  destruct (Ascii.eqb c "-").
  - apply (Hgen "-" r0); [simpl; lia | exact Hl].
  - apply (Hgen EmptyString (String c r0)); [simpl; lia | exact Hl].
Qed.

Lemma lex_frac_le s f r :
  lex_frac s = (f, r) -> (String.length r <= String.length s)%nat.
Proof.
  unfold lex_frac. intros Hl. destruct s as [|c r0]; [inversion Hl; subst; simpl; lia|].
  destruct (Ascii.eqb c "."); [|inversion Hl; subst; simpl; lia].
  destruct (span is_digit r0) as [ds r'] eqn:E. apply span_le in E.
  destruct ds; inversion Hl; subst; simpl; lia.
Qed.

Lemma lex_exp_le s f r :
  lex_exp s = (f, r) -> (String.length r <= String.length s)%nat.
Proof.
  unfold lex_exp. intros Hl. destruct s as [|e r0]; [inversion Hl; subst; simpl; lia|].
  destruct (Ascii.eqb e "e" || Ascii.eqb e "E"); [|inversion Hl; subst; simpl; lia].
  destruct r0 as [|c r1].
  - simpl in Hl. inversion Hl; subst; simpl; lia.
  - destruct (Ascii.eqb c "-" || Ascii.eqb c "+").
    + destruct (span is_digit r1) as [ds r'] eqn:E. apply span_le in E.
      destruct ds; inversion Hl; subst; simpl; lia.
    + destruct (span is_digit (String c r1)) as [ds r'] eqn:E. apply span_le in E.
      simpl in E. destruct ds; inversion Hl; subst; simpl; lia.
Qed.

Lemma append_cons x a b : String x a +:+ b = String x (a +:+ b).
Proof. reflexivity. Qed.

Lemma append_assoc a b c : (a +:+ b) +:+ c = a +:+ (b +:+ c).
Proof.
  induction a as [|x a IH]; [reflexivity|].
  rewrite !append_cons. f_equal. exact IH.
Qed.

Section DecoderFacts.
Context `{PyLimits}.

Lemma lex_number_lt s v r :
  lex_number s = Some (v, r) -> (String.length r < String.length s)%nat.
Proof.
  unfold lex_number. intros Hl.
  destruct (lex_integer s) as [[i r1]|] eqn:Ei; [|discriminate].
  apply lex_integer_lt in Ei.
  destruct (lex_frac r1) as [f r2] eqn:Ef. apply lex_frac_le in Ef.
  destruct (lex_exp r2) as [e r3] eqn:Ee. apply lex_exp_le in Ee.
  destruct (f +:+ e); inversion Hl; subst; lia.
Qed.

Lemma scan_atom_lt s v r :
  scan_atom s = Some (v, r) -> (String.length r < String.length s)%nat.
Proof.
  unfold scan_atom. intros Hs.
  repeat match type of Hs with
  | context [if String.prefix ?p s then _ else _] =>
      let E := fresh "E" in
      destruct (String.prefix p s) eqn:E;
      [ apply prefix_sdrop in E; simpl in E; inversion Hs; subst; lia | ]
  | context [match lex_number s with _ => _ end] =>
      let E := fresh "E" in
      destruct (lex_number s) as [[v' r']|] eqn:E;
      [ apply lex_number_lt in E; inversion Hs; subst; lia | ]
  end.
  discriminate.
Qed.

Lemma py_scanstring_lt_aux n :
  forall s acc v r, (String.length s <= n)%nat ->
    py_scanstring s acc = Done v r -> (String.length r < String.length s)%nat.
Proof.
  induction n as [|n IH]; intros s acc v r Hn Hs.
  - destruct s; simpl in *; [discriminate | lia].
  - destruct s as [|c s1]; simpl in Hs; [discriminate|]. simpl in Hn.
    destruct (Ascii.eqb c dquote); [inversion Hs; subst; simpl; lia|].
    destruct (Ascii.eqb c "\").
    + destruct s1 as [|esc s2]; [discriminate|].
      destruct (Ascii.eqb esc "u").
      * destruct s2 as [|h1 [|h2 [|h3 [|h4 s3]]]]; try discriminate.
        destruct (hex4 h1 h2 h3 h4); [|discriminate].
        simpl in Hn.
        assert (Hsingle : forall a, py_scanstring s3 a = Done v r ->
                  (String.length r < S (S (S (S (S (S (String.length s3)))))))%nat).
        { intros a Ha. apply IH in Ha; lia. }
        destruct s3 as [|b [|u s4]]; try (eapply Hsingle; exact Hs).
        destruct (is_high_surrogate n0 && Ascii.eqb b "\" && Ascii.eqb u "u");
          [|eapply Hsingle; exact Hs].
        destruct s4 as [|g1 [|g2 [|g3 [|g4 s5]]]]; try discriminate.
        destruct (hex4 g1 g2 g3 g4); [|discriminate].
        destruct (is_low_surrogate n1); [|eapply Hsingle; exact Hs].
        apply IH in Hs; simpl in *; lia.
      * destruct (backslash esc); [|discriminate].
        apply IH in Hs; simpl in *; lia.
    + destruct (code c <? 32)%N; [discriminate|].
      apply IH in Hs; simpl; lia.
Qed.

Lemma py_scanstring_lt s acc v r :
  py_scanstring s acc = Done v r -> (String.length r < String.length s)%nat.
Proof. apply (py_scanstring_lt_aux (String.length s)); lia. Qed.

Lemma py_scanstring_fuel s acc : py_scanstring s acc <> Fuel.
Proof.
  remember (String.length s) as n eqn:Hn.
  assert (Hle : (String.length s <= n)%nat) by lia. clear Hn.
  revert s acc Hle. induction n as [|n IH]; intros s acc Hle.
  - destruct s; simpl in *; [discriminate | lia].
  - destruct s as [|c s1]; simpl; [discriminate|]. simpl in Hle.
    destruct (Ascii.eqb c dquote); [discriminate|].
    destruct (Ascii.eqb c "\").
    + destruct s1 as [|esc s2]; [discriminate|].
      destruct (Ascii.eqb esc "u").
      * destruct s2 as [|h1 [|h2 [|h3 [|h4 s3]]]]; try discriminate.
        destruct (hex4 h1 h2 h3 h4); [|discriminate].
        simpl in Hle.
        assert (Hsingle : forall a, py_scanstring s3 a <> Fuel) by (intros a; apply IH; lia).
        destruct s3 as [|b [|u s4]]; try apply Hsingle.
        destruct (is_high_surrogate n0 && Ascii.eqb b "\" && Ascii.eqb u "u");
          [|apply Hsingle].
        destruct s4 as [|g1 [|g2 [|g3 [|g4 s5]]]]; try discriminate.
        destruct (hex4 g1 g2 g3 g4); [|discriminate].
        destruct (is_low_surrogate n1); [|apply Hsingle].
        apply IH; simpl in *; lia.
      * destruct (backslash esc); [|discriminate].
        apply IH; simpl in *; lia.
    + destruct (code c <? 32)%N; [discriminate|].
      apply IH; lia.
Qed.

Lemma py_scanstring_abort s acc e : py_scanstring s acc <> Abort e.
Proof.
  remember (String.length s) as n eqn:Hn.
  assert (Hle : (String.length s <= n)%nat) by lia. clear Hn.
  revert s acc Hle. induction n as [|n IH]; intros s acc Hle.
  - destruct s; simpl in *; [discriminate | lia].
  - destruct s as [|c s1]; simpl; [discriminate|]. simpl in Hle.
    destruct (Ascii.eqb c dquote); [discriminate|].
    destruct (Ascii.eqb c "\").
    + destruct s1 as [|esc s2]; [discriminate|].
      destruct (Ascii.eqb esc "u").
      * destruct s2 as [|h1 [|h2 [|h3 [|h4 s3]]]]; try discriminate.
        destruct (hex4 h1 h2 h3 h4); [|discriminate].
        simpl in Hle.
        assert (Hsingle : forall a, py_scanstring s3 a <> Abort e)
          by (intros a; apply IH; lia).
        destruct s3 as [|b [|u s4]]; try apply Hsingle.
        destruct (is_high_surrogate n0 && Ascii.eqb b "\" && Ascii.eqb u "u");
          [|apply Hsingle].
        destruct s4 as [|g1 [|g2 [|g3 [|g4 s5]]]]; try discriminate.
        destruct (hex4 g1 g2 g3 g4); [|discriminate].
        destruct (is_low_surrogate n1); [|apply Hsingle].
        apply IH; simpl in *; lia.
      * destruct (backslash esc); [|discriminate].
        apply IH; simpl in *; lia.
    + destruct (code c <? 32)%N; [discriminate|].
      apply IH; lia.
Qed.

Lemma scan_progress n :
  (forall d s, shorter (scan_once n d s) s)
  /\ (forall d s acc, shorter (array_items n d s acc) s)
  /\ (forall d s pairs, shorter (object_items n d s pairs) s).
Proof.
  induction n as [|n (IHs & IHa & IHo)]; [repeat split; intros; intros v r Hd; discriminate|].
  assert (Hscan : forall d s, shorter (scan_once (S n) d s) s).
  { intros d s v r Hd. simpl in Hd. destruct s as [|c s1]; [discriminate|].
    destruct (Ascii.eqb c dquote).
    { destruct (py_scanstring s1 EmptyString) eqn:E; inversion Hd; subst.
      apply py_scanstring_lt in E. simpl; lia. }
    destruct (Ascii.eqb c "{").
    { destruct d as [|d]; [discriminate|].
      pose proof (skip_ws_le s1) as Hw.
      destruct (skip_ws s1) as [|c2 s2]; [discriminate|]. simpl in Hw.
      destruct (Ascii.eqb c2 "}"); [inversion Hd; subst; simpl; lia|].
      destruct (Ascii.eqb c2 dquote); [|discriminate].
      apply IHo in Hd. simpl; lia. }
    destruct (Ascii.eqb c "[").
    { destruct d as [|d]; [discriminate|].
      pose proof (skip_ws_le s1) as Hw.
      destruct (skip_ws s1) as [|c2 s2].
      - apply IHa in Hd. simpl in Hd. lia.
      - simpl in Hw. destruct (Ascii.eqb c2 "]"); [inversion Hd; subst; simpl; lia|].
        apply IHa in Hd. simpl in *; lia. }
    destruct (scan_atom (String c s1)) as [[[v'|e] r']|] eqn:E; try discriminate.
    inversion Hd; subst. apply scan_atom_lt in E. exact E. }
  split; [exact Hscan|]. split.
  - intros d s acc v r Hd. simpl in Hd.
    destruct (scan_once n d s) as [v1 rest| | |e] eqn:E; try discriminate.
    apply IHs in E. pose proof (skip_ws_le rest) as Hw.
    destruct (skip_ws rest) as [|c rest']; [discriminate|]. simpl in Hw.
    destruct (Ascii.eqb c "]"); [inversion Hd; subst; lia|].
    destruct (Ascii.eqb c ","); [|discriminate].
    apply IHa in Hd. pose proof (skip_ws_le rest'). lia.
  - intros d s pairs v r Hd. simpl in Hd.
    destruct (py_scanstring s EmptyString) as [key rest| | |e] eqn:E; try discriminate.
    apply py_scanstring_lt in E. pose proof (skip_ws_le rest) as Hw.
    destruct (skip_ws rest) as [|c1 rest1]; [discriminate|]. simpl in Hw.
    destruct (Ascii.eqb c1 ":"); [|discriminate].
    destruct (scan_once n d (skip_ws rest1)) as [v2 rest2| | |e] eqn:E2; try discriminate.
    apply IHs in E2. pose proof (skip_ws_le rest1) as Hw1.
    pose proof (skip_ws_le rest2) as Hw2.
    destruct (skip_ws rest2) as [|c3 rest3]; [discriminate|]. simpl in Hw2.
    destruct (Ascii.eqb c3 "}"); [inversion Hd; subst; lia|].
    destruct (Ascii.eqb c3 ","); [|discriminate].
    pose proof (skip_ws_le rest3) as Hw3.
    destruct (skip_ws rest3) as [|c4 rest4]; [discriminate|]. simpl in Hw3.
    destruct (Ascii.eqb c4 dquote); [|discriminate].
    apply IHo in Hd. lia.
Qed.

Lemma scan_fuel n :
  (forall d s, (2 * String.length s + 1 <= n)%nat -> scan_once n d s <> Fuel)
  /\ (forall d s acc, (2 * String.length s + 2 <= n)%nat ->
        array_items n d s acc <> Fuel)
  /\ (forall d s pairs, (2 * String.length s + 1 <= n)%nat ->
        object_items n d s pairs <> Fuel).
Proof.
  induction n as [|n (IHs & IHa & IHo)]; [repeat split; intros; lia|].
  destruct (scan_progress n) as (Ps & Pa & Po).
  repeat split.
  - intros d s Hn. simpl. destruct s as [|c s1]; [discriminate|]. simpl in Hn.
    destruct (Ascii.eqb c dquote).
    { pose proof (py_scanstring_fuel s1 EmptyString).
      destruct (py_scanstring s1 EmptyString); congruence. }
    destruct (Ascii.eqb c "{").
    { destruct d as [|d]; [discriminate|].
      pose proof (skip_ws_le s1) as Hw.
      destruct (skip_ws s1) as [|c2 s2]; [discriminate|]. simpl in Hw.
      destruct (Ascii.eqb c2 "}"); [discriminate|].
      destruct (Ascii.eqb c2 dquote); [|discriminate].
      apply IHo. lia. }
    destruct (Ascii.eqb c "[").
    { destruct d as [|d]; [discriminate|].
      pose proof (skip_ws_le s1) as Hw.
      destruct (skip_ws s1) as [|c2 s2].
      - apply IHa. simpl. lia.
      - simpl in Hw. destruct (Ascii.eqb c2 "]"); [discriminate|].
        apply IHa. simpl. lia. }
    destruct (scan_atom (String c s1)) as [[[v'|e] r']|]; discriminate.
  - intros d s acc Hn. simpl.
    pose proof (IHs d s ltac:(lia)) as Hf.
    destruct (scan_once n d s) as [v1 rest| | |e] eqn:E; try congruence.
    apply Ps in E. pose proof (skip_ws_le rest) as Hw.
    destruct (skip_ws rest) as [|c rest']; [discriminate|]. simpl in Hw.
    destruct (Ascii.eqb c "]"); [discriminate|].
    destruct (Ascii.eqb c ","); [|discriminate].
    apply IHa. pose proof (skip_ws_le rest'). lia.
  - intros d s pairs Hn. simpl.
    pose proof (py_scanstring_fuel s EmptyString) as Hf.
    destruct (py_scanstring s EmptyString) as [key rest| | |e] eqn:E; try congruence.
    apply py_scanstring_lt in E. pose proof (skip_ws_le rest) as Hw.
    destruct (skip_ws rest) as [|c1 rest1]; [discriminate|]. simpl in Hw.
    destruct (Ascii.eqb c1 ":"); [|discriminate].
    pose proof (skip_ws_le rest1) as Hw1.
    pose proof (IHs d (skip_ws rest1) ltac:(lia)) as Hf2.
    destruct (scan_once n d (skip_ws rest1)) as [v2 rest2| | |e] eqn:E2; try congruence.
    apply Ps in E2.
    pose proof (skip_ws_le rest2) as Hw2.
    destruct (skip_ws rest2) as [|c3 rest3]; [discriminate|]. simpl in Hw2.
    destruct (Ascii.eqb c3 "}"); [discriminate|].
    destruct (Ascii.eqb c3 ","); [|discriminate].
    pose proof (skip_ws_le rest3) as Hw3.
    destruct (skip_ws rest3) as [|c4 rest4]; [discriminate|]. simpl in Hw3.
    destruct (Ascii.eqb c4 dquote); [|discriminate].
    apply IHo. lia.
Qed.

(** The decoder never runs out of the budget of the model. *)
Lemma loads_fuel s : decode (2 * String.length s + 1) s <> Fuel.
Proof.
  unfold decode. destruct (String.prefix bom s); [discriminate|].
  pose proof (proj1 (scan_fuel (2 * String.length s + 1))
                max_nesting (skip_ws s)) as Hf.
  pose proof (skip_ws_le s) as Hw.
  destruct (scan_once _ _ (skip_ws s)) as [v rest| | |e]; try discriminate.
  - destruct (skip_ws rest); discriminate.
  - intros _. apply Hf; [lia | reflexivity].
Qed.

Lemma py_int_raises lexeme e : py_int lexeme = Raise e -> e = ValueError.
Proof.
  unfold py_int. destruct max_str_digits as [most|]; [|discriminate].
  destruct (count is_digit lexeme <=? most)%nat; [discriminate|].
  by intros [= <-].
Qed.

Lemma scan_atom_raises s e r :
  scan_atom s = Some (Raise e, r) -> e = ValueError.
Proof.
  unfold scan_atom, lex_number. intros Hs.
  repeat match type of Hs with
  | context [if String.prefix ?p s then _ else _] =>
      destruct (String.prefix p s); [discriminate|]
  end.
  destruct (lex_integer s) as [[i r1]|].
  - destruct (lex_frac r1) as [f r2]. destruct (lex_exp r2) as [x r3].
    destruct (f +:+ x); [|discriminate].
    destruct (py_int i) as [z|e'] eqn:Hi; [discriminate|].
    cbn [rbind] in Hs. injection Hs as <- _. by apply py_int_raises with i.
  - repeat match type of Hs with
    | context [if String.prefix ?p s then _ else _] =>
        destruct (String.prefix p s); [discriminate|]
    end.
    discriminate.
Qed.

(** The exceptions of the decoder other than the decode error. *)
Lemma scan_abort n :
  (forall d s e, scan_once n d s = Abort e ->
     e = RecursionError \/ e = ValueError)
  /\ (forall d s acc e, array_items n d s acc = Abort e ->
        e = RecursionError \/ e = ValueError)
  /\ (forall d s pairs e, object_items n d s pairs = Abort e ->
        e = RecursionError \/ e = ValueError).
Proof.
  induction n as [|n (IHs & IHa & IHo)]; [repeat split; intros; discriminate|].
  repeat split.
  - intros d s e Hd. simpl in Hd. destruct s as [|c s1]; [discriminate|].
    destruct (Ascii.eqb c dquote).
    { pose proof (py_scanstring_abort s1 EmptyString e) as Hp.
      destruct (py_scanstring s1 EmptyString); congruence. }
    destruct (Ascii.eqb c "{").
    { destruct d as [|d]; [injection Hd as <-; by left|].
      destruct (skip_ws s1) as [|c2 s2]; [discriminate|].
      destruct (Ascii.eqb c2 "}"); [discriminate|].
      destruct (Ascii.eqb c2 dquote); [|discriminate].
      by apply IHo in Hd. }
    destruct (Ascii.eqb c "[").
    { destruct d as [|d]; [injection Hd as <-; by left|].
      destruct (skip_ws s1) as [|c2 s2]; [by apply IHa in Hd|].
      destruct (Ascii.eqb c2 "]"); [discriminate|].
      by apply IHa in Hd. }
    destruct (scan_atom (String c s1)) as [[[v'|e'] r']|] eqn:E;
      try discriminate.
    injection Hd as <-. right. by apply scan_atom_raises in E.
  - intros d s acc e Hd. simpl in Hd.
    destruct (scan_once n d s) as [v1 rest| | |e1] eqn:E; try discriminate.
    + destruct (skip_ws rest) as [|c rest']; [discriminate|].
      destruct (Ascii.eqb c "]"); [discriminate|].
      destruct (Ascii.eqb c ","); [|discriminate].
      by apply IHa in Hd.
    + injection Hd as <-. by apply IHs in E.
  - intros d s pairs e Hd. simpl in Hd.
    pose proof (py_scanstring_abort s EmptyString e) as Hp.
    destruct (py_scanstring s EmptyString) as [key rest| | |e1] eqn:E;
      try congruence.
    destruct (skip_ws rest) as [|c1 rest1]; [discriminate|].
    destruct (Ascii.eqb c1 ":"); [|discriminate].
    destruct (scan_once n d (skip_ws rest1)) as [v2 rest2| | |e2] eqn:E2;
      try discriminate.
    + destruct (skip_ws rest2) as [|c3 rest3]; [discriminate|].
      destruct (Ascii.eqb c3 "}"); [discriminate|].
      destruct (Ascii.eqb c3 ","); [|discriminate].
      destruct (skip_ws rest3) as [|c4 rest4]; [discriminate|].
      destruct (Ascii.eqb c4 dquote); [|discriminate].
      by apply IHo in Hd.
    + injection Hd as <-. by apply IHs in E2.
Qed.

(** [json.loads] returns a value or raises [JSONDecodeError],
    [RecursionError] or [ValueError]. *)
Lemma loads_outcomes s :
  (exists v, json_loads s = Ok v)
  \/ json_loads s = Raise JSONDecodeError
  \/ json_loads s = Raise RecursionError
  \/ json_loads s = Raise ValueError.
Proof.
  unfold json_loads. pose proof (loads_fuel s) as Hf.
  destruct (decode _ s) as [v rest| | |e] eqn:Hd; [eauto|auto|congruence|].
  unfold decode in Hd. destruct (String.prefix bom s); [discriminate|].
  destruct (scan_once _ _ (skip_ws s)) as [v rest| | |e'] eqn:Hs;
    try discriminate.
  - destruct (skip_ws rest); discriminate.
  - injection Hd as <-.
    apply (proj1 (scan_abort _)) in Hs. destruct Hs as [->| ->]; auto.
Qed.

(** ** What is left of the text *)

Lemma tail_refl s : tail_of s s.
Proof. by exists EmptyString. Qed.

Lemma tail_cons c r s : tail_of r s -> tail_of r (String c s).
Proof. intros [before ->]. by exists (String c before). Qed.

Lemma tail_trans r s t : tail_of r s -> tail_of s t -> tail_of r t.
Proof.
  intros [a ->] [b ->]. exists (b +:+ a). by rewrite append_assoc.
Qed.

Lemma tail_append a b : tail_of b (a +:+ b).
Proof. by exists a. Qed.

Lemma count_append p a b :
  count p (a +:+ b) = (count p a + count p b)%nat.
Proof.
  induction a as [|x a IH]; [reflexivity|].
  rewrite append_cons. cbn [count]. rewrite IH. lia.
Qed.

Lemma tail_count p r s : tail_of r s -> (count p r <= count p s)%nat.
Proof. intros [before ->]. rewrite count_append. lia. Qed.

Lemma fits_tail d r s : tail_of r s -> fits d s -> fits d r.
Proof.
  intros Ht [Ho Hd]. split.
  - pose proof (tail_count is_open r s Ht). lia.
  - unfold digits_fit in *. destruct max_str_digits as [most|]; [|exact I].
    pose proof (tail_count is_digit r s Ht). lia.
Qed.

Lemma skip_ws_tail s : tail_of (skip_ws s) s.
Proof.
  induction s as [|c s IH]; [apply tail_refl|]. cbn [skip_ws].
  destruct (is_ws c); [by apply tail_cons | apply tail_refl].
Qed.

Lemma sdrop_tail n : forall s, tail_of (sdrop n s) s.
Proof.
  induction n as [|n IH]; intros [|c s]; cbn [sdrop]; try apply tail_refl.
  apply tail_cons, IH.
Qed.

Lemma span_split p s a b : span p s = (a, b) -> s = a +:+ b.
Proof.
  revert a b. induction s as [|c s IH]; intros a b Hs; cbn [span] in Hs.
  - by injection Hs as <- <-.
  - destruct (p c).
    + destruct (span p s) as [a' b'] eqn:E. injection Hs as <- <-.
      rewrite append_cons. f_equal. by apply IH.
    + by injection Hs as <- <-.
Qed.

Lemma lex_integer_split s i r : lex_integer s = Some (i, r) -> s = i +:+ r.
Proof.
  unfold lex_integer. intros Hl.
  assert (Hgen : forall sg s1,
     match s1 with
     | String c r0 =>
        if Ascii.eqb c "0" then Some (sg +:+ "0", r0)
        else if is_nonzero_digit c then
          let '(ds, r') := span is_digit r0 in Some (sg +:+ String c ds, r')
        else None
     | EmptyString => None
     end = Some (i, r) -> sg +:+ s1 = i +:+ r).
  { intros sg s1 Hm. destruct s1 as [|c r0]; [discriminate|].
    destruct (Ascii.eqb_spec c "0") as [->|_].
    - injection Hm as <- <-. by rewrite append_assoc.
    - destruct (is_nonzero_digit c); [|discriminate].
      destruct (span is_digit r0) as [ds r'] eqn:E. injection Hm as <- <-.
      apply span_split in E. subst r0.
      by rewrite append_assoc, append_cons. }
  destruct s as [|c r0]; [discriminate|].
  destruct (Ascii.eqb_spec c "-") as [->|_].
  - by apply (Hgen "-" r0).
  - by apply (Hgen EmptyString (String c r0)).
Qed.

Lemma lex_frac_tail s f r : lex_frac s = (f, r) -> tail_of r s.
Proof.
  unfold lex_frac. intros Hl.
  destruct s as [|c r0]; [injection Hl as <- <-; apply tail_refl|].
  destruct (Ascii.eqb c "."); [|injection Hl as <- <-; apply tail_refl].
  destruct (span is_digit r0) as [ds r'] eqn:E. apply span_split in E.
  destruct ds; injection Hl as <- <-; [apply tail_refl|].
  subst r0. apply tail_cons, tail_append.
Qed.

Lemma lex_exp_tail s f r : lex_exp s = (f, r) -> tail_of r s.
Proof.
  unfold lex_exp. intros Hl.
  destruct s as [|e r0]; [injection Hl as <- <-; apply tail_refl|].
  destruct (Ascii.eqb e "e" || Ascii.eqb e "E");
    [|injection Hl as <- <-; apply tail_refl].
  destruct r0 as [|c r1].
  - cbn in Hl. injection Hl as <- <-. apply tail_refl.
  - destruct (Ascii.eqb c "-" || Ascii.eqb c "+").
    + destruct (span is_digit r1) as [ds r'] eqn:E. apply span_split in E.
      destruct ds; injection Hl as <- <-; [apply tail_refl|].
      subst r1. apply tail_cons, tail_cons, tail_append.
    + destruct (span is_digit (String c r1)) as [ds r'] eqn:E.
      apply span_split in E.
      destruct ds; injection Hl as <- <-; [apply tail_refl|].
      rewrite E. apply tail_cons, tail_append.
Qed.

Lemma lex_number_tail s v r : lex_number s = Some (v, r) -> tail_of r s.
Proof.
  unfold lex_number. intros Hl.
  destruct (lex_integer s) as [[i r1]|] eqn:Ei; [|discriminate].
  apply lex_integer_split in Ei.
  destruct (lex_frac r1) as [f r2] eqn:Ef. apply lex_frac_tail in Ef.
  destruct (lex_exp r2) as [e r3] eqn:Ee. apply lex_exp_tail in Ee.
  assert (Ht : tail_of r3 s).
  { apply tail_trans with r2; [exact Ee|]. apply tail_trans with r1; [exact Ef|].
    rewrite Ei. apply tail_append. }
  destruct (f +:+ e); injection Hl as _ <-; exact Ht.
Qed.

Lemma scan_atom_tail s v r : scan_atom s = Some (v, r) -> tail_of r s.
Proof.
  unfold scan_atom. intros Hs.
  repeat match type of Hs with
  | context [if String.prefix ?p s then Some (_, ?t) else _] =>
      destruct (String.prefix p s);
      [ injection Hs as _ <-; change (tail_of t s); apply sdrop_tail | ]
  | context [match lex_number s with _ => _ end] =>
      let E := fresh "E" in
      destruct (lex_number s) as [[v' r']|] eqn:E;
      [ apply lex_number_tail in E; injection Hs as _ <-; exact E | ]
  end.
  discriminate Hs.
Qed.

Lemma py_scanstring_tail_aux n :
  forall s acc v r, (String.length s <= n)%nat ->
    py_scanstring s acc = Done v r -> tail_of r s.
Proof.
  induction n as [|n IH]; intros s acc v r Hn Hs.
  - destruct s; simpl in *; [discriminate | lia].
  - destruct s as [|c s1]; simpl in Hs; [discriminate|]. simpl in Hn.
    destruct (Ascii.eqb c dquote);
      [injection Hs as _ <-; apply tail_cons, tail_refl|].
    destruct (Ascii.eqb c "\").
    + destruct s1 as [|esc s2]; [discriminate|].
      destruct (Ascii.eqb esc "u").
      * destruct s2 as [|h1 [|h2 [|h3 [|h4 s3]]]]; try discriminate.
        destruct (hex4 h1 h2 h3 h4); [|discriminate].
        simpl in Hn.
        assert (Hsingle : forall a, py_scanstring s3 a = Done v r ->
                  tail_of r (String c (String esc (String h1 (String h2
                               (String h3 (String h4 s3))))))).
        { intros a Ha. apply IH in Ha; [|lia]. by repeat apply tail_cons. }
        destruct s3 as [|b [|u s4]]; try (eapply Hsingle; exact Hs).
        destruct (is_high_surrogate n0 && Ascii.eqb b "\" && Ascii.eqb u "u");
          [|eapply Hsingle; exact Hs].
        destruct s4 as [|g1 [|g2 [|g3 [|g4 s5]]]]; try discriminate.
        destruct (hex4 g1 g2 g3 g4); [|discriminate].
        destruct (is_low_surrogate n1); [|eapply Hsingle; exact Hs].
        apply IH in Hs; [|simpl in *; lia]. by repeat apply tail_cons.
      * destruct (backslash esc); [|discriminate].
        apply IH in Hs; [|simpl in *; lia]. by repeat apply tail_cons.
    + destruct (code c <? 32)%N; [discriminate|].
      apply IH in Hs; [|lia]. by apply tail_cons.
Qed.

Lemma py_scanstring_tail s acc v r :
  py_scanstring s acc = Done v r -> tail_of r s.
Proof. apply (py_scanstring_tail_aux (String.length s)); lia. Qed.

Lemma scan_tail n :
  (forall d s v r, scan_once n d s = Done v r -> tail_of r s)
  /\ (forall d s acc v r, array_items n d s acc = Done v r -> tail_of r s)
  /\ (forall d s pairs v r,
        object_items n d s pairs = Done v r -> tail_of r s).
Proof.
  induction n as [|n (IHs & IHa & IHo)]; [repeat split; intros; discriminate|].
  repeat split.
  - intros d s v r Hd. simpl in Hd. destruct s as [|c s1]; [discriminate|].
    destruct (Ascii.eqb c dquote).
    { destruct (py_scanstring s1 EmptyString) eqn:E; try discriminate.
      injection Hd as _ <-. apply py_scanstring_tail in E. by apply tail_cons. }
    destruct (Ascii.eqb c "{").
    { destruct d as [|d]; [discriminate|].
      pose proof (skip_ws_tail s1) as Hw.
      destruct (skip_ws s1) as [|c2 s2]; [discriminate|].
      apply tail_cons. apply tail_trans with (String c2 s2); [|exact Hw].
      apply tail_cons.
      destruct (Ascii.eqb c2 "}"); [injection Hd as _ <-; apply tail_refl|].
      destruct (Ascii.eqb c2 dquote); [|discriminate].
      by apply IHo in Hd. }
    destruct (Ascii.eqb c "[").
    { destruct d as [|d]; [discriminate|].
      pose proof (skip_ws_tail s1) as Hw. apply tail_cons.
      destruct (skip_ws s1) as [|c2 s2].
      - apply IHa in Hd. by apply tail_trans with EmptyString.
      - apply tail_trans with (String c2 s2); [|exact Hw].
        destruct (Ascii.eqb c2 "]");
          [injection Hd as _ <-; apply tail_cons, tail_refl|].
        by apply IHa in Hd. }
    destruct (scan_atom (String c s1)) as [[[v'|e] r']|] eqn:E;
      try discriminate.
    injection Hd as _ <-. by apply scan_atom_tail in E.
  - intros d s acc v r Hd. simpl in Hd.
    destruct (scan_once n d s) as [v1 rest| | |e] eqn:E; try discriminate.
    apply IHs in E. pose proof (skip_ws_tail rest) as Hw.
    apply tail_trans with rest; [|exact E].
    destruct (skip_ws rest) as [|c rest']; [discriminate|].
    apply tail_trans with (String c rest'); [|exact Hw]. apply tail_cons.
    destruct (Ascii.eqb c "]"); [injection Hd as _ <-; apply tail_refl|].
    destruct (Ascii.eqb c ","); [|discriminate].
    apply IHa in Hd. apply tail_trans with (skip_ws rest'); [exact Hd|].
    apply skip_ws_tail.
  - intros d s pairs v r Hd. simpl in Hd.
    destruct (py_scanstring s EmptyString) as [key rest| | |e] eqn:E;
      try discriminate.
    apply py_scanstring_tail in E. apply tail_trans with rest; [|exact E].
    pose proof (skip_ws_tail rest) as Hw.
    destruct (skip_ws rest) as [|c1 rest1]; [discriminate|].
    apply tail_trans with (String c1 rest1); [|exact Hw]. apply tail_cons.
    destruct (Ascii.eqb c1 ":"); [|discriminate].
    destruct (scan_once n d (skip_ws rest1)) as [v2 rest2| | |e] eqn:E2;
      try discriminate.
    apply IHs in E2.
    apply tail_trans with (skip_ws rest1); [|apply skip_ws_tail].
    apply tail_trans with rest2; [|exact E2].
    pose proof (skip_ws_tail rest2) as Hw2.
    destruct (skip_ws rest2) as [|c3 rest3]; [discriminate|].
    apply tail_trans with (String c3 rest3); [|exact Hw2]. apply tail_cons.
    destruct (Ascii.eqb c3 "}"); [injection Hd as _ <-; apply tail_refl|].
    destruct (Ascii.eqb c3 ","); [|discriminate].
    pose proof (skip_ws_tail rest3) as Hw3.
    destruct (skip_ws rest3) as [|c4 rest4]; [discriminate|].
    apply tail_trans with (String c4 rest4); [|exact Hw3]. apply tail_cons.
    destruct (Ascii.eqb c4 dquote); [|discriminate].
    by apply IHo in Hd.
Qed.

(** ** Text within the limits *)

Lemma py_int_fits lexeme :
  digits_fit lexeme -> py_int lexeme = Ok (parse_int lexeme).
Proof.
  unfold digits_fit, py_int. destruct max_str_digits as [most|]; [|done].
  intros Hd. by destruct (Nat.leb_spec (count is_digit lexeme) most); [|lia].
Qed.

Lemma scan_atom_fits d s e r : fits d s -> scan_atom s <> Some (Raise e, r).
Proof.
  intros Hf Hs. unfold scan_atom, lex_number in Hs.
  repeat match type of Hs with
  | context [if String.prefix ?p s then _ else _] =>
      destruct (String.prefix p s); [discriminate Hs|]
  end.
  destruct (lex_integer s) as [[i r1]|] eqn:Ei.
  - destruct (lex_frac r1) as [f r2]. destruct (lex_exp r2) as [x r3].
    destruct (f +:+ x); [|discriminate Hs].
    rewrite py_int_fits in Hs; [discriminate Hs|].
    apply lex_integer_split in Ei. destruct Hf as [_ Hd].
    unfold digits_fit in *. destruct max_str_digits as [most|]; [|exact I].
    rewrite Ei, count_append in Hd. lia.
  - repeat match type of Hs with
    | context [if String.prefix ?p s then _ else _] =>
        destruct (String.prefix p s); [discriminate Hs|]
    end.
    discriminate Hs.
Qed.

Lemma fits_open d c s :
  is_open c = true -> fits d (String c s) -> exists d', d = S d' /\ fits d' s.
Proof.
  intros Hc [Ho Hd]. cbn [count] in Ho. rewrite Hc in Ho.
  destruct d as [|d']; [lia|]. exists d'. split; [reflexivity|].
  split; [lia|]. unfold digits_fit in *.
  destruct max_str_digits as [most|]; [|exact I]. cbn [count] in Hd. lia.
Qed.

Lemma fits_more d s : fits d s -> fits (S d) s.
Proof. intros [Ho Hd]. split; [lia|exact Hd]. Qed.

(** Text within the limits never takes the decoder to them. *)
Lemma scan_within n :
  (forall d s e, fits d s -> scan_once n d s <> Abort e)
  /\ (forall d s acc e, fits d s -> array_items n d s acc <> Abort e)
  /\ (forall d s pairs e, fits d s -> object_items n d s pairs <> Abort e).
Proof.
  induction n as [|n (IHs & IHa & IHo)]; [repeat split; intros; discriminate|].
  destruct (scan_tail n) as (Ts & Ta & To).
  repeat split.
  - intros d s e Hf. simpl. destruct s as [|c s1]; [discriminate|].
    destruct (Ascii.eqb c dquote).
    { pose proof (py_scanstring_abort s1 EmptyString e).
      destruct (py_scanstring s1 EmptyString); congruence. }
    destruct (Ascii.eqb c "{") eqn:Eb.
    { destruct (fits_open d c s1) as (d' & -> & Hf'); [|exact Hf|].
      { unfold is_open. rewrite Eb. apply orb_true_r. }
      pose proof (skip_ws_tail s1) as Hw.
      destruct (skip_ws s1) as [|c2 s2]; [discriminate|].
      destruct (Ascii.eqb c2 "}"); [discriminate|].
      destruct (Ascii.eqb c2 dquote); [|discriminate].
      apply IHo. apply fits_tail with s1; [|exact Hf'].
      apply tail_trans with (String c2 s2); [apply tail_cons, tail_refl|exact Hw]. }
    destruct (Ascii.eqb c "[") eqn:Ek.
    { destruct (fits_open d c s1) as (d' & -> & Hf'); [|exact Hf|].
      { unfold is_open. by rewrite Ek. }
      pose proof (skip_ws_tail s1) as Hw.
      destruct (skip_ws s1) as [|c2 s2].
      - apply IHa. by apply fits_tail with s1.
      - destruct (Ascii.eqb c2 "]"); [discriminate|].
        apply IHa. by apply fits_tail with s1. }
    pose proof (scan_atom_fits d (String c s1)) as Ha.
    destruct (scan_atom (String c s1)) as [[[v'|e'] r']|]; try discriminate.
    exfalso. by apply (Ha e' r').
  - intros d s acc e Hf. simpl.
    pose proof (IHs d s e Hf) as Hn.
    destruct (scan_once n d s) as [v1 rest| | |e1] eqn:E; try discriminate.
    + apply Ts in E. pose proof (skip_ws_tail rest) as Hw.
      destruct (skip_ws rest) as [|c rest'] eqn:Er; [discriminate|].
      destruct (Ascii.eqb c "]"); [discriminate|].
      destruct (Ascii.eqb c ","); [|discriminate].
      apply IHa. apply fits_tail with s; [|exact Hf].
      apply tail_trans with rest'; [apply skip_ws_tail|].
      apply tail_trans with (String c rest'); [apply tail_cons, tail_refl|].
      by apply tail_trans with rest.
    + intros [= <-]. apply (IHs d s e1 Hf). exact E.
  - intros d s pairs e Hf. simpl.
    pose proof (py_scanstring_abort s EmptyString e) as Hp.
    destruct (py_scanstring s EmptyString) as [key rest| | |e1] eqn:E;
      try congruence.
    apply py_scanstring_tail in E. pose proof (skip_ws_tail rest) as Hw.
    destruct (skip_ws rest) as [|c1 rest1]; [discriminate|].
    destruct (Ascii.eqb c1 ":"); [|discriminate].
    assert (Ht1 : tail_of (skip_ws rest1) s).
    { apply tail_trans with rest1; [apply skip_ws_tail|].
      apply tail_trans with (String c1 rest1); [apply tail_cons, tail_refl|].
      by apply tail_trans with rest. }
    destruct (scan_once n d (skip_ws rest1)) as [v2 rest2| | |e2] eqn:E2;
      try discriminate.
    + apply Ts in E2. pose proof (skip_ws_tail rest2) as Hw2.
      destruct (skip_ws rest2) as [|c3 rest3]; [discriminate|].
      destruct (Ascii.eqb c3 "}"); [discriminate|].
      destruct (Ascii.eqb c3 ","); [|discriminate].
      pose proof (skip_ws_tail rest3) as Hw3.
      destruct (skip_ws rest3) as [|c4 rest4]; [discriminate|].
      destruct (Ascii.eqb c4 dquote); [|discriminate].
      apply IHo. apply fits_tail with s; [|exact Hf].
      apply tail_trans with (String c4 rest4); [apply tail_cons, tail_refl|].
      apply tail_trans with rest3; [exact Hw3|].
      apply tail_trans with (String c3 rest3); [apply tail_cons, tail_refl|].
      apply tail_trans with rest2; [exact Hw2|].
      by apply tail_trans with (skip_ws rest1).
    + intros [= <-]. apply (IHs d (skip_ws rest1) e2); [|exact E2].
      by apply fits_tail with s.
Qed.

(** Within the limits, [json.loads] returns a value or raises
    [JSONDecodeError]. *)
Lemma loads_within s :
  within_limits s ->
  (exists v, json_loads s = Ok v) \/ json_loads s = Raise JSONDecodeError.
Proof.
  intros Hf. unfold json_loads. pose proof (loads_fuel s) as Hn.
  destruct (decode _ s) as [v rest| | |e] eqn:Hd; [eauto|auto|congruence|].
  exfalso. unfold decode in Hd.
  destruct (String.prefix bom s); [discriminate|].
  destruct (scan_once _ _ (skip_ws s)) as [v rest| | |e'] eqn:Hs;
    try discriminate.
  - destruct (skip_ws rest); discriminate.
  - apply (proj1 (scan_within (2 * String.length s + 1)) max_nesting
             (skip_ws s) e'); [|exact Hs].
    apply fits_tail with s; [apply skip_ws_tail|exact Hf].
Qed.

Lemma array_items_list n : forall d s acc v r,
  array_items n d s acc = Done v r -> exists l, v = VList l.
Proof.
  induction n as [|n IH]; intros d s acc v r Hd; simpl in Hd; [discriminate|].
  destruct (scan_once n d s) as [v1 rest| | |e]; try discriminate.
  destruct (skip_ws rest) as [|c rest']; [discriminate|].
  destruct (Ascii.eqb c "]"); [inversion Hd; eexists; reflexivity|].
  destruct (Ascii.eqb c ","); [|discriminate].
  eapply IH; exact Hd.
Qed.

(** Text that opens with a bracket decodes to a list, if it decodes. *)
Lemma loads_bracket_list s v :
  json_loads (String "[" s) = Ok v -> exists l, v = VList l.
Proof.
  unfold json_loads, decode.
  replace (String.prefix bom (String "[" s)) with false by reflexivity.
  replace (skip_ws (String "[" s)) with (String "[" s) by reflexivity.
  set (n := (2 * String.length (String "[" s) + 1)%nat).
  destruct n as [|n]; [discriminate|].
  simpl scan_once.
  replace (Ascii.eqb "[" dquote) with false by reflexivity.
  replace (Ascii.eqb "[" "{") with false by reflexivity.
  replace (Ascii.eqb "[" "[") with true by reflexivity.
  intros Hd. destruct max_nesting as [|d]; [discriminate|].
  destruct (skip_ws s) as [|c2 s2].
  - destruct (array_items n d EmptyString []) as [v1 r1| | |e] eqn:E;
      try discriminate.
    apply array_items_list in E. destruct E as [l ->].
    destruct (skip_ws r1); inversion Hd; subst; eexists; reflexivity.
  - destruct (Ascii.eqb c2 "]").
    + destruct (skip_ws s2); inversion Hd; subst; eexists; reflexivity.
    + destruct (array_items n d (String c2 s2) []) as [v1 r1| | |e] eqn:E;
        try discriminate.
      apply array_items_list in E. destruct E as [l ->].
      destruct (skip_ws r1); inversion Hd; subst; eexists; reflexivity.
Qed.

End DecoderFacts.

(** * Facts about the patterns *)

Lemma star_suffix {A} p s (k : string -> option A) x :
  star p s k = Some x ->
  exists rest, k rest = Some x /\ (String.length rest <= String.length s)%nat.
Proof.
  induction s as [|c s IH]; simpl; intros Hs.
  - exists EmptyString; split; [exact Hs | simpl; lia].
  - destruct (p c).
    + destruct (star p s k) as [y|] eqn:E; simpl in Hs.
      * destruct (IH Hs) as (rest & Hk & Hl). exists rest.
        split; [exact Hk | lia].
      * exists (String c s). split; [exact Hs | simpl; lia].
    + exists (String c s). split; [exact Hs | simpl; lia].
Qed.

Lemma search_here r : forall s m,
  search r s = Some m -> exists s' rest, match_here r s' = Some (rest, m).
Proof.
  induction s as [|c s IH]; intros m Hs; simpl in Hs.
  - destruct (match_here r EmptyString) as [[rest m']|] eqn:E; [|discriminate].
    inversion Hs; subst. eauto.
  - destruct (match_here r (String c s)) as [[rest m']|] eqn:E.
    + inversion Hs; subst. eauto.
    + eauto.
Qed.

(** What [json_array_re] matches opens with a bracket. *)
Lemma json_array_match_bracket text m :
  search json_array_re text = Some m -> exists s, group0 m = String "[" s.
Proof.
  intros Hs. apply search_here in Hs. destruct Hs as (s' & rest & Hm).
  unfold match_here, json_array_re in Hm. simpl in Hm.
  destruct s' as [|c s1]; [discriminate|].
  destruct (Ascii.eqb_spec c "["); [subst c|discriminate].
  apply star_suffix in Hm. destruct Hm as (r1 & Hk & Hl).
  destruct r1 as [|c1 r2]; [discriminate|].
  destruct (Ascii.eqb c1 "]"); [|discriminate].
  inversion Hk; subst. simpl. unfold consumed.
  simpl in Hl.
  replace (String.length (String "[" s1) - String.length rest)%nat
    with (S (String.length s1 - String.length rest)) by (simpl; lia).
  simpl. eauto.
Qed.

Lemma append_length a b :
  String.length (a +:+ b) = (String.length a + String.length b)%nat.
Proof. induction a as [|c a IH]; simpl; [reflexivity|]. by rewrite IH. Qed.

Lemma substring_prefix a b : String.substring 0 (String.length a) (a +:+ b) = a.
Proof.
  induction a as [|c a IH]; simpl.
  - by destruct b.
  - by rewrite IH.
Qed.

Lemma append_snoc a c b :
  (a +:+ String c EmptyString) +:+ b = a +:+ String c b.
Proof.
  induction a as [|x a IH]; [reflexivity|].
  rewrite !append_cons. f_equal. exact IH.
Qed.

Lemma consumed_append a b : consumed (a +:+ b) b = a.
Proof.
  unfold consumed. rewrite append_length.
  replace (String.length a + String.length b - String.length b)%nat
    with (String.length a) by lia.
  apply substring_prefix.
Qed.

Lemma occurs_append c a b : occurs c (a +:+ b) = occurs c a || occurs c b.
Proof.
  induction a as [|x a IH]; simpl; [reflexivity|].
  rewrite IH. apply orb_assoc.
Qed.

(** Greedy repetition before a closing bracket stops at the last
    bracket. *)
Lemma star_closing {A} (f : string -> A) s :
  match star any_char s (closing f) with
  | Some x =>
      exists a b, s = a +:+ String "]" b /\ occurs "]" b = false /\ x = f b
  | None => occurs "]" s = false
  end.
Proof.
  induction s as [|c s IH]; [reflexivity|].
  cbn [star any_char]. destruct (star any_char s (closing f)) as [x|].
  - destruct IH as (a & b & -> & Hb & ->). cbn [ochoice].
    exists (String c a), b. repeat split; assumption.
  - cbn [ochoice closing occurs]. destruct (Ascii.eqb_spec c "]") as [->|Hc].
    + exists EmptyString, s. repeat split. exact IH.
    + exact IH.
Qed.

Lemma match_here_json_array c s :
  match_here json_array_re (String c s)
  = if Ascii.eqb c "[" then
      star any_char s
        (closing (fun rest =>
           (rest, {| group0 := consumed (String c s) rest; groups := [] |})))
    else None.
Proof. reflexivity. Qed.

Lemma match_here_json_array_some s rest m :
  match_here json_array_re s = Some (rest, m) ->
  exists mid, s = bracketed EmptyString mid rest
              /\ occurs "]" rest = false
              /\ group0 m = String "[" (mid +:+ String "]" EmptyString).
Proof.
  destruct s as [|c s]; [discriminate|].
  rewrite match_here_json_array.
  destruct (Ascii.eqb_spec c "[") as [->|]; [|discriminate].
  intros Hm. pose proof (star_closing
    (fun rest => (rest, {| group0 := consumed (String "[" s) rest;
                           groups := [] |})) s) as Hs.
  rewrite Hm in Hs. destruct Hs as (a & b & -> & Hb & [= -> ->]).
  exists a. repeat split; [exact Hb|]. cbn [group0].
  rewrite <- (append_snoc a "]" b).
  apply (consumed_append (String "[" (a +:+ String "]" EmptyString)) b).
Qed.

Lemma occurs_bracketed_close pre mid post :
  occurs "]" (bracketed pre mid post) = true.
Proof.
  unfold bracketed. rewrite occurs_append.
  change (String "[" (mid +:+ String "]" post))
    with (String "[" EmptyString +:+ (mid +:+ String "]" post)).
  rewrite !occurs_append. cbn [occurs].
  rewrite Ascii.eqb_refl. cbn. by rewrite !orb_true_r.
Qed.

Lemma match_here_json_array_none s :
  match_here json_array_re s = None ->
  forall mid post, s <> bracketed EmptyString mid post.
Proof.
  intros Hm mid post ->. unfold bracketed in Hm.
  change (EmptyString +:+ String "[" (mid +:+ String "]" post))
    with (String "[" (mid +:+ String "]" post)) in Hm.
  rewrite match_here_json_array in Hm.
  change (Ascii.eqb "[" "[") with true in Hm. cbv iota in Hm.
  pose proof (star_closing
    (fun rest => (rest, {| group0 := consumed (String "[" (mid +:+ String "]" post)) rest;
                           groups := [] |})) (mid +:+ String "]" post)) as Hs.
  rewrite Hm in Hs.
  pose proof (occurs_bracketed_close EmptyString mid post) as Ho.
  unfold bracketed in Ho.
  change (EmptyString +:+ String "[" (mid +:+ String "]" post))
    with (String "[" (mid +:+ String "]" post)) in Ho.
  cbn [occurs] in Ho. change (Ascii.eqb "[" "]") with false in Ho.
  cbn [orb] in Ho. congruence.
Qed.

Lemma search_suffix r : forall s m,
  search r s = Some m ->
  exists before s' rest,
    s = before +:+ s' /\ match_here r s' = Some (rest, m).
Proof.
  induction s as [|c s IH]; intros m Hs; cbn [search] in Hs.
  - destruct (match_here r EmptyString) as [[rest m']|] eqn:E; [|discriminate].
    injection Hs as ->. by exists EmptyString, EmptyString, rest.
  - destruct (match_here r (String c s)) as [[rest m']|] eqn:E.
    + injection Hs as ->. by exists EmptyString, (String c s), rest.
    + destruct (IH m Hs) as (before & s' & rest & -> & Hm).
      by exists (String c before), s', rest.
Qed.

Lemma validate_catalog : validate (VDict <$> get_fallback_data) = get_fallback_data.
Proof. vm_cast_no_check (@eq_refl _ get_fallback_data). Qed.

(** The span taken for JSON is a part of the text. *)
Lemma json_span_part text m :
  search json_array_re text = Some m -> part_of (group0 m) text.
Proof.
  intros Hs. apply search_suffix in Hs.
  destruct Hs as (before & s' & rest & -> & Hm).
  apply match_here_json_array_some in Hm.
  destruct Hm as (mid & -> & _ & H). exists before, rest.
  rewrite H. unfold bracketed.
  change (String "[" (mid +:+ String "]" EmptyString) +:+ rest)
    with (String "[" ((mid +:+ String "]" EmptyString) +:+ rest)).
  rewrite (append_assoc mid). reflexivity.
Qed.

Lemma within_limits_part `{PyLimits} piece text :
  part_of piece text -> within_limits text -> within_limits piece.
Proof.
  intros (before & after & ->) [Ho Hd]. split.
  - rewrite !count_append in Ho. lia.
  - unfold digits_fit in *. destruct max_str_digits as [most|]; [|exact I].
    rewrite !count_append in Hd. lia.
Qed.

(** The three outcomes of the parser. *)
Lemma parse_outcome `{PyLimits} text :
  (exists items, parse_saas_startups_response text = Ok (validate items))
  \/ parse_saas_startups_response text = Raise RecursionError
  \/ parse_saas_startups_response text = Raise ValueError.
Proof.
  unfold parse_saas_startups_response, extract.
  destruct (search json_array_re text) as [m|] eqn:Hs.
  - destruct (json_array_match_bracket _ _ Hs) as (s & Hg).
    destruct (loads_outcomes (group0 m)) as [[v Hv]|[Hv|[Hv|Hv]]]; rewrite Hv;
      cbv beta iota delta [caught rbind RecursionError]; auto.
    + rewrite Hg in Hv. apply loads_bracket_list in Hv. destruct Hv as [l ->].
      cbv beta iota delta [py_iter]. eauto.
    + cbv beta iota delta [py_iter]. eauto.
  - cbv beta iota delta [caught rbind py_iter]. eauto.
Qed.

(** On text within the limits the parser returns. *)
Lemma parse_within `{PyLimits} text :
  within_limits text ->
  exists items, parse_saas_startups_response text = Ok (validate items).
Proof.
  intros Hw. unfold parse_saas_startups_response, extract.
  destruct (search json_array_re text) as [m|] eqn:Hs.
  - destruct (json_array_match_bracket _ _ Hs) as (s & Hg).
    destruct (loads_within (group0 m)) as [[v Hv]|Hv];
      [by apply within_limits_part with text; [apply json_span_part|]| |];
      rewrite Hv; cbv beta iota delta [caught rbind].
    + rewrite Hg in Hv. apply loads_bracket_list in Hv. destruct Hv as [l ->].
      cbv beta iota delta [py_iter]. eauto.
    + cbv beta iota delta [py_iter]. eauto.
  - cbv beta iota delta [caught rbind py_iter]. eauto.
Qed.

(** What the decoder raises, the decode error apart, leaves the parser. *)
Lemma parse_raises `{PyLimits} text m e :
  search json_array_re text = Some m ->
  json_loads (group0 m) = Raise e ->
  e <> JSONDecodeError ->
  parse_saas_startups_response text = Raise e.
Proof.
  intros Hs Hv He. unfold parse_saas_startups_response, extract.
  rewrite Hs, Hv.
  destruct (loads_outcomes (group0 m)) as [[v Hv']|[Hv'|[Hv'|Hv']]];
    rewrite Hv in Hv'; try discriminate; injection Hv' as ->;
    [congruence| |]; reflexivity.
Qed.

(** C1 (amended).  The response parser returns a sequence or raises the
    [RecursionError] or the [ValueError] of [json.loads], the only
    exceptions of the decoder its handler does not catch; on text within
    the limits of the interpreter it returns.  When a bracketed span is
    found and decoding it raises a decode error, the error is caught and
    the parser returns the fallback catalog; structured-text extraction
    is used only when no bracketed span is found.  When the span decodes
    to an empty array, or no span is found and no entry has a name, the
    parser returns the empty sequence. *)
Theorem parser_never_raises_and_falls_back `{PyLimits} (text : string) :
  ((exists l, parse_saas_startups_response text = Ok l)
   \/ parse_saas_startups_response text = Raise RecursionError
   \/ parse_saas_startups_response text = Raise ValueError)
  /\ (within_limits text ->
      exists l, parse_saas_startups_response text = Ok l)
  /\ (forall m e, search json_array_re text = Some m ->
        json_loads (group0 m) = Raise e ->
        e <> JSONDecodeError ->
        parse_saas_startups_response text = Raise e)
  /\ (forall m, search json_array_re text = Some m ->
        json_loads (group0 m) = Raise JSONDecodeError ->
        parse_saas_startups_response text = Ok get_fallback_data)
  /\ (search json_array_re text = None ->
        parse_saas_startups_response text
        = Ok (validate (VDict <$> parse_structured_text text)))
  /\ (forall m, search json_array_re text = Some m ->
        json_loads (group0 m) = Ok (VList []) ->
        parse_saas_startups_response text = Ok [])
  /\ (search json_array_re text = None ->
        parse_structured_text text = [] ->
        parse_saas_startups_response text = Ok []).
Proof.
  split.
  { destruct (parse_outcome text) as [[items Hp]|[Hp|Hp]]; eauto. }
  split.
  { intros Hw. destruct (parse_within text Hw) as [items Hp]. eauto. }
  split; [apply parse_raises|].
  unfold parse_saas_startups_response, extract.
  destruct (search json_array_re text) as [m|] eqn:Hs.
  - repeat split; try discriminate.
    + intros m' [= <-] Hv. rewrite Hv. cbv beta iota delta [caught rbind py_iter].
      by rewrite validate_catalog.
    + intros m' [= <-] Hv. rewrite Hv. reflexivity.
  - repeat split; try discriminate; cbv beta iota delta [caught rbind py_iter]; eauto.
    intros _ ->. reflexivity.
Qed.

Lemma oops_parse :
  parse_saas_startups_response "[oops]" = Ok get_fallback_data.
Proof. vm_cast_no_check (@eq_refl _ (Ok get_fallback_data)). Qed.

Lemma oops_within : within_limits "[oops]".
Proof.
  split; [|unfold digits_fit; cbn [max_str_digits default_limits]];
    apply Nat.leb_le; vm_compute; reflexivity.
Qed.

Lemma parser_witness :
  (exists l, parse_saas_startups_response "[oops]" = Ok l)
  /\ parse_saas_startups_response "[oops]" = Ok get_fallback_data.
Proof.
  split.
  - apply (proj1 (proj2 (parser_never_raises_and_falls_back "[oops]"))).
    exact oops_within.
  - apply (proj1 (proj2 (proj2 (proj2
             (parser_never_raises_and_falls_back "[oops]"))))
             {| group0 := "[oops]"; groups := [] |}); vm_compute; reflexivity.
Defined.

Lemma long_integer_parse :
  parse_saas_startups_response long_integer_text = Raise ValueError.
Proof. vm_cast_no_check (@eq_refl (result (list dict)) (Raise ValueError)). Qed.

Lemma deep_array_parse :
  parse_saas_startups_response deep_array_text = Raise RecursionError.
Proof. vm_cast_no_check (@eq_refl (result (list dict)) (Raise RecursionError)). Qed.

(** C1 (as stated) fails twice.  On a span that does not decode,
    structured-text extraction would give no entry, yet the parser
    returns the catalog.  On an array holding an integer of 4301 digits,
    and on an empty array inside a thousand arrays, with the limits of a
    default interpreter, the parser raises. *)
Lemma decode_error_yields_catalog :
  (search json_array_re "[oops]" = Some {| group0 := "[oops]"; groups := [] |}
   /\ json_loads "[oops]" = Raise JSONDecodeError
   /\ parse_structured_text "[oops]" = []
   /\ parse_saas_startups_response "[oops]" = Ok get_fallback_data
   /\ parse_saas_startups_response "[oops]" <> Ok [])
  /\ parse_saas_startups_response long_integer_text = Raise ValueError
  /\ parse_saas_startups_response deep_array_text = Raise RecursionError.
Proof.
  split; [|exact (conj long_integer_parse deep_array_parse)].
  rewrite oops_parse.
  refine (conj _ (conj _ (conj _ (conj eq_refl _)))).
  1-3: vm_compute; reflexivity.
  discriminate.
Qed.

Lemma acme_parse : parse_structured_text acme_text = [acme_mapping].
Proof. vm_cast_no_check (@eq_refl _ [acme_mapping]). Qed.

Lemma parse_entry_inv entry d :
  parse_entry entry = Some d ->
  exists nm,
    search (label_re "Name") entry = Some nm
    /\ d = startup_dict (strip (group nm 1))
             (group1_or (search (label_re "Description") entry) "No description")
             (group1_or (search (label_re "Reason") entry) "Growth potential detected")
             (group1_or (search (label_re "Source") entry) "https://example.com")
             "Technology" "Early Stage" "News" 75.
Proof.
  unfold parse_entry. destruct (strip entry); [discriminate|].
  destruct (search (label_re "Name") entry) as [nm|]; [|discriminate].
  intros [= <-]. eauto.
Qed.

Lemma startup_dict_lookup n d g s c f t z :
  let m := startup_dict n d g s c f t z in
  m !! "name" = Some (VStr n) /\ m !! "description" = Some (VStr d)
  /\ m !! "growth_reason" = Some (VStr g) /\ m !! "source_link" = Some (VStr s)
  /\ m !! "sector" = Some (VStr c) /\ m !! "funding_stage" = Some (VStr f)
  /\ m !! "signal_type" = Some (VStr t) /\ m !! "score" = Some (VInt z).
Proof. 
  unfold startup_dict. simpl. repeat split; by simplify_map_eq.
Qed.

(** C9 (amended).  In structured-text extraction an entry becomes a
    mapping only if the Name label matches; when the Reason label is
    absent the growth reason is the text Growth potential detected, when
    the Source label is absent the link is https://example.com, and
    sector, funding stage, signal type and score are Technology, Early
    Stage, News and 75.  The example text has no bracketed span and yields
    exactly one mapping, named Acme Corp and described as Widgets. *)
Theorem tier2_name_required_and_defaults `{PyLimits} :
  (forall text d, d ∈ parse_structured_text text ->
     exists entry nm,
       entry ∈ split entry_sep_re text
       /\ search (label_re "Name") entry = Some nm
       /\ d !! "name" = Some (VStr (strip (group nm 1)))
       /\ (search (label_re "Reason") entry = None ->
           d !! "growth_reason" = Some (VStr "Growth potential detected"))
       /\ (search (label_re "Source") entry = None ->
           d !! "source_link" = Some (VStr "https://example.com"))
       /\ d !! "sector" = Some (VStr "Technology")
       /\ d !! "funding_stage" = Some (VStr "Early Stage")
       /\ d !! "signal_type" = Some (VStr "News")
       /\ d !! "score" = Some (VInt 75))
  /\ search json_array_re acme_text = None
  /\ parse_structured_text acme_text = [acme_mapping]
  /\ parse_saas_startups_response acme_text = Ok [acme_mapping].
Proof.
  split.
  - intros text d Hd. unfold parse_structured_text in Hd.
    apply list_elem_of_omap in Hd. destruct Hd as (entry & Hin & Hp).
    apply parse_entry_inv in Hp. destruct Hp as (nm & Hn & ->).
    exists entry, nm. 
    pose proof (startup_dict_lookup (strip (group nm 1))
             (group1_or (search (label_re "Description") entry) "No description")
             (group1_or (search (label_re "Reason") entry) "Growth potential detected")
             (group1_or (search (label_re "Source") entry) "https://example.com")
             "Technology" "Early Stage" "News" 75) as (H1 & H2 & H3 & H4 & H5 & H6 & H7 & H8).
    repeat split; try assumption.
    + intros Hr. rewrite H3, Hr. reflexivity.
    + intros Hr. rewrite H4, Hr. reflexivity.
  - refine (conj _ (conj acme_parse _)).
    + vm_compute. reflexivity.
    + vm_cast_no_check (@eq_refl _ (Ok [acme_mapping])).
Qed.

(** C9 (as stated) fails on the growth reason of the example. *)
Lemma tier2_reason_default_differs :
  parse_structured_text acme_text = [acme_mapping]
  /\ acme_mapping !! "name" = Some (VStr "Acme Corp")
  /\ acme_mapping !! "description" = Some (VStr "Widgets")
  /\ search (label_re "Reason") acme_text = None
  /\ acme_mapping !! "growth_reason" = Some (VStr "Growth potential detected")
  /\ acme_mapping !! "growth_reason" <> Some (VStr "Growth signals detected").
Proof.
  refine (conj acme_parse (conj _ (conj _ (conj _ (conj _ _))))).
  1-4: vm_compute; reflexivity.
  vm_compute. discriminate.
Qed.

(** * Facts about the sort *)

Lemma fmap_rev {A B} (f : A -> B) (l : list A) : f <$> rev l = rev (f <$> l).
Proof.
  induction l as [|x l IH]; [reflexivity|].
  simpl. rewrite fmap_app, IH. reflexivity.
Qed.

Section SortFacts.
Context `{PyOrder}.

Lemma insert_asc_tagged x l :
  insert_asc (tag x) (tag <$> l) = Ok (tag <$> insert_by_score x l).
Proof.
  induction l as [|y l IH]; [reflexivity|].
  cbn [fmap list_fmap insert_asc insert_by_score].
  change ((tag y).1) with (VInt (score_of y)).
  change ((tag x).1) with (VInt (score_of x)).
  rewrite py_lt_int. cbn [rbind].
  destruct (score_of y <? score_of x); [|reflexivity].
  rewrite IH. reflexivity.
Qed.

Lemma sort_asc_tagged l :
  sort_asc (tag <$> l) = Ok (tag <$> sort_by_score l).
Proof.
  induction l as [|x l IH]; [reflexivity|].
  cbn [fmap list_fmap sort_asc sort_by_score].
  change (list_fmap _ _ tag l) with (tag <$> l). rewrite IH. cbn [rbind].
  apply insert_asc_tagged.
Qed.

Lemma mapM_score_key l :
  Forall has_int_score l ->
  mapM score_key l = Ok ((fun d => VInt (score_of d)) <$> l).
Proof.
  induction 1 as [|d l [z Hz] _ IH]; [reflexivity|].
  cbn [mapM fmap list_fmap]. unfold score_key at 1, score_of at 1.
  rewrite Hz. cbn [rbind]. rewrite IH. reflexivity.
Qed.

Lemma zip_tag (l : list dict) : zip ((fun d => VInt (score_of d)) <$> l) l = tag <$> l.
Proof. induction l as [|d l IH]; [reflexivity|]. cbn. f_equal. exact IH. Qed.

Lemma snd_tag (l : list dict) : snd <$> (tag <$> l) = l.
Proof. induction l as [|d l IH]; [reflexivity|]. cbn. f_equal. exact IH. Qed.

(** On integer scores, sorting does not raise and is the stable
    descending sort. *)
Lemma sort_by_score_reverse_ok l :
  Forall has_int_score l -> sort_by_score_reverse l = Ok (sorted_desc l).
Proof.
  intros Hl. unfold sort_by_score_reverse.
  rewrite (mapM_score_key l Hl). cbn [rbind].
  rewrite zip_tag, <- fmap_rev, sort_asc_tagged. cbn [rbind].
  rewrite snd_tag. reflexivity.
Qed.

End SortFacts.

Lemma insert_by_score_perm x l : Permutation (x :: l) (insert_by_score x l).
Proof.
  induction l as [|y l IH]; simpl; [reflexivity|].
  destruct (score_of y <? score_of x); [|reflexivity].
  rewrite perm_swap. apply perm_skip, IH.
Qed.

Lemma sort_by_score_perm l : Permutation l (sort_by_score l).
Proof.
  induction l as [|x l IH]; simpl; [reflexivity|].
  rewrite <- insert_by_score_perm. apply perm_skip, IH.
Qed.

Lemma sorted_desc_perm l : Permutation l (sorted_desc l).
Proof.
  unfold sorted_desc. rewrite <- Permutation_rev, <- sort_by_score_perm.
  apply Permutation_rev.
Qed.

Lemma insert_by_score_sorted x l :
  StronglySorted ascending l -> StronglySorted ascending (insert_by_score x l).
Proof.
  induction 1 as [|y l Hs IH Hall]; simpl.
  - constructor; constructor.
  - destruct (Z.ltb_spec (score_of y) (score_of x)) as [Hlt|Hge].
    + constructor; [exact IH|].
      rewrite <- insert_by_score_perm. constructor; [unfold ascending; lia | exact Hall].
    + constructor; [constructor; assumption|].
      constructor; [exact Hge|].
      eapply Forall_impl; [exact Hall|]. unfold ascending. intros; simpl in *; lia.
Qed.

Lemma sort_by_score_sorted l : StronglySorted ascending (sort_by_score l).
Proof.
  induction l as [|x l IH]; simpl; [constructor|].
  apply insert_by_score_sorted, IH.
Qed.

Lemma StronglySorted_snoc {A} (R : A -> A -> Prop) l x :
  StronglySorted R l -> Forall (fun y => R y x) l -> StronglySorted R (l ++ [x]).
Proof.
  induction 1 as [|y l Hs IH Hall]; intros Hx; simpl.
  - constructor; constructor.
  - inversion Hx; subst. constructor; [auto|].
    apply Forall_app; split; [exact Hall|]. constructor; [assumption|constructor].
Qed.

Lemma StronglySorted_rev {A} (R : A -> A -> Prop) l :
  StronglySorted R l -> StronglySorted (fun a b => R b a) (rev l).
Proof.
  induction 1 as [|x l Hs IH Hall]; simpl; [constructor|].
  apply StronglySorted_snoc; [exact IH|].
  apply Forall_forall. intros y Hy.
  apply list_elem_of_In, in_rev, list_elem_of_In in Hy.
  rewrite Forall_forall in Hall. apply Hall, Hy.
Qed.

Lemma sorted_desc_sorted l : StronglySorted descending (sorted_desc l).
Proof.
  unfold sorted_desc.
  apply (StronglySorted_rev ascending), sort_by_score_sorted.
Qed.

Lemma insert_by_score_stable k x l :
  with_score k (insert_by_score x l) = with_score k (x :: l).
Proof.
  unfold with_score.
  induction l as [|y l IH]; [reflexivity|].
  cbn [insert_by_score].
  destruct (Z.ltb_spec (score_of y) (score_of x)) as [Hlt|Hge]; [|reflexivity].
  cbn [List.filter] in *. rewrite IH.
  destruct (Z.eqb_spec (score_of y) k) as [Hy|Hy];
    destruct (Z.eqb_spec (score_of x) k) as [Hx|Hx]; try reflexivity.
  lia.
Qed.

Lemma sort_by_score_stable k l : with_score k (sort_by_score l) = with_score k l.
Proof.
  induction l as [|x l IH]; [reflexivity|].
  cbn [sort_by_score]. rewrite insert_by_score_stable.
  unfold with_score in *. cbn [List.filter]. rewrite IH. reflexivity.
Qed.

Lemma sorted_desc_stable k l : with_score k (sorted_desc l) = with_score k l.
Proof.
  unfold sorted_desc, with_score.
  rewrite List.filter_rev. fold (with_score k (sort_by_score (rev l))).
  rewrite sort_by_score_stable. unfold with_score.
  rewrite List.filter_rev, rev_involutive. reflexivity.
Qed.

(** * Facts about the scorer and the formatter *)

Lemma field_text_get d k s :
  field_text d k = Some s -> get d k (VStr EmptyString) = VStr s.
Proof.
  unfold field_text. destruct (get d k (VStr EmptyString)); congruence.
Qed.

Lemma ci_in_lowered needle text :
  lower needle = needle -> ci_in needle text = contains needle (lower text).
Proof. unfold ci_in. intros ->. reflexivity. Qed.

Lemma calculate_growth_score_ok d fs st sec :
  field_text d "funding_stage" = Some fs ->
  field_text d "signal_type" = Some st ->
  field_text d "sector" = Some sec ->
  calculate_growth_score d = Ok (score_spec fs st sec).
Proof.
  intros Hf Hs Hc. unfold calculate_growth_score.
  rewrite (field_text_get _ _ _ Hf), (field_text_get _ _ _ Hs),
    (field_text_get _ _ _ Hc).
  cbn [lower_of rbind].
  unfold score_spec, stage_bonus, signal_bonus, sector_bonus, clamp.
  rewrite !ci_in_lowered by reflexivity.
  repeat match goal with
         | |- context [contains ?n ?t] => destruct (contains n t)
         end; reflexivity.
Qed.

Lemma score_spec_bounds fs st sec : 0 <= score_spec fs st sec <= 100.
Proof. unfold score_spec, clamp. lia. Qed.

Lemma scored_has_int_score d : int_scored d -> has_int_score (scored d).
Proof.
  unfold scored. intros [[z Hz]|(Hn & _)].
  - rewrite Hz. exists z. exact Hz.
  - rewrite Hn. eexists. apply lookup_insert_eq.
Qed.

Section FormatFacts.
Context `{PyOrder}.
Variable clock : nat -> string.

Lemma format_one_ok d t :
  int_scored d ->
  format_one clock d t
  = (Ok (<["timestamp" := VStr (clock t)]> (scored d)), S t).
Proof.
  unfold format_one, scored, bind, lift, ret, now.
  intros [[z Hz]|(Hn & [fs Hf] & [st Hs] & [sec Hc])].
  - rewrite Hz. reflexivity.
  - rewrite Hn, (calculate_growth_score_ok d fs st sec Hf Hs Hc).
    unfold text_or_empty. rewrite Hf, Hs, Hc. reflexivity.
Qed.

Lemma format_loop_ok l : forall t,
  Forall int_scored l ->
  format_loop clock l t = (Ok (stamped clock t l), (t + length l)%nat).
Proof.
  induction l as [|d l IH]; intros t Hl.
  - cbn. f_equal. lia.
  - inversion Hl as [|? ? Hd Hl']; subst.
    cbn [format_loop stamped length]. unfold bind at 1.
    rewrite (format_one_ok d t Hd). unfold bind at 1.
    rewrite (IH (S t) Hl'). unfold ret. f_equal. lia.
Qed.

Lemma stamped_has_int_score l : forall t,
  Forall int_scored l -> Forall has_int_score (stamped clock t l).
Proof.
  induction l as [|d l IH]; intros t Hl; [constructor|].
  inversion Hl as [|? ? Hd Hl']; subst. cbn [stamped]. constructor; [|auto].
  destruct (scored_has_int_score d Hd) as [z Hz]. exists z.
  rewrite lookup_insert_ne by discriminate. exact Hz.
Qed.

(** On input it can score, the formatter does not raise: it returns the
    stamped records in stable descending order of score. *)
Lemma format_startup_data_ok l t :
  Forall int_scored l ->
  format_startup_data clock l t
  = (Ok (sorted_desc (stamped clock t l)), (t + length l)%nat).
Proof.
  intros Hl. unfold format_startup_data, bind, lift.
  rewrite (format_loop_ok l t Hl).
  rewrite (sort_by_score_reverse_ok _ (stamped_has_int_score l t Hl)).
  reflexivity.
Qed.

End FormatFacts.

Lemma stamped_length clock l : forall t, length (stamped clock t l) = length l.
Proof. induction l as [|d l IH]; intros t; cbn; [reflexivity|]. by rewrite IH. Qed.

(** Every stamped record comes from an input record. *)
Lemma elem_of_stamped clock r l : forall t,
  r ∈ stamped clock t l ->
  exists d t', d ∈ l /\ r = <["timestamp" := VStr (clock t')]> (scored d).
Proof.
  induction l as [|d l IH]; intros t Hr; cbn in Hr.
  - by apply elem_of_nil in Hr.
  - apply elem_of_cons in Hr. destruct Hr as [->|Hr].
    + exists d, t. split; [left|reflexivity].
    + destruct (IH _ Hr) as (d' & t' & Hd & ->). exists d', t'.
      split; [by right|reflexivity].
Qed.

(** C4.  The scorer is a function of the three fields it reads: on a
    startup whose funding stage, signal type and sector are strings (a
    missing one counts as empty) it returns 50 plus the bonus of the first
    matching keyword of each of the three chains, the keywords looked for
    as substrings without regard to case, clamped to the range 0 to 100;
    for Series A, Funding, Cybersecurity this is 90. *)
Theorem scorer_follows_specification (d : dict) (fs st sec : string) :
  field_text d "funding_stage" = Some fs ->
  field_text d "signal_type" = Some st ->
  field_text d "sector" = Some sec ->
  calculate_growth_score d = Ok (score_spec fs st sec)
  /\ 0 <= score_spec fs st sec <= 100
  /\ score_spec "Series A" "Funding" "Cybersecurity" = 90.
Proof.
  intros Hf Hs Hc. split; [|split].
  - apply calculate_growth_score_ok; assumption.
  - apply score_spec_bounds.
  - reflexivity.
Qed.

Lemma scorer_witness :
  calculate_growth_score series_a_funding_cybersecurity
  = Ok (score_spec "Series A" "Funding" "Cybersecurity")
  /\ 0 <= score_spec "Series A" "Funding" "Cybersecurity" <= 100
  /\ score_spec "Series A" "Funding" "Cybersecurity" = 90.
Proof.
  apply (scorer_follows_specification series_a_funding_cybersecurity);
    vm_compute; reflexivity.
Defined.

(** * Facts about validation *)

Lemma validated_startup_lookup d :
  let m := validated_startup d in
  m !! "name" = Some (get d "name" (VStr "Unknown Startup"))
  /\ m !! "description" = Some (get d "description" (VStr "No description available"))
  /\ m !! "growth_reason" = Some (get d "growth_reason" (VStr "Growth signals detected"))
  /\ m !! "source_link" = Some (get d "source_link" (VStr "https://example.com"))
  /\ m !! "sector" = Some (get d "sector" (VStr "Technology"))
  /\ m !! "funding_stage" = Some (get d "funding_stage" (VStr "Early Stage"))
  /\ m !! "signal_type" = Some (get d "signal_type" (VStr "News"))
  /\ m !! "score" = Some (get d "score" (VInt 75)).
Proof.
  unfold validated_startup. simpl. repeat split; by simplify_map_eq.
Qed.

Lemma elem_of_validate r items :
  r ∈ validate items -> exists d, VDict d ∈ items /\ r = validated_startup d.
Proof.
  induction items as [|v items IH]; cbn [validate]; intros Hr.
  - by apply elem_of_nil in Hr.
  - destruct v; cbn [as_dict] in Hr;
      try (destruct (IH Hr) as (d' & Hd & ->); exists d'; split; [by right|reflexivity]).
    apply elem_of_cons in Hr. destruct Hr as [->|Hr].
    + eexists. split; [left|reflexivity].
    + destruct (IH Hr) as (d' & Hd & ->). exists d'. split; [by right|reflexivity].
Qed.

Lemma validate_omap items : validate items = validated_startup <$> omap as_dict items.
Proof.
  induction items as [|v items IH]; [reflexivity|].
  cbn [validate omap list_omap]. destruct (as_dict v); cbn; by rewrite IH.
Qed.

Lemma omap_length_le {A B} (f : A -> option B) l : (length (omap f l) <= length l)%nat.
Proof. induction l as [|x l IH]; cbn; [lia|]. destruct (f x); cbn; lia. Qed.

Lemma validate_length items : (length (validate items) <= length items)%nat.
Proof. rewrite validate_omap, length_fmap. apply omap_length_le. Qed.

Lemma validate_int_scored items :
  Forall int_score_entry items -> Forall int_scored (validate items).
Proof.
  intros Hi. apply Forall_forall. intros r Hr.
  apply elem_of_validate in Hr. destruct Hr as (d & Hd & ->).
  rewrite Forall_forall in Hi. specialize (Hi _ Hd d eq_refl).
  left. destruct (validated_startup_lookup d) as (_ & _ & _ & _ & _ & _ & _ & Hs).
  rewrite Hs. unfold get. destruct Hi as [->|[z ->]]; eauto.
Qed.

Lemma validate_range_scored items :
  Forall range_entry items -> Forall range_scored (validate items).
Proof.
  intros Hi. apply Forall_forall. intros r Hr.
  apply elem_of_validate in Hr. destruct Hr as (d & Hd & ->).
  rewrite Forall_forall in Hi. specialize (Hi _ Hd d eq_refl).
  left. destruct (validated_startup_lookup d) as (_ & _ & _ & _ & _ & _ & _ & Hs).
  unfold score_in_range. rewrite Hs. unfold get.
  destruct Hi as [->|(z & -> & Hz)]; eexists; (split; [reflexivity|lia]).
Qed.

Lemma range_scored_int_scored d : range_scored d -> int_scored d.
Proof. intros [(z & Hz & _)|Hn]; [left; eauto | right; exact Hn]. Qed.

Lemma scored_in_range d : range_scored d -> score_in_range (scored d).
Proof.
  unfold scored, score_in_range. intros [(z & Hz & Hr)|(Hn & _)].
  - rewrite Hz. eauto.
  - rewrite Hn. eexists. split; [apply lookup_insert_eq | apply score_spec_bounds].
Qed.

Lemma stamped_in_range clock l : forall t,
  Forall range_scored l -> Forall score_in_range (stamped clock t l).
Proof.
  induction l as [|d l IH]; intros t Hl; [constructor|].
  inversion Hl as [|? ? Hd Hl']; subst. cbn [stamped]. constructor; [|auto].
  destruct (scored_in_range d Hd) as (z & Hz & Hr). exists z.
  rewrite lookup_insert_ne by discriminate. auto.
Qed.

Lemma format_in_range `{PyOrder} clock l t :
  Forall range_scored l ->
  exists out,
    format_startup_data clock l t = (Ok out, (t + length l)%nat)
    /\ Forall score_in_range out.
Proof.
  intros Hl. eexists. split.
  - apply format_startup_data_ok. eapply Forall_impl; [exact Hl|].
    apply range_scored_int_scored.
  - rewrite <- sorted_desc_perm. apply stamped_in_range, Hl.
Qed.

(** C2 (amended).  A score supplied by the source is passed through as it
    is, without being brought into range.  On input whose supplied scores
    are integers from 0 to 100, with the remaining dictionaries either
    scored by the scorer (formatter alone) or given 75 by validation, the
    formatter returns and every record it returns has an integer score
    from 0 to 100. *)
Theorem formatter_scores_within_range `{PyOrder} (clock : nat -> string)
    (t : nat) :
  (forall l, Forall range_scored l ->
     exists out,
       format_startup_data clock l t = (Ok out, (t + length l)%nat)
       /\ Forall score_in_range out)
  /\ (forall items, Forall range_entry items ->
        exists out,
          format_startup_data clock (validate items) t
          = (Ok out, (t + length (validate items))%nat)
          /\ Forall score_in_range out).
Proof.
  split.
  - intros l Hl. apply format_in_range, Hl.
  - intros items Hi. apply format_in_range, validate_range_scored, Hi.
Qed.

Lemma formatter_range_witness :
  exists out,
    format_startup_data fixed_clock (validate [VDict ∅]) 0%nat
    = (Ok out, (0 + length (validate [VDict ∅]))%nat)
    /\ Forall score_in_range out.
Proof.
  apply (proj2 (formatter_scores_within_range fixed_clock 0%nat) [VDict ∅]).
  constructor; [|constructor]. intros d [= <-]. left. reflexivity.
Defined.

(** C2 (as stated) fails: a supplied score of 150 comes out as 150. *)
Lemma overscored_passes_through :
  format_startup_data fixed_clock (validate overscored) 0%nat
  = (Ok [overscored_record], 1%nat)
  /\ overscored_record !! "score" = Some (VInt 150)
  /\ ~ score_in_range overscored_record.
Proof.
  assert (E : overscored_record !! "score" = Some (VInt 150))
    by (vm_cast_no_check (@eq_refl (option value) (Some (VInt 150)))).
  split; [|split].
  - vm_cast_no_check (@eq_refl (result (list dict) * nat)
                        (Ok [overscored_record], 1%nat)).
  - exact E.
  - intros (z & Hz & Hr). rewrite E in Hz. injection Hz as <-. lia.
Qed.

Lemma scored_validated d : scored (validated_startup d) = validated_startup d.
Proof.
  unfold scored.
  destruct (validated_startup_lookup d) as (_ & _ & _ & _ & _ & _ & _ & Hs).
  rewrite Hs. reflexivity.
Qed.

Lemma get_defaulted d k dflt r :
  r !! k = Some (get d k (VStr dflt)) -> defaulted d r (k, dflt).
Proof.
  unfold defaulted, get. cbn [fst snd]. intros Hr. split.
  - intros Hn. rewrite Hn in Hr. exact Hr.
  - intros v Hv. rewrite Hv in Hr. exact Hr.
Qed.

Lemma validated_record_complete d ts :
  let r := <["timestamp" := VStr ts]> (validated_startup d) in
  Forall (fun k => is_Some (r !! k)) record_fields
  /\ Forall (defaulted d r) text_defaults.
Proof.
  intros r.
  destruct (validated_startup_lookup d) as (H1 & H2 & H3 & H4 & H5 & H6 & H7 & H8).
  assert (Hne : forall k, k <> "timestamp" -> r !! k = validated_startup d !! k).
  { intros k Hk. unfold r. apply lookup_insert_ne. congruence. }
  split.
  - unfold record_fields.
    repeat (apply Forall_cons; split;
            [first [ rewrite Hne by discriminate; eauto
                   | unfold r; rewrite lookup_insert_eq; eauto ] |]).
    apply Forall_nil. exact I.
  - unfold text_defaults.
    repeat (apply Forall_cons; split;
            [apply get_defaulted; rewrite Hne by discriminate; assumption|]).
    apply Forall_nil. exact I.
Qed.

Lemma get_populated d k dflt :
  d !! k <> Some VNone -> dflt <> VNone -> get d k dflt <> VNone.
Proof.
  unfold get. destruct (d !! k) as [v|]; [|auto].
  intros Hn _ ->. by apply Hn.
Qed.

Lemma validated_record_populated d ts :
  let r := <["timestamp" := VStr ts]> (validated_startup d) in
  no_null_text d ->
  (d !! "score" = None \/ exists z, d !! "score" = Some (VInt z)) ->
  Forall (populated r) record_fields.
Proof.
  intros r Hn Hscore.
  destruct (validated_startup_lookup d) as (H1 & H2 & H3 & H4 & H5 & H6 & H7 & H8).
  assert (Hne : forall k, k <> "timestamp" -> r !! k = validated_startup d !! k).
  { intros k Hk. unfold r. apply lookup_insert_ne. congruence. }
  unfold no_null_text, text_defaults in Hn.
  repeat (apply Forall_cons in Hn; destruct Hn as [? Hn]).
  cbn [fst] in *. unfold record_fields, populated.
  repeat (apply Forall_cons; split;
          [rewrite Hne by discriminate; eexists; split; [eassumption|];
           first [ by apply get_populated
                 | unfold get;
                   destruct Hscore as [->|[z ->]]; discriminate ] |]).
  apply Forall_cons; split; [|apply Forall_nil; exact I].
  unfold r. rewrite lookup_insert_eq. eexists. split; [reflexivity|discriminate].
Qed.

(** C5 (amended).  On every sequence of entries whose supplied scores are
    integers, whichever text fields are missing, validation followed by
    formatting raises nothing, and every record returned has all nine
    fields, each of the seven text fields holding the default constant
    when the mapping it comes from lacks it and the value of the mapping
    otherwise, null included; when the mapping supplies no text field as
    null, none of the nine fields of the record is null. *)
Theorem missing_fields_take_defaults `{PyOrder} (clock : nat -> string)
    (items : list value) (t : nat) :
  Forall int_score_entry items ->
  exists out,
    format_startup_data clock (validate items) t
    = (Ok out, (t + length (validate items))%nat)
    /\ forall r, r ∈ out ->
         Forall (fun k => is_Some (r !! k)) record_fields
         /\ exists d, VDict d ∈ items
                      /\ Forall (defaulted d r) text_defaults
                      /\ (no_null_text d -> Forall (populated r) record_fields).
Proof.
  intros Hi. eexists. split.
  - apply format_startup_data_ok, validate_int_scored, Hi.
  - intros r Hr. rewrite <- sorted_desc_perm in Hr.
    apply elem_of_stamped in Hr. destruct Hr as (vd & t' & Hvd & ->).
    apply elem_of_validate in Hvd. destruct Hvd as (d & Hd & ->).
    rewrite scored_validated.
    destruct (validated_record_complete d (clock t')) as (Hall & Hdef).
    split; [exact Hall|]. exists d. split; [exact Hd|]. split; [exact Hdef|].
    intros Hn. apply validated_record_populated; [exact Hn|].
    rewrite Forall_forall in Hi. exact (Hi _ Hd d eq_refl).
Qed.

(** Settles that the entries of a concrete list are well typed. *)
Ltac typed_entries :=
  repeat (apply Forall_cons; split;
          [first [ intros ? [= <-]; left; reflexivity | intros ? [=] ] |]);
  apply Forall_nil; exact I.

Lemma missing_fields_witness :
  exists out,
    format_startup_data fixed_clock (validate [VDict ∅; VInt 3]) 0%nat
    = (Ok out, (0 + length (validate [VDict ∅; VInt 3]))%nat)
    /\ forall r, r ∈ out ->
         Forall (fun k => is_Some (r !! k)) record_fields
         /\ exists d, VDict d ∈ [VDict ∅; VInt 3]
                      /\ Forall (defaulted d r) text_defaults
                      /\ (no_null_text d
                          -> Forall (populated r) record_fields).
Proof.
  apply (missing_fields_take_defaults fixed_clock [VDict ∅; VInt 3] 0%nat).
  typed_entries.
Defined.

Lemma null_named_record :
  format_startup_data fixed_clock (validate null_named) 0%nat
  = (Ok [<["timestamp" := VStr (fixed_clock 0)]>
           (validated_startup {["name" := VNone]})], 1%nat).
Proof.
  vm_cast_no_check
    (@eq_refl (result (list dict) * nat)
       (Ok [<["timestamp" := VStr (fixed_clock 0)]>
              (validated_startup {["name" := VNone]})], 1%nat)).
Qed.

(** C5 (as stated) fails twice.  Two mappings without text fields, one of
    them with a text for score, make the final sort raise.  A mapping
    that lacks six text fields and supplies the name as null gives a
    record whose name is null. *)
Lemma text_score_raises :
  (format_startup_data fixed_clock (validate text_scored) 0%nat
   = (Raise TypeError, 2%nat)
   /\ Forall (fun v => exists d, v = VDict d
                       /\ Forall (fun kd : string * string => d !! kd.1 = None)
                            text_defaults) text_scored)
  /\ (Forall int_score_entry null_named
      /\ exists r,
           format_startup_data fixed_clock (validate null_named) 0%nat
           = (Ok [r], 1%nat)
           /\ r !! "name" = Some VNone
           /\ ~ populated r "name").
Proof.
  split; [split|split].
  - vm_cast_no_check (@eq_refl (result (list dict) * nat) (Raise TypeError, 2%nat)).
  - unfold text_scored.
    repeat (apply Forall_cons; split;
            [eexists; split; [reflexivity|];
             unfold text_defaults;
             repeat (apply Forall_cons; split; [reflexivity|]);
             apply Forall_nil; exact I|]).
    apply Forall_nil; exact I.
  - unfold null_named. typed_entries.
  - eexists. split; [exact null_named_record|].
    assert (Hname : (<["timestamp" := VStr (fixed_clock 0)]>
                       (validated_startup {["name" := VNone]}) : dict)
                    !! "name" = Some VNone).
    { rewrite lookup_insert_ne by discriminate.
      rewrite (proj1 (validated_startup_lookup _)).
      unfold get. by rewrite lookup_singleton_eq. }
    split; [exact Hname|].
    intros (v & Hv & Hnn). rewrite Hname in Hv. by injection Hv as <-.
Qed.

(** C6 (amended).  On every sequence of N entries whose supplied scores are
    integers, validation followed by formatting returns at most N records,
    one for each entry that is a mapping, in non-increasing order of
    score, and records of equal score keep the order they had in the
    input. *)
Theorem formatter_sorts_stably `{PyOrder} (clock : nat -> string)
    (items : list value) (t : nat) :
  Forall int_score_entry items ->
  exists out,
    format_startup_data clock (validate items) t
    = (Ok out, (t + length (validate items))%nat)
    /\ (length out <= length items)%nat
    /\ length out = length (omap as_dict items)
    /\ Forall has_int_score out
    /\ StronglySorted descending out
    /\ Permutation (stamped clock t (validate items)) out
    /\ forall k, with_score k out
                 = with_score k (stamped clock t (validate items)).
Proof.
  intros Hi. pose proof (validate_int_scored items Hi) as Hv.
  eexists. split; [apply format_startup_data_ok, Hv|].
  assert (Hlen : length (sorted_desc (stamped clock t (validate items)))
                 = length (validate items)).
  { rewrite <- (Permutation_length (sorted_desc_perm _)). apply stamped_length. }
  repeat split.
  - rewrite Hlen. apply validate_length.
  - rewrite Hlen, validate_omap. apply length_fmap.
  - rewrite <- sorted_desc_perm. apply stamped_has_int_score, Hv.
  - apply sorted_desc_sorted.
  - apply sorted_desc_perm.
  - intros k. apply sorted_desc_stable.
Qed.

Lemma tied_entries_typed : Forall int_score_entry tied_entries.
Proof.
  unfold tied_entries, named_scored.
  repeat (apply Forall_cons; split;
          [first [ intros ? [= <-];
                   first [ left; reflexivity
                         | right; eexists; by simplify_map_eq ]
                 | intros ? [=] ] |]).
  apply Forall_nil; exact I.
Qed.

Lemma tied_entries_names :
  names_of (format_startup_data fixed_clock (validate tied_entries) 0%nat)
  = [Some (VStr "B"); Some (VStr "A"); Some (VStr "C");
     Some (VStr "Unknown Startup")].
Proof.
  vm_cast_no_check
    (@eq_refl (list (option value))
       [Some (VStr "B"); Some (VStr "A"); Some (VStr "C");
        Some (VStr "Unknown Startup")]).
Qed.

Lemma formatter_sorts_witness :
  (exists out,
     format_startup_data fixed_clock (validate tied_entries) 0%nat
     = (Ok out, (0 + length (validate tied_entries))%nat)
     /\ (length out <= length tied_entries)%nat
     /\ length out = length (omap as_dict tied_entries)
     /\ Forall has_int_score out
     /\ StronglySorted descending out
     /\ Permutation (stamped fixed_clock 0 (validate tied_entries)) out
     /\ forall k, with_score k out
                  = with_score k (stamped fixed_clock 0 (validate tied_entries)))
  /\ names_of (format_startup_data fixed_clock (validate tied_entries) 0%nat)
     = [Some (VStr "B"); Some (VStr "A"); Some (VStr "C");
        Some (VStr "Unknown Startup")].
Proof.
  split.
  - apply (formatter_sorts_stably fixed_clock tied_entries 0%nat).
    exact tied_entries_typed.
  - exact tied_entries_names.
Defined.

(** C6 (as stated) fails: of two mappings, the second with a null score,
    the formatter returns no sequence, for the final sort raises. *)
Lemma null_score_is_not_sorted :
  format_startup_data fixed_clock (validate null_scored) 0%nat
  = (Raise TypeError, 2%nat)
  /\ Forall (fun v => exists d, v = VDict d) null_scored
  /\ ~ Forall int_score_entry null_scored.
Proof.
  split; [|split].
  - vm_cast_no_check (@eq_refl (result (list dict) * nat) (Raise TypeError, 2%nat)).
  - unfold null_scored. repeat (apply Forall_cons; split; [eauto|]).
    apply Forall_nil; exact I.
  - unfold null_scored. intros Hi.
    apply Forall_cons in Hi. destruct Hi as [_ Hi].
    apply Forall_cons in Hi. destruct Hi as [Hi _].
    destruct (Hi _ eq_refl) as [Hs|[z Hs]];
      rewrite lookup_singleton_eq in Hs; discriminate.
Qed.

(** * The fallback catalog through the formatter *)

Lemma catalog_int_scored : Forall int_scored get_fallback_data.
Proof.
  unfold get_fallback_data.
  repeat (apply Forall_cons; split;
          [left; eexists; apply startup_dict_lookup|]).
  apply Forall_nil. exact I.
Qed.

Lemma catalog_sorted clock t :
  sorted_desc (stamped clock t get_fallback_data)
  = stamped_catalog_by_score clock t.
Proof.
  vm_cast_no_check (@eq_refl _ (stamped_catalog_by_score clock t)).
Qed.

Lemma format_catalog `{PyOrder} clock t :
  format_startup_data clock get_fallback_data t
  = (Ok (stamped_catalog_by_score clock t), (t + 10)%nat).
Proof.
  rewrite (format_startup_data_ok clock _ t catalog_int_scored).
  rewrite catalog_sorted. reflexivity.
Qed.

Lemma catalog_scores clock t :
  score_of <$> stamped_catalog_by_score clock t
  = [92; 88; 85; 84; 82; 80; 79; 78; 76; 75].
Proof.
  vm_cast_no_check (@eq_refl (list Z) [92; 88; 85; 84; 82; 80; 79; 78; 76; 75]).
Qed.

Lemma catalog_unstamped clock t :
  delete "timestamp" <$> stamped_catalog_by_score clock t = catalog_by_score.
Proof. vm_cast_no_check (@eq_refl _ catalog_by_score). Qed.

Lemma catalog_unstamped_in_order :
  delete "timestamp" <$> stamped fixed_clock 0 get_fallback_data
  = get_fallback_data.
Proof. vm_cast_no_check (@eq_refl _ get_fallback_data). Qed.

Lemma catalog_by_score_perm : Permutation get_fallback_data catalog_by_score.
Proof.
  rewrite <- (catalog_unstamped fixed_clock 0), <- catalog_sorted.
  rewrite <- catalog_unstamped_in_order at 1.
  apply fmap_Permutation, sorted_desc_perm.
Qed.

Lemma catalog_stamps clock t :
  Forall (fun r : dict => exists n, r !! "timestamp" = Some (VStr (clock n)))
    (stamped_catalog_by_score clock t).
Proof.
  unfold stamped_catalog_by_score. apply Forall_fmap, Forall_forall.
  intros i _. cbn. eexists. apply lookup_insert_eq.
Qed.

(** C7.  Formatting the fallback catalog returns exactly ten records with
    the scores 92, 88, 85, 84, 82, 80, 79, 78, 76, 75 in this order; apart
    from the timestamp, which is set from the clock, they are the records
    of the catalog, unchanged. *)
Theorem catalog_round_trip `{PyOrder} (clock : nat -> string) (t : nat) :
  exists out,
    format_startup_data clock get_fallback_data t = (Ok out, (t + 10)%nat)
    /\ length out = 10%nat
    /\ score_of <$> out = [92; 88; 85; 84; 82; 80; 79; 78; 76; 75]
    /\ StronglySorted descending out
    /\ delete "timestamp" <$> out = catalog_by_score
    /\ Permutation get_fallback_data catalog_by_score
    /\ Forall (fun r : dict =>
                 exists n, r !! "timestamp" = Some (VStr (clock n))) out.
Proof.
  exists (stamped_catalog_by_score clock t).
  split; [apply format_catalog|].
  split; [reflexivity|].
  split; [apply catalog_scores|].
  split; [rewrite <- catalog_sorted; apply sorted_desc_sorted|].
  split; [apply catalog_unstamped|].
  split; [apply catalog_by_score_perm | apply catalog_stamps].
Qed.

(** * The orchestrator *)

Lemma try_except_catalog `{PyOrder} clock (body : M (list dict)) t :
  exists out t',
    try_except body (fun _ => format_startup_data clock get_fallback_data) t
    = (Ok out, t').
Proof.
  unfold try_except. destruct (body t) as [[out|e] t'].
  - eauto.
  - rewrite format_catalog. eauto.
Qed.

(** C3.  Whatever the client does, the scan returns a sequence and raises
    nothing.  With no client, or with a client that raises on every query,
    it returns what the formatter makes of the fallback catalog. *)
Theorem scan_never_raises `{PyLimits} `{PyOrder} (clock : nat -> string)
    (client : option (string -> result value)) (t : nat) :
  (exists out t', scan_for_startups clock client t = (Ok out, t'))
  /\ ((client = None \/ exists ask, client = Some ask /\ always_fails ask) ->
      scan_for_startups clock client t
      = format_startup_data clock get_fallback_data t
      /\ exists out,
           scan_for_startups clock client t = (Ok out, (t + 10)%nat)
           /\ delete "timestamp" <$> out = catalog_by_score).
Proof.
  split.
  - destruct client as [ask|]; cbn [scan_for_startups].
    + apply try_except_catalog.
    + rewrite format_catalog. eauto.
  - intros Hc.
    assert (Hscan : scan_for_startups clock client t
                    = format_startup_data clock get_fallback_data t).
    { destruct Hc as [->|(ask & -> & Hask)]; [reflexivity|].
      cbn [scan_for_startups]. unfold try_except, bind, lift.
      destruct (Hask generate_startup_query) as [e ->]. reflexivity. }
    split; [exact Hscan|].
    rewrite Hscan, format_catalog. eexists. split; [reflexivity|].
    apply catalog_unstamped.
Qed.

Lemma scan_witness :
  scan_for_startups fixed_clock (Some unreachable) 0%nat
  = format_startup_data fixed_clock get_fallback_data 0%nat
  /\ exists out,
       scan_for_startups fixed_clock (Some unreachable) 0%nat
       = (Ok out, (0 + 10)%nat)
       /\ delete "timestamp" <$> out = catalog_by_score.
Proof.
  apply (proj2 (scan_never_raises fixed_clock (Some unreachable) 0%nat)).
  right. exists unreachable. split; [reflexivity|].
  intros query. exists RequestException. reflexivity.
Defined.

(** * Facts about filtering *)

Lemma keep_if_filter cond f (items : list dict) :
  Forall (fun d => cond d = Ok (f d)) items ->
  keep_if cond items = Ok (List.filter f items).
Proof.
  induction 1 as [|d items Hd _ IH]; [reflexivity|].
  cbn [keep_if List.filter]. rewrite Hd, IH. cbn [rbind].
  destruct (f d); reflexivity.
Qed.

Lemma fresh_loc_free (h : heap) : h !! fresh (dom h) = None.
Proof. apply not_elem_of_dom, is_fresh. Qed.

(** A comprehension whose condition does not raise allocates the kept
    items and leaves every existing list as it was. *)
Lemma comprehension_ok cond f (loc : nat) (items : list dict) (h : heap) :
  h !! loc = Some items ->
  Forall (fun d => cond d = Ok (f d)) items ->
  exists out h',
    comprehension loc cond h = (Ok out, h')
    /\ h' !! out = Some (List.filter f items)
    /\ h ⊆ h' /\ h !! out = None.
Proof.
  intros Hloc Hc. unfold comprehension, hbind, items_of, new_list.
  rewrite Hloc, (keep_if_filter cond f items Hc).
  eexists _, _. split; [reflexivity|].
  split; [apply lookup_insert_eq|].
  split; [apply insert_subseteq, fresh_loc_free | apply fresh_loc_free].
Qed.

Lemma list_copy_ok (loc : nat) (items : list dict) (h : heap) :
  h !! loc = Some items ->
  exists out h',
    list_copy loc h = (Ok out, h')
    /\ h' !! out = Some items /\ h ⊆ h' /\ h !! out = None.
Proof.
  intros Hloc. unfold list_copy, hbind, items_of, new_list. rewrite Hloc.
  eexists _, _. split; [reflexivity|].
  split; [apply lookup_insert_eq|].
  split; [apply insert_subseteq, fresh_loc_free | apply fresh_loc_free].
Qed.

Lemma filter_all {A} (f : A -> bool) l :
  Forall (fun x => f x = true) l -> List.filter f l = l.
Proof.
  induction 1 as [|x l Hx _ IH]; [reflexivity|].
  cbn. rewrite Hx, IH. reflexivity.
Qed.

Lemma filter_twice {A} (f g : A -> bool) l :
  List.filter g (List.filter f l) = List.filter (fun x => f x && g x) l.
Proof.
  induction l as [|x l IH]; [reflexivity|].
  cbn. destruct (f x); cbn; [destruct (g x)|]; by rewrite IH.
Qed.

Lemma filter_sublist {A} (f : A -> bool) l : sublist (List.filter f l) l.
Proof.
  induction l as [|x l IH]; cbn; [constructor|].
  destruct (f x); [apply sublist_skip | apply sublist_cons]; exact IH.
Qed.

Lemma Forall_filter_list {A} (P : A -> Prop) (f : A -> bool) l :
  Forall P l -> Forall P (List.filter f l).
Proof.
  induction 1 as [|x l Hx _ IH]; cbn; [constructor|].
  destruct (f x); [constructor|]; assumption.
Qed.

Lemma field_is_ok field c d s :
  field_text d field = Some s ->
  field_is field c d = Ok (String.eqb (lower (text_or_empty d field)) (lower c)).
Proof.
  intros Hs. unfold field_is, text_or_empty. rewrite Hs.
  unfold field_text in Hs.
  destruct (get d field (VStr EmptyString)); try discriminate.
  injection Hs as ->. reflexivity.
Qed.

Lemma applies_criterion field c d :
  match applies c with
  | Some c' =>
      criterion_holds field c d
      = String.eqb (lower (text_or_empty d field)) (lower c')
  | None => criterion_holds field c d = true
  end.
Proof.
  unfold applies, criterion_holds. destruct c as [c|]; [|reflexivity].
  destruct (String.eqb c EmptyString); [reflexivity|].
  destruct (String.eqb c "All"); reflexivity.
Qed.

Section FilterFacts.
Context `{PyOrder}.

Lemma score_at_least_ok min_score d :
  d !! "score" = None \/ (exists z, d !! "score" = Some (VInt z)) ->
  score_at_least min_score d = Ok (min_score <=? score_of d).
Proof.
  unfold score_at_least, score_of, get.
  intros [->|[z ->]]; apply py_ge_int.
Qed.

Lemma filter_by_ok field c (loc : nat) (items : list dict) (h : heap) :
  h !! loc = Some items ->
  Forall (fun d => is_Some (field_text d field)) items ->
  exists out h',
    filter_by field c loc h = (Ok out, h')
    /\ h' !! out = Some (List.filter (criterion_holds field c) items)
    /\ h ⊆ h'.
Proof.
  intros Hloc Hf. unfold filter_by.
  pose proof (applies_criterion field c) as Ha.
  destruct (applies c) as [c'|].
  - destruct (comprehension_ok (field_is field c')
                (criterion_holds field c) loc items h Hloc)
      as (out & h' & Hrun & Hout & Hsub & _).
    { eapply Forall_impl; [exact Hf|]. intros d [s Hs].
      rewrite Ha. by apply field_is_ok with s. }
    eauto.
  - exists loc, h. split; [reflexivity|]. split; [|reflexivity].
    rewrite filter_all; [exact Hloc|].
    apply Forall_forall. intros d _. apply Ha.
Qed.

(** The run of [filter_startups] on well-typed records. *)
Lemma filter_startups_ok (h : heap) (startups : nat) (records : list dict)
    (sector funding_stage signal_type : option string) (min_score : Z) :
  h !! startups = Some records ->
  Forall typed_record records ->
  exists out h',
    filter_startups startups sector funding_stage signal_type min_score h
    = (Ok out, h')
    /\ h' !! out
       = Some (List.filter
                 (survives sector funding_stage signal_type min_score)
                 records)
    /\ h ⊆ h' /\ h !! out = None.
Proof.
  intros Hloc Ht. unfold filter_startups.
  destruct (list_copy_ok startups records h Hloc)
    as (l0 & h0 & R0 & O0 & S0 & _).
  unfold hbind at 1. rewrite R0.
  destruct (filter_by_ok "sector" sector l0 records h0 O0)
    as (l1 & h1 & R1 & O1 & S1).
  { eapply Forall_impl; [exact Ht|]. by intros d (? & _). }
  unfold hbind at 1. rewrite R1.
  destruct (filter_by_ok "funding_stage" funding_stage l1 _ h1 O1)
    as (l2 & h2 & R2 & O2 & S2).
  { apply Forall_filter_list. eapply Forall_impl; [exact Ht|].
    by intros d (_ & ? & _). }
  unfold hbind at 1. rewrite R2.
  destruct (filter_by_ok "signal_type" signal_type l2 _ h2 O2)
    as (l3 & h3 & R3 & O3 & S3).
  { do 2 apply Forall_filter_list. eapply Forall_impl; [exact Ht|].
    by intros d (_ & _ & ? & _). }
  unfold hbind at 1. rewrite R3.
  destruct (comprehension_ok (score_at_least min_score)
              (fun d => min_score <=? score_of d) l3 _ h3 O3)
    as (l4 & h4 & R4 & O4 & S4 & N4).
  { do 3 apply Forall_filter_list. eapply Forall_impl; [exact Ht|].
    intros d (_ & _ & _ & Hs). by apply score_at_least_ok. }
  exists l4, h4. split; [exact R4|].
  split.
  - rewrite O4, !filter_twice. f_equal. apply List.filter_ext.
    intros d. unfold survives. by rewrite !andb_assoc.
  - split.
    + etrans; [exact S0|]. etrans; [exact S1|]. etrans; [exact S2|].
      etrans; [exact S3 | exact S4].
    + destruct (h !! l4) as [x|] eqn:E; [|reflexivity].
      assert (h3 !! l4 = Some x) as E3.
      { eapply lookup_weaken; [exact E|].
        etrans; [exact S0|]. etrans; [exact S1|]. etrans; [exact S2|].
        exact S3. }
      congruence.
Qed.

End FilterFacts.

Lemma filter_all_inv {A} (f : A -> bool) l :
  List.filter f l = l -> Forall (fun x => f x = true) l.
Proof.
  induction l as [|x l IH]; intros Hf; [apply Forall_nil; exact I|].
  cbn [List.filter] in Hf. destruct (f x) eqn:Hx.
  - injection Hf as Hf. apply Forall_cons. split; [exact Hx | exact (IH Hf)].
  - pose proof (List.filter_length_le f l) as Hle.
    rewrite Hf in Hle. cbn [length] in Hle. lia.
Qed.

(** C8 (amended).  On every list of records typed as the data model says,
    the filter returns a new list holding exactly the records that satisfy
    all the criteria together (sector, funding stage and signal type, each
    when given, not empty and not the sentinel All, compared with the
    field without regard to case, and the score at least the minimum), in
    the order of the input.  The input list and every other existing list
    are left as they were.  With no criterion and a minimum of 0 the
    result holds the records whose score, 0 when missing, is not
    negative; it equals the input exactly when no score is negative. *)
Theorem filter_keeps_the_matching_records `{PyOrder} (h : heap)
    (startups : nat) (records : list dict)
    (sector funding_stage signal_type : option string) (min_score : Z) :
  h !! startups = Some records ->
  Forall typed_record records ->
  exists out h' kept,
    filter_startups startups sector funding_stage signal_type min_score h
    = (Ok out, h')
    /\ h' !! out = Some kept
    /\ kept = List.filter (survives sector funding_stage signal_type min_score)
                records
    /\ sublist kept records
    /\ h ⊆ h'
    /\ h' !! startups = Some records
    /\ out <> startups
    /\ (applies sector = None -> applies funding_stage = None ->
        applies signal_type = None -> min_score = 0 ->
        kept = List.filter (fun d => 0 <=? score_of d) records
        /\ (Forall (fun d => 0 <= score_of d) records <-> kept = records)).
Proof.
  intros Hloc Ht.
  destruct (filter_startups_ok h startups records sector funding_stage
              signal_type min_score Hloc Ht) as (out & h' & Hrun & Hout & Hsub & Hnew).
  exists out, h', (List.filter (survives sector funding_stage signal_type min_score) records).
  split; [exact Hrun|]. split; [exact Hout|]. split; [reflexivity|].
  split; [apply filter_sublist|]. split; [exact Hsub|].
  split; [eapply lookup_weaken; eassumption|].
  split; [intros ->; congruence|].
  intros Hs Hf Hg ->.
  assert (Hsurv : forall d, survives sector funding_stage signal_type 0 d
                            = (0 <=? score_of d)).
  { intros d. unfold survives.
    pose proof (applies_criterion "sector" sector d) as H1.
    pose proof (applies_criterion "funding_stage" funding_stage d) as H2.
    pose proof (applies_criterion "signal_type" signal_type d) as H3.
    rewrite Hs in H1. rewrite Hf in H2. rewrite Hg in H3.
    rewrite H1, H2, H3. reflexivity. }
  rewrite (List.filter_ext _ _ Hsurv). split; [reflexivity|]. split.
  - intros Hz. apply filter_all.
    eapply Forall_impl; [exact Hz|]. intros d Hd. apply Z.leb_le, Hd.
  - intros Hk. apply filter_all_inv in Hk.
    eapply Forall_impl; [exact Hk|]. intros d Hd. apply Z.leb_le, Hd.
Qed.

(** Settles that the records of a concrete list are well typed. *)
Ltac typed_records :=
  repeat (apply Forall_cons; split;
          [repeat split; try (eexists; reflexivity);
           first [left; reflexivity | right; eexists; reflexivity] |]);
  apply Forall_nil; exact I.

Lemma filter_witness :
  exists out h' kept,
    filter_startups 0%nat (Some "cybersecurity") None (Some "All") 80
      sample_heap
    = (Ok out, h')
    /\ h' !! out = Some kept
    /\ kept = List.filter (survives (Some "cybersecurity") None (Some "All") 80)
                sample_records
    /\ sublist kept sample_records
    /\ sample_heap ⊆ h'
    /\ h' !! 0%nat = Some sample_records
    /\ out <> 0%nat
    /\ (applies (Some "cybersecurity") = None -> applies None = None ->
        applies (Some "All") = None -> 80 = 0 ->
        kept = List.filter (fun d => 0 <=? score_of d) sample_records
        /\ (Forall (fun d => 0 <= score_of d) sample_records
            <-> kept = sample_records)).
Proof.
  apply (filter_keeps_the_matching_records sample_heap 0%nat sample_records).
  - reflexivity.
  - unfold sample_records. typed_records.
Defined.

(** C8 (as stated) fails: with no criterion and the default minimum, a
    record typed as the data model says whose score is -1 is left out,
    and the result is not the input. *)
Lemma negative_score_is_dropped :
  Forall typed_record [loss_record]
  /\ exists out h',
       filter_startups 0%nat None None None 0 loss_heap = (Ok out, h')
       /\ h' !! out = Some []
       /\ h' !! 0%nat = Some [loss_record].
Proof.
  assert (Ht : Forall typed_record [loss_record])
    by (unfold loss_record; typed_records).
  split; [exact Ht|].
  destruct (filter_startups_ok loss_heap 0%nat [loss_record] None None None 0
              eq_refl Ht) as (out & h' & Hrun & Hout & Hsub & Hnew).
  exists out, h'. split; [exact Hrun|]. split; [exact Hout|].
  eapply lookup_weaken; [|exact Hsub]. reflexivity.
Qed.

(** C10.  A record without a score is compared as if its score were 0: it
    is kept exactly when the minimum is at most 0 and it satisfies the
    other criteria given. *)
Theorem missing_score_counts_as_zero `{PyOrder} (h : heap) (startups : nat)
    (records : list dict) (sector funding_stage signal_type : option string)
    (min_score : Z) (d : dict) :
  h !! startups = Some records ->
  Forall typed_record records ->
  d ∈ records ->
  d !! "score" = None ->
  score_at_least min_score d = Ok (min_score <=? 0)
  /\ exists out h' kept,
       filter_startups startups sector funding_stage signal_type min_score h
       = (Ok out, h')
       /\ h' !! out = Some kept
       /\ (d ∈ kept <->
           min_score <= 0
           /\ criterion_holds "sector" sector d = true
           /\ criterion_holds "funding_stage" funding_stage d = true
           /\ criterion_holds "signal_type" signal_type d = true).
Proof.
  intros Hloc Ht Hd Hn.
  assert (Hz : score_of d = 0) by (unfold score_of; rewrite Hn; reflexivity).
  split.
  - rewrite score_at_least_ok by (left; exact Hn). rewrite Hz. reflexivity.
  - destruct (filter_startups_ok h startups records sector funding_stage
                signal_type min_score Hloc Ht) as (out & h' & Hrun & Hout & _).
    eexists out, h', _. split; [exact Hrun|]. split; [exact Hout|].
    rewrite list_elem_of_In, filter_In, <- list_elem_of_In.
    unfold survives. rewrite !andb_true_iff, Hz, Z.leb_le. tauto.
Qed.

Lemma missing_score_witness :
  score_at_least 80 unscored_record = Ok (80 <=? 0)
  /\ exists out h' kept,
       filter_startups 1%nat None None None 80 unscored_heap = (Ok out, h')
       /\ h' !! out = Some kept
       /\ (unscored_record ∈ kept <->
           80 <= 0
           /\ criterion_holds "sector" None unscored_record = true
           /\ criterion_holds "funding_stage" None unscored_record = true
           /\ criterion_holds "signal_type" None unscored_record = true).
Proof.
  apply (missing_score_counts_as_zero unscored_heap 1%nat [unscored_record]).
  - reflexivity.
  - typed_records.
  - left.
  - reflexivity.
Defined.

(** * The examples of the specification

    Where an example runs the decoder, it runs it with the limits of a
    default interpreter. *)

Example tier1_example :
  extract acme_json_text
  = Ok (VList [VDict (<["name" := VStr "Acme"]> (<["score" := VInt 90]> ∅))])
  /\ names (parse_saas_startups_response acme_json_text) = [VStr "Acme"]
  /\ (score_of <$> default [] (match parse_saas_startups_response acme_json_text with Ok l => Some l | Raise _ => None end)) = [90].
Proof.
  refine (conj _ (conj _ _)).
  - vm_cast_no_check (@eq_refl (result value)
      (Ok (VList [VDict (<["name" := VStr "Acme"]> (<["score" := VInt 90]> ∅))]))).
  - vm_cast_no_check (@eq_refl (list value) [VStr "Acme"]).
  - vm_cast_no_check (@eq_refl (list Z) [90]).
Qed.

Example filter_examples :
  names (filtered (stamped_catalog_by_score fixed_clock 0)
           (Some "Cybersecurity") None None 0)
  = [VStr "DataVault Security"]
  /\ names (filtered (stamped_catalog_by_score fixed_clock 0) None None None 85)
     = [VStr "DataVault Security"; VStr "HealthAI Connect";
        VStr "TechFlow Analytics"]
  /\ filtered (stamped_catalog_by_score fixed_clock 0) None None None 0
     = Ok (stamped_catalog_by_score fixed_clock 0).
Proof.
  refine (conj _ (conj _ _)).
  - vm_cast_no_check (@eq_refl (list value) [VStr "DataVault Security"]).
  - vm_cast_no_check (@eq_refl (list value)
      [VStr "DataVault Security"; VStr "HealthAI Connect";
       VStr "TechFlow Analytics"]).
  - vm_cast_no_check (@eq_refl (result (list dict))
      (Ok (stamped_catalog_by_score fixed_clock 0))).
Qed.

(** * More about the parser and validation *)

Lemma validated_startup_dom d : dom (validated_startup d) = startup_keys.
Proof.
  unfold validated_startup, startup_keys.
  rewrite dom_list_to_map_L. reflexivity.
Qed.

Lemma validate_dom items :
  Forall (fun d : dict => dom d = startup_keys) (validate items).
Proof.
  apply Forall_forall. intros r Hr.
  apply elem_of_validate in Hr. destruct Hr as (d & _ & ->).
  apply validated_startup_dom.
Qed.

(** X1.  Whatever the text, the parser returns a list in which each
    dictionary has exactly the eight keys name, description,
    growth_reason, source_link, sector, funding_stage, signal_type and
    score, or it raises the [RecursionError] or the [ValueError] that
    [json.loads] raises at the limits of the interpreter; on text within
    those limits it returns such a list. *)
Theorem parser_records_have_the_eight_keys `{PyLimits} (text : string) :
  ((exists l,
      parse_saas_startups_response text = Ok l
      /\ Forall (fun d : dict => dom d = startup_keys) l)
   \/ parse_saas_startups_response text = Raise RecursionError
   \/ parse_saas_startups_response text = Raise ValueError)
  /\ (within_limits text ->
      exists l,
        parse_saas_startups_response text = Ok l
        /\ Forall (fun d : dict => dom d = startup_keys) l).
Proof.
  split.
  - destruct (parse_outcome text) as [[items Hp]|[Hp|Hp]]; auto.
    left. eexists. split; [exact Hp | apply validate_dom].
  - intros Hw. destruct (parse_within text Hw) as [items Hp].
    eexists. split; [exact Hp | apply validate_dom].
Qed.

Lemma parser_records_witness :
  exists l,
    parse_saas_startups_response "[oops]" = Ok l
    /\ Forall (fun d : dict => dom d = startup_keys) l.
Proof.
  apply (proj2 (parser_records_have_the_eight_keys "[oops]")).
  exact oops_within.
Defined.

Lemma validated_startup_idem d :
  validated_startup (validated_startup d) = validated_startup d.
Proof.
  destruct (validated_startup_lookup d) as (H1 & H2 & H3 & H4 & H5 & H6 & H7 & H8).
  unfold validated_startup at 1. unfold get.
  rewrite H1, H2, H3, H4, H5, H6, H7, H8. reflexivity.
Qed.

Lemma validate_fixed (l : list dict) :
  Forall (fun d => validated_startup d = d) l -> validate (VDict <$> l) = l.
Proof.
  induction 1 as [|d l Hd _ IH]; [reflexivity|].
  cbn [fmap list_fmap validate as_dict]. rewrite Hd. f_equal. exact IH.
Qed.

(** X2.  Validating a list that is already the result of validation gives
    it back unchanged. *)
Theorem validate_is_idempotent (items : list value) :
  validate (VDict <$> validate items) = validate items.
Proof.
  apply validate_fixed, Forall_forall. intros r Hr.
  apply elem_of_validate in Hr. destruct Hr as (d & _ & ->).
  apply validated_startup_idem.
Qed.

(** * More about the scorer *)

Lemma score_spec_unclamped fs st sec :
  score_spec fs st sec
  = 50 + stage_bonus fs + signal_bonus st + sector_bonus sec
  /\ 50 <= score_spec fs st sec <= 100.
Proof.
  unfold score_spec, stage_bonus, signal_bonus, sector_bonus, clamp.
  repeat match goal with
         | |- context [if ?b then _ else _] => destruct b
         end; lia.
Qed.

Lemma lower_of_not_text d k :
  field_text d k = None ->
  lower_of (get d k (VStr EmptyString)) = Raise AttributeError.
Proof.
  unfold field_text. destruct (get d k (VStr EmptyString)); try discriminate;
    reflexivity.
Qed.

Lemma calculate_growth_score_raises d :
  Exists (fun k => field_text d k = None) scorer_fields ->
  calculate_growth_score d = Raise AttributeError.
Proof.
  unfold scorer_fields. intros Hex. unfold calculate_growth_score.
  destruct (field_text d "funding_stage") as [fs|] eqn:Hf;
    [rewrite (field_text_get _ _ _ Hf)
    |rewrite (lower_of_not_text _ _ Hf); reflexivity].
  destruct (field_text d "signal_type") as [st|] eqn:Hs;
    [rewrite (field_text_get _ _ _ Hs)
    |rewrite (lower_of_not_text _ _ Hs); reflexivity].
  destruct (field_text d "sector") as [sec|] eqn:Hc;
    [|rewrite (lower_of_not_text _ _ Hc); reflexivity].
  exfalso.
  repeat match goal with
         | H : Exists _ (_ :: _) |- _ => apply Exists_cons in H; destruct H as [H|H]
         | H : Exists _ [] |- _ => apply Exists_nil in H; destruct H
         end; congruence.
Qed.

(** X3.  When the three fields the scorer reads are strings or missing, the
    scorer returns 50 plus the three bonuses, a number from 50 to 100, so
    that the final clamp never changes the sum.  When one of the three is
    present and is not a string, the scorer raises AttributeError. *)
Theorem scorer_returns_50_to_100_or_raises (d : dict) :
  (Forall (fun k => is_Some (field_text d k)) scorer_fields ->
   exists z,
     calculate_growth_score d = Ok z
     /\ z = 50 + stage_bonus (text_or_empty d "funding_stage")
            + signal_bonus (text_or_empty d "signal_type")
            + sector_bonus (text_or_empty d "sector")
     /\ 50 <= z <= 100)
  /\ (Exists (fun k => field_text d k = None) scorer_fields ->
      calculate_growth_score d = Raise AttributeError).
Proof.
  split; [|apply calculate_growth_score_raises].
  unfold scorer_fields. intros Hall.
  apply Forall_cons in Hall. destruct Hall as [[fs Hf] Hall].
  apply Forall_cons in Hall. destruct Hall as [[st Hs] Hall].
  apply Forall_cons in Hall. destruct Hall as [[sec Hc] _].
  rewrite (calculate_growth_score_ok d fs st sec Hf Hs Hc).
  unfold text_or_empty. rewrite Hf, Hs, Hc. cbn [default].
  eexists. split; [reflexivity | apply score_spec_unclamped].
Qed.

Lemma scorer_range_witness :
  (exists z,
     calculate_growth_score top_scored = Ok z
     /\ z = 50 + stage_bonus (text_or_empty top_scored "funding_stage")
            + signal_bonus (text_or_empty top_scored "signal_type")
            + sector_bonus (text_or_empty top_scored "sector")
     /\ 50 <= z <= 100)
  /\ calculate_growth_score top_scored = Ok 100
  /\ calculate_growth_score ∅ = Ok 50.
Proof.
  split; [|split; reflexivity].
  apply (proj1 (scorer_returns_50_to_100_or_raises top_scored)).
  unfold scorer_fields.
  repeat (apply Forall_cons; split; [eexists; reflexivity|]).
  apply Forall_nil; exact I.
Defined.

Lemma ci_in_lower_eq needle s s' : lower s = lower s' -> ci_in needle s = ci_in needle s'.
Proof. unfold ci_in. by intros ->. Qed.

Lemma score_spec_case fs fs' st st' sec sec' :
  lower fs = lower fs' -> lower st = lower st' -> lower sec = lower sec' ->
  score_spec fs st sec = score_spec fs' st' sec'.
Proof.
  intros Hf Hs Hc.
  unfold score_spec, stage_bonus, signal_bonus, sector_bonus.
  rewrite !(ci_in_lower_eq _ fs fs' Hf), !(ci_in_lower_eq _ st st' Hs),
    !(ci_in_lower_eq _ sec sec' Hc). reflexivity.
Qed.

(** X4.  Two startups whose funding stage, signal type and sector are the
    same texts up to the case of the letters get the same score. *)
Theorem scorer_ignores_case (d d' : dict) :
  Forall (same_up_to_case d d') scorer_fields ->
  calculate_growth_score d = calculate_growth_score d'.
Proof.
  unfold scorer_fields. intros Hall.
  apply Forall_cons in Hall. destruct Hall as [(fs & fs' & Hf & Hf' & Ef) Hall].
  apply Forall_cons in Hall. destruct Hall as [(st & st' & Hs & Hs' & Es) Hall].
  apply Forall_cons in Hall. destruct Hall as [(sec & sec' & Hc & Hc' & Ec) _].
  rewrite (calculate_growth_score_ok d fs st sec Hf Hs Hc).
  rewrite (calculate_growth_score_ok d' fs' st' sec' Hf' Hs' Hc').
  f_equal. by apply score_spec_case.
Qed.

Lemma scorer_case_witness :
  calculate_growth_score series_a_funding_cybersecurity
  = calculate_growth_score series_a_in_capitals.
Proof.
  apply (scorer_ignores_case series_a_funding_cybersecurity series_a_in_capitals).
  unfold scorer_fields.
  repeat (apply Forall_cons; split;
          [eexists _, _; split; [reflexivity|]; split; reflexivity|]).
  apply Forall_nil; exact I.
Defined.

(** * More about the formatter *)

Lemma insert_by_score_least x l :
  Forall (ascending x) l -> insert_by_score x l = x :: l.
Proof.
  destruct 1 as [|y l Hy _]; [reflexivity|].
  cbn [insert_by_score]. unfold ascending in Hy.
  destruct (Z.ltb_spec (score_of y) (score_of x)); [lia | reflexivity].
Qed.

Lemma sort_by_score_sorted_id l :
  StronglySorted ascending l -> sort_by_score l = l.
Proof.
  induction 1 as [|x l _ IH Hall]; [reflexivity|].
  cbn [sort_by_score]. rewrite IH. apply insert_by_score_least, Hall.
Qed.

(** Sorting a list that is in descending order of score leaves it as it
    is. *)
Lemma sorted_desc_id l : StronglySorted descending l -> sorted_desc l = l.
Proof.
  intros Hs. unfold sorted_desc.
  rewrite sort_by_score_sorted_id; [apply rev_involutive|].
  apply (StronglySorted_rev descending) in Hs.
  exact Hs.
Qed.

Lemma scored_id d : has_int_score d -> scored d = d.
Proof. intros [z Hz]. unfold scored. rewrite Hz. reflexivity. Qed.

Lemma score_of_stamp ts (d : dict) :
  score_of (<["timestamp" := VStr ts]> d) = score_of d.
Proof. unfold score_of. rewrite lookup_insert_ne by discriminate. reflexivity. Qed.

(** Stamping records that have a score changes nothing but the
    timestamp. *)
Lemma stamped_scores clock l : forall t,
  Forall has_int_score l ->
  score_of <$> stamped clock t l = score_of <$> l
  /\ delete "timestamp" <$> stamped clock t l = delete "timestamp" <$> l.
Proof.
  induction l as [|d l IH]; intros t Hl; [split; reflexivity|].
  inversion Hl as [|? ? Hd Hl']; subst.
  destruct (IH (S t) Hl') as [IH1 IH2].
  cbn [stamped fmap list_fmap]. rewrite (scored_id d Hd), score_of_stamp.
  split; f_equal; try assumption.
  apply delete_insert_eq.
Qed.

Lemma StronglySorted_fmap_eq {A} (f : A -> Z) (l l' : list A) :
  f <$> l = f <$> l' ->
  StronglySorted (fun a b => f b <= f a) l ->
  StronglySorted (fun a b => f b <= f a) l'.
Proof.
  revert l'. induction l as [|x l IH]; intros [|x' l'] Heq Hs;
    try discriminate; [constructor|].
  cbn in Heq. injection Heq as Hx Hl.
  inversion Hs as [|? ? Hs' Hall]; subst.
  constructor; [apply IH; assumption|].
  apply Forall_forall. intros y' Hy'.
  apply list_elem_of_fmap_2 with (f := f) in Hy'. rewrite <- Hl in Hy'.
  apply list_elem_of_fmap in Hy'. destruct Hy' as (y & Hfy & Hy).
  rewrite Forall_forall in Hall. specialize (Hall y Hy). cbn in Hall. lia.
Qed.

(** X5.  Formatting a list the formatter returned keeps the order of the
    records and every field but the timestamp, which is read again from
    the clock. *)
Theorem formatting_again_only_restamps `{PyOrder} (clock : nat -> string)
    (l : list dict) (t t' : nat) :
  Forall int_scored l ->
  exists out out',
    format_startup_data clock l t = (Ok out, (t + length l)%nat)
    /\ format_startup_data clock out t' = (Ok out', (t' + length l)%nat)
    /\ out' = stamped clock t' out
    /\ delete "timestamp" <$> out' = delete "timestamp" <$> out
    /\ score_of <$> out' = score_of <$> out.
Proof.
  intros Hl.
  set (out := sorted_desc (stamped clock t l)).
  assert (Hint : Forall has_int_score out).
  { unfold out. rewrite <- sorted_desc_perm. by apply stamped_has_int_score. }
  assert (Hlen : length out = length l).
  { unfold out. rewrite <- (Permutation_length (sorted_desc_perm _)).
    apply stamped_length. }
  destruct (stamped_scores clock out t' Hint) as [Hsc Hdel].
  assert (Hsorted : sorted_desc (stamped clock t' out) = stamped clock t' out).
  { apply sorted_desc_id.
    apply (StronglySorted_fmap_eq score_of out); [by symmetry|].
    apply sorted_desc_sorted. }
  exists out, (stamped clock t' out).
  split; [by apply format_startup_data_ok|].
  split.
  - rewrite format_startup_data_ok, Hsorted, Hlen; [reflexivity|].
    eapply Forall_impl; [exact Hint|]. intros d Hd. left. exact Hd.
  - split; [reflexivity|]. split; assumption.
Qed.

Lemma format_loop_raises clock (good : list dict) (d : dict) (rest : list dict) :
  forall t,
    Forall int_scored good ->
    d !! "score" = None ->
    Exists (fun k => field_text d k = None) scorer_fields ->
    format_loop clock (good ++ d :: rest) t
    = (Raise AttributeError, (t + length good)%nat).
Proof.
  induction good as [|g good IH]; intros t Hg Hn Hex.
  - cbn [app format_loop length]. unfold bind at 1, format_one, bind at 1, lift.
    rewrite Hn, (calculate_growth_score_raises d Hex). f_equal. lia.
  - inversion Hg as [|? ? Hg1 Hg2]; subst.
    cbn [app format_loop length]. unfold bind at 1.
    rewrite (format_one_ok clock g t Hg1). unfold bind at 1.
    rewrite (IH (S t) Hg2 Hn Hex). f_equal. lia.
Qed.

(** X6.  When the first dictionary the formatter cannot score (no score,
    and one of the three scorer fields present but not a string) comes
    after dictionaries it can score, the formatter raises AttributeError
    after one reading of the clock for each of the earlier dictionaries. *)
Theorem formatter_raises_on_unscorable `{PyOrder} (clock : nat -> string)
    (good : list dict) (d : dict) (rest : list dict) (t : nat) :
  Forall int_scored good ->
  d !! "score" = None ->
  Exists (fun k => field_text d k = None) scorer_fields ->
  format_startup_data clock (good ++ d :: rest) t
  = (Raise AttributeError, (t + length good)%nat).
Proof.
  intros Hg Hn Hex. unfold format_startup_data, bind.
  rewrite (format_loop_raises clock good d rest t Hg Hn Hex). reflexivity.
Qed.

Lemma formatting_again_witness :
  exists out out',
    format_startup_data fixed_clock get_fallback_data 0%nat
    = (Ok out, (0 + length get_fallback_data)%nat)
    /\ format_startup_data fixed_clock out 5%nat
       = (Ok out', (5 + length get_fallback_data)%nat)
    /\ out' = stamped fixed_clock 5 out
    /\ delete "timestamp" <$> out' = delete "timestamp" <$> out
    /\ score_of <$> out' = score_of <$> out.
Proof.
  apply (formatting_again_only_restamps fixed_clock get_fallback_data 0%nat 5%nat).
  exact catalog_int_scored.
Defined.

Lemma formatter_raises_witness :
  format_startup_data fixed_clock
    ([<["score" := VInt 80]> ∅] ++ <["sector" := VNone]> ∅ :: []) 0%nat
  = (Raise AttributeError, (0 + length [<["score" := VInt 80]> (∅ : dict)])%nat).
Proof.
  apply (formatter_raises_on_unscorable fixed_clock
           [<["score" := VInt 80]> ∅] (<["sector" := VNone]> ∅) [] 0%nat).
  - apply Forall_cons; split; [left; eexists; reflexivity|].
    apply Forall_nil; exact I.
  - reflexivity.
  - unfold scorer_fields. do 2 apply Exists_cons_tl. apply Exists_cons_hd.
    reflexivity.
Defined.

(** * More about filtering *)

Lemma typed_record_filter (f : dict -> bool) records :
  Forall typed_record records -> Forall typed_record (List.filter f records).
Proof. apply Forall_filter_list. Qed.

Lemma filter_same {A} (f : A -> bool) l :
  List.filter f (List.filter f l) = List.filter f l.
Proof.
  rewrite filter_twice. apply List.filter_ext. intros x. by destruct (f x).
Qed.

(** X7.  Filtering the list a filter returned keeps the records that meet
    both sets of criteria; the first result and the input list are left as
    they were, and filtering again with the same criteria keeps
    everything. *)
Theorem filters_compose `{PyOrder} (h : heap) (startups : nat)
    (records : list dict) (a b : criteria) :
  h !! startups = Some records ->
  Forall typed_record records ->
  exists out1 h1 out2 h2,
    filter_with a startups h = (Ok out1, h1)
    /\ filter_with b out1 h1 = (Ok out2, h2)
    /\ h2 !! out2 = Some (List.filter (fun d => meets a d && meets b d) records)
    /\ h2 !! out1 = Some (List.filter (meets a) records)
    /\ h2 !! startups = Some records
    /\ (a = b -> h2 !! out2 = h2 !! out1).
Proof.
  intros Hloc Ht. unfold filter_with.
  destruct (filter_startups_ok h startups records (by_sector a)
              (by_funding_stage a) (by_signal_type a) (at_least a) Hloc Ht)
    as (out1 & h1 & R1 & O1 & S1 & _).
  destruct (filter_startups_ok h1 out1 _ (by_sector b)
              (by_funding_stage b) (by_signal_type b) (at_least b) O1
              (typed_record_filter _ _ Ht))
    as (out2 & h2 & R2 & O2 & S2 & _).
  assert (O1' : h2 !! out1 = Some (List.filter (meets a) records))
    by (eapply lookup_weaken; eassumption).
  exists out1, h1, out2, h2.
  split; [exact R1|]. split; [exact R2|].
  split; [rewrite O2, filter_twice; reflexivity|].
  split; [exact O1'|].
  split; [eapply lookup_weaken; [|exact S2]; eapply lookup_weaken; eassumption|].
  intros <-. rewrite O1', O2. f_equal. apply filter_same.
Qed.

Lemma filters_compose_witness :
  exists out1 h1 out2 h2,
    filter_with cybersecurity_only 0%nat sample_heap = (Ok out1, h1)
    /\ filter_with scored_80_up out1 h1 = (Ok out2, h2)
    /\ h2 !! out2
       = Some (List.filter
                 (fun d => meets cybersecurity_only d && meets scored_80_up d)
                 sample_records)
    /\ h2 !! out1 = Some (List.filter (meets cybersecurity_only) sample_records)
    /\ h2 !! 0%nat = Some sample_records
    /\ (cybersecurity_only = scored_80_up -> h2 !! out2 = h2 !! out1).
Proof.
  apply (filters_compose sample_heap 0%nat sample_records).
  - reflexivity.
  - unfold sample_records. typed_records.
Defined.

Lemma leb_filter_sublist (f g : dict -> bool) l :
  (forall d, g d = true -> f d = true) ->
  sublist (List.filter g l) (List.filter f l).
Proof.
  intros Hfg. induction l as [|x l IH]; cbn; [constructor|].
  destruct (g x) eqn:Hg.
  - rewrite (Hfg x Hg). by apply sublist_skip.
  - destruct (f x); [by apply sublist_cons | exact IH].
Qed.

(** X8.  With the other criteria fixed, the records kept for a higher
    minimum score are among the records kept for a lower one, in the same
    order. *)
Theorem raising_the_minimum_narrows `{PyOrder} (h : heap) (startups : nat)
    (records : list dict) (sector funding_stage signal_type : option string)
    (low high : Z) :
  h !! startups = Some records ->
  Forall typed_record records ->
  low <= high ->
  exists out1 h1 kept1 out2 h2 kept2,
    filter_startups startups sector funding_stage signal_type low h
    = (Ok out1, h1)
    /\ h1 !! out1 = Some kept1
    /\ filter_startups startups sector funding_stage signal_type high h
       = (Ok out2, h2)
    /\ h2 !! out2 = Some kept2
    /\ sublist kept2 kept1.
Proof.
  intros Hloc Ht Hle.
  destruct (filter_startups_ok h startups records sector funding_stage
              signal_type low Hloc Ht) as (out1 & h1 & R1 & O1 & _).
  destruct (filter_startups_ok h startups records sector funding_stage
              signal_type high Hloc Ht) as (out2 & h2 & R2 & O2 & _).
  eexists out1, h1, _, out2, h2, _.
  split; [exact R1|]. split; [exact O1|]. split; [exact R2|].
  split; [exact O2|].
  apply leb_filter_sublist. intros d. unfold survives.
  rewrite !andb_true_iff, !Z.leb_le. intuition lia.
Qed.

Lemma raising_the_minimum_witness :
  exists out1 h1 kept1 out2 h2 kept2,
    filter_startups 0%nat None None None 60 sample_heap = (Ok out1, h1)
    /\ h1 !! out1 = Some kept1
    /\ filter_startups 0%nat None None None 80 sample_heap = (Ok out2, h2)
    /\ h2 !! out2 = Some kept2
    /\ sublist kept2 kept1.
Proof.
  apply (raising_the_minimum_narrows sample_heap 0%nat sample_records).
  - reflexivity.
  - unfold sample_records. typed_records.
  - lia.
Defined.

(** * Filtering records that are not well typed *)

Lemma keep_if_raises cond (items : list dict) :
  Forall (fun d => (exists b, cond d = Ok b) \/ cond d = Raise AttributeError)
    items ->
  Exists (fun d => cond d = Raise AttributeError) items ->
  keep_if cond items = Raise AttributeError.
Proof.
  induction 1 as [|d items Hd _ IH]; intros Hex.
  - by apply Exists_nil in Hex.
  - cbn [keep_if]. destruct Hd as [[b Hb]|Hr].
    + rewrite Hb. cbn [rbind]. rewrite IH; [reflexivity|].
      apply Exists_cons in Hex. destruct Hex as [Hex|Hex]; [congruence|exact Hex].
    + rewrite Hr. reflexivity.
Qed.

Lemma field_is_raises field c d :
  field_text d field = None -> field_is field c d = Raise AttributeError.
Proof. intros Hs. unfold field_is. by rewrite (lower_of_not_text _ _ Hs). Qed.

Lemma field_is_cases field c d :
  (exists b, field_is field c d = Ok b)
  \/ field_is field c d = Raise AttributeError.
Proof.
  destruct (field_text d field) as [s|] eqn:Hs.
  - left. eexists. by apply field_is_ok with s.
  - right. by apply field_is_raises.
Qed.

(** X9.  When a sector criterion applies and some record has a sector that
    is not a string, the filter raises AttributeError; the input list is
    left as it was. *)
Theorem sector_filter_raises_on_untyped_sector `{PyOrder} (h : heap)
    (startups : nat) (records : list dict) (sector : string)
    (funding_stage signal_type : option string) (min_score : Z) :
  h !! startups = Some records ->
  applies (Some sector) = Some sector ->
  Exists (fun d => field_text d "sector" = None) records ->
  exists h',
    filter_startups startups (Some sector) funding_stage signal_type
      min_score h
    = (Raise AttributeError, h')
    /\ h' !! startups = Some records.
Proof.
  intros Hloc Happ Hex. unfold filter_startups.
  destruct (list_copy_ok startups records h Hloc)
    as (l0 & h0 & R0 & O0 & S0 & _).
  unfold hbind at 1. rewrite R0. unfold hbind at 1, filter_by.
  rewrite Happ. unfold comprehension, hbind, items_of. rewrite O0.
  rewrite (keep_if_raises (field_is "sector" sector) records).
  - exists h0. split; [reflexivity|]. eapply lookup_weaken; eassumption.
  - apply Forall_forall. intros d _. apply field_is_cases.
  - eapply Exists_impl; [exact Hex|]. intros d Hd. by apply field_is_raises.
Qed.

(** X10.  When no category criterion applies (each is None, empty or All),
    the filter does not read the category fields: on records whose scores
    are integers or missing it returns the records whose score is at least
    the minimum, whatever their other fields hold. *)
Theorem score_filter_never_reads_categories `{PyOrder} (h : heap)
    (startups : nat) (records : list dict)
    (sector funding_stage signal_type : option string) (min_score : Z) :
  h !! startups = Some records ->
  Forall score_typed records ->
  applies sector = None ->
  applies funding_stage = None ->
  applies signal_type = None ->
  exists out h',
    filter_startups startups sector funding_stage signal_type min_score h
    = (Ok out, h')
    /\ h' !! out = Some (List.filter (fun d => min_score <=? score_of d) records)
    /\ h' !! startups = Some records.
Proof.
  intros Hloc Ht Hs Hf Hg. unfold filter_startups.
  destruct (list_copy_ok startups records h Hloc)
    as (l0 & h0 & R0 & O0 & S0 & _).
  unfold hbind at 1. rewrite R0.
  unfold filter_by. rewrite Hs, Hf, Hg. unfold hbind, hret.
  destruct (comprehension_ok (score_at_least min_score)
              (fun d => min_score <=? score_of d) l0 records h0 O0)
    as (l4 & h4 & R4 & O4 & S4 & _).
  { eapply Forall_impl; [exact Ht|]. intros d Hd. by apply score_at_least_ok. }
  exists l4, h4. split; [exact R4|]. split; [exact O4|].
  eapply lookup_weaken; [|exact S4]. eapply lookup_weaken; eassumption.
Qed.

Lemma sector_filter_raises_witness :
  exists h',
    filter_startups 0%nat (Some "Energy") None None 0 null_sector_heap
    = (Raise AttributeError, h')
    /\ h' !! 0%nat = Some null_sector_records.
Proof.
  apply (sector_filter_raises_on_untyped_sector null_sector_heap 0%nat
           null_sector_records "Energy" None None 0).
  - reflexivity.
  - reflexivity.
  - apply Exists_cons_hd. reflexivity.
Defined.

Lemma score_filter_witness :
  exists out h',
    filter_startups 0%nat None (Some "All") (Some EmptyString) 50
      null_sector_heap
    = (Ok out, h')
    /\ h' !! out
       = Some (List.filter (fun d => 50 <=? score_of d) null_sector_records)
    /\ h' !! 0%nat = Some null_sector_records.
Proof.
  apply (score_filter_never_reads_categories null_sector_heap 0%nat
           null_sector_records None (Some "All") (Some EmptyString) 50).
  - reflexivity.
  - apply Forall_cons; split; [right; eexists; reflexivity|].
    apply Forall_nil; exact I.
  - reflexivity.
  - reflexivity.
  - reflexivity.
Defined.

(** * The span taken for JSON *)

(** X11.  The span the parser takes for JSON runs from the first opening
    bracket of the text to the last closing bracket after it; there is no
    span exactly when no opening bracket is followed by a closing one. *)
Theorem json_span_is_first_open_to_last_close (text : string) :
  match search json_array_re text with
  | Some m =>
      exists pre mid post,
        text = bracketed pre mid post
        /\ occurs "[" pre = false
        /\ occurs "]" post = false
        /\ group0 m = String "[" (mid +:+ String "]" EmptyString)
  | None => forall pre mid post, text <> bracketed pre mid post
  end.
Proof.
  induction text as [|c s IH].
  - change (search json_array_re EmptyString) with (@None rmatch).
    intros [|x pre] mid post; discriminate.
  - cbn [search].
    destruct (match_here json_array_re (String c s)) as [[rest m]|] eqn:Hm.
    + apply match_here_json_array_some in Hm.
      destruct Hm as (mid & Hs & Hr & Hg).
      exists EmptyString, mid, rest. repeat split; assumption.
    + destruct (search json_array_re s) as [m|].
      * destruct IH as (pre & mid & post & -> & Hpre & Hpost & Hg).
        exists (String c pre), mid, post.
        split; [reflexivity|]. split; [|split; assumption].
        cbn [occurs]. rewrite Hpre, orb_false_r.
        destruct (Ascii.eqb_spec c "[") as [->|]; [|reflexivity].
        exfalso. rewrite match_here_json_array in Hm.
        change (Ascii.eqb "[" "[") with true in Hm. cbv iota in Hm.
        pose proof (star_closing
          (fun rest => (rest, {| group0 := consumed (String "[" (bracketed pre mid post)) rest;
                                 groups := [] |})) (bracketed pre mid post)) as Hs.
        rewrite Hm in Hs. rewrite occurs_bracketed_close in Hs. discriminate.
      * intros [|x pre] mid post.
        -- by apply match_here_json_array_none.
        -- intros [= -> Hs]. by apply (IH pre mid post).
Qed.

(** Text with two arrays in it is taken as one span, from the first
    opening to the last closing bracket, which does not decode. *)
Example two_arrays_fall_back :
  group0 <$> search json_array_re two_arrays = Some "[1] then [2]"
  /\ parse_saas_startups_response two_arrays = Ok get_fallback_data.
Proof.
  split; [vm_compute; reflexivity|].
  vm_cast_no_check (@eq_refl _ (Ok get_fallback_data)).
Qed.

(** * The distinct values of a field *)

Lemma ltb_leb a b : String.ltb a b = true -> String.leb a b = true.
Proof. unfold String.ltb, String.leb. by destruct (String.compare a b). Qed.

Lemma not_ltb_leb a b : String.ltb a b = false -> String.leb b a = true.
Proof.
  unfold String.ltb, String.leb. rewrite (String.compare_antisym b a).
  by destruct (String.compare a b).
Qed.

Lemma leb_neq_ltb a b :
  String.leb a b = true -> a <> b -> String.ltb a b = true.
Proof.
  unfold String.ltb, String.leb. intros Hle Hne.
  destruct (String.compare a b) eqn:Hc; try done.
  by apply String.compare_eq_iff in Hc.
Qed.

Lemma leb_trans a b c :
  String.leb a b = true -> String.leb b c = true -> String.leb a c = true.
Proof.
  intros Hab Hbc. apply Is_true_true.
  apply (@transitivity _ String.le _ a b c); by apply Is_true_true.
Qed.

Lemma insert_name_perm x l : Permutation (insert_name x l) (x :: l).
Proof.
  induction l as [|y l IH]; cbn; [reflexivity|].
  destruct (String.ltb y x); [|reflexivity].
  rewrite IH. apply perm_swap.
Qed.

Lemma sort_names_perm l : Permutation (sort_names l) l.
Proof.
  induction l as [|x l IH]; cbn; [reflexivity|].
  rewrite insert_name_perm. by constructor.
Qed.

Lemma insert_name_sorted x l :
  StronglySorted (fun a b => String.leb a b = true) l ->
  StronglySorted (fun a b => String.leb a b = true) (insert_name x l).
Proof.
  induction 1 as [|y l Hs IH Hy]; cbn.
  - repeat constructor.
  - destruct (String.ltb y x) eqn:Hlt.
    + constructor; [exact IH|].
      apply (Permutation_Forall (Permutation_sym (insert_name_perm x l))).
      constructor; [by apply ltb_leb | exact Hy].
    + pose proof (not_ltb_leb _ _ Hlt) as Hxy.
      constructor; [by constructor|].
      constructor; [exact Hxy|].
      eapply Forall_impl; [exact Hy|]. intros z Hz. cbn in Hz.
      by apply leb_trans with y.
Qed.

Lemma sort_names_sorted l :
  StronglySorted (fun a b => String.leb a b = true) (sort_names l).
Proof.
  induction l as [|x l IH]; cbn; [constructor|]. by apply insert_name_sorted.
Qed.

Lemma sorted_distinct_strict l :
  StronglySorted (fun a b => String.leb a b = true) l ->
  NoDup l ->
  StronglySorted strictly_before l.
Proof.
  induction 1 as [|x l Hs IH Hx]; intros Hnd; [constructor|].
  apply NoDup_cons in Hnd. destruct Hnd as [Hin Hnd].
  constructor; [by apply IH|].
  apply Forall_forall. intros y Hy.
  apply leb_neq_ltb.
  - rewrite Forall_forall in Hx. by apply Hx.
  - intros ->. by apply Hin.
Qed.

Lemma existsb_eqb_elem s names :
  existsb (String.eqb s) names = true <-> s ∈ names.
Proof.
  rewrite existsb_exists. split.
  - intros (x & Hin & Heq). apply String.eqb_eq in Heq. subst x.
    by apply list_elem_of_In.
  - intros Hin. exists s. split; [by apply list_elem_of_In|].
    apply String.eqb_refl.
Qed.

Lemma elem_of_add_name s' s names :
  s' ∈ add_name s names <-> s' = s \/ s' ∈ names.
Proof.
  unfold add_name. destruct (existsb (String.eqb s) names) eqn:He.
  - apply existsb_eqb_elem in He. split; [by right|].
    intros [->|Hin]; assumption.
  - rewrite elem_of_app, list_elem_of_singleton. tauto.
Qed.

Lemma add_name_NoDup s names : NoDup names -> NoDup (add_name s names).
Proof.
  intros Hnd. unfold add_name.
  destruct (existsb (String.eqb s) names) eqn:He; [exact Hnd|].
  apply NoDup_app. split; [exact Hnd|]. split; [|apply NoDup_singleton].
  intros x Hx Hs. apply list_elem_of_singleton in Hs. subst x.
  apply existsb_eqb_elem in Hx. congruence.
Qed.

Lemma collect_names_NoDup startups field names :
  NoDup names -> NoDup (collect_names startups field names).
Proof.
  revert names. induction startups as [|d rest IH]; intros names Hnd;
    cbn [collect_names]; [exact Hnd|].
  destruct (d !! field) as [[| | | |s| |]|]; try by apply IH.
  destruct (String.eqb s EmptyString); apply IH;
    [exact Hnd | by apply add_name_NoDup].
Qed.

Lemma elem_of_collect_names startups field names s :
  s ∈ collect_names startups field names
  <-> s ∈ names
      \/ (s <> EmptyString
          /\ exists d, d ∈ startups /\ d !! field = Some (VStr s)).
Proof.
  revert names. induction startups as [|d rest IH]; intros names;
    cbn [collect_names].
  - split; [by left|]. intros [Hin|(_ & d & Hd & _)]; [exact Hin|].
    by apply elem_of_nil in Hd.
  - assert (Hskip :
      (forall t, d !! field = Some (VStr t) -> t = EmptyString) ->
      s ∈ collect_names rest field names
      <-> s ∈ names
          \/ (s <> EmptyString
              /\ exists d0, d0 ∈ d :: rest /\ d0 !! field = Some (VStr s))).
    { intros Hd. rewrite IH. split.
      - intros [Hin|(Hne & d0 & Hin & Hf)]; [by left|].
        right. split; [exact Hne|]. exists d0. split; [by right|exact Hf].
      - intros [Hin|(Hne & d0 & Hin & Hf)]; [by left|].
        apply elem_of_cons in Hin. destruct Hin as [->|Hin].
        + by apply Hd in Hf.
        + right. split; [exact Hne|]. by exists d0. }
    destruct (d !! field) as [v|] eqn:Hf; [|by apply Hskip].
    destruct v as [| | | |t| |]; try by apply Hskip.
    destruct (String.eqb_spec t EmptyString) as [->|Hne].
    + apply Hskip. by intros ? [= <-].
    + rewrite IH, elem_of_add_name. split.
      * intros [[->|Hin]|(Hs & d0 & Hin & Hd0)].
        -- right. split; [exact Hne|]. exists d. split; [by left|exact Hf].
        -- by left.
        -- right. split; [exact Hs|]. exists d0. split; [by right|exact Hd0].
      * intros [Hin|(Hs & d0 & Hin & Hd0)]; [left; by right|].
        apply elem_of_cons in Hin. destruct Hin as [->|Hin].
        -- left. left. congruence.
        -- right. split; [exact Hs|]. by exists d0.
Qed.

Lemma existsb_py_same `{PyFloat} s names :
  existsb (py_same (VStr s)) (VStr <$> names) = existsb (String.eqb s) names.
Proof.
  induction names as [|t names IH]; [reflexivity|].
  cbn [fmap list_fmap existsb py_same]. f_equal. exact IH.
Qed.

Lemma set_add_name `{PyFloat} s names :
  set_add (VStr s) (VStr <$> names) = Ok (VStr <$> add_name s names).
Proof.
  unfold set_add, add_name. cbn [hashable]. rewrite existsb_py_same.
  destruct (existsb (String.eqb s) names); [reflexivity|].
  by rewrite fmap_app.
Qed.

Lemma collect_values_names `{PyFloat} startups field names :
  Forall (text_or_none field) startups ->
  collect_values startups field (VStr <$> names)
  = Ok (VStr <$> collect_names startups field names).
Proof.
  intros Ht. revert names.
  induction Ht as [|d rest Hd _ IH]; intros names; [reflexivity|].
  cbn [collect_values collect_names]. unfold get.
  destruct Hd as [Hd|[Hd|[s Hd]]]; rewrite Hd; cbn [truthy default from_option].
  - change (String.eqb EmptyString EmptyString) with true. cbn [negb]. apply IH.
  - apply IH.
  - destruct (String.eqb s EmptyString); cbn [negb]; [apply IH|].
    rewrite set_add_name. cbn [rbind]. apply IH.
Qed.

Lemma insert_sorted_name `{PyStrOrder} x l :
  insert_sorted (VStr x) (VStr <$> l) = Ok (VStr <$> insert_name x l).
Proof.
  induction l as [|y l IH]; [reflexivity|].
  cbn [fmap list_fmap insert_sorted insert_name]. rewrite py_lt_str.
  cbn [rbind]. destruct (String.ltb y x); [|reflexivity].
  change (list_fmap string value VStr l) with (VStr <$> l).
  by rewrite IH.
Qed.

Lemma py_sorted_names `{PyStrOrder} l :
  py_sorted (VStr <$> l) = Ok (VStr <$> sort_names l).
Proof.
  induction l as [|x l IH]; [reflexivity|].
  cbn [fmap list_fmap py_sorted sort_names].
  change (list_fmap string value VStr l) with (VStr <$> l).
  rewrite IH. cbn [rbind]. apply insert_sorted_name.
Qed.

(** X12.  When the field of every record is a string, None or missing,
    get_unique_values returns the non-empty strings the field takes, each
    once, in strictly ascending order. *)
Theorem unique_values_sorted_and_distinct `{PyFloat} `{PyStrOrder}
    (startups : list dict) (field : string) :
  Forall (text_or_none field) startups ->
  exists names : list string,
    get_unique_values startups field = Ok (VStr <$> names)
    /\ StronglySorted strictly_before names
    /\ forall s, s ∈ names
         <-> s <> EmptyString
             /\ exists d, d ∈ startups /\ d !! field = Some (VStr s).
Proof.
  intros Ht. exists (sort_names (collect_names startups field [])).
  split; [|split].
  - unfold get_unique_values.
    rewrite (collect_values_names startups field [] Ht). cbn [rbind].
    apply py_sorted_names.
  - apply sorted_distinct_strict; [apply sort_names_sorted|].
    apply (NoDup_Permutation_proper _ _ (sort_names_perm _)).
    apply collect_names_NoDup, NoDup_nil_2.
  - intros s. rewrite (sort_names_perm _), elem_of_collect_names.
    split; [|by right]. intros [Hin|Hs]; [|exact Hs].
    by apply elem_of_nil in Hin.
Qed.

Lemma unique_values_witness :
  exists names : list string,
    get_unique_values sample_records "sector" = Ok (VStr <$> names)
    /\ StronglySorted strictly_before names
    /\ forall s, s ∈ names
         <-> s <> EmptyString
             /\ exists d, d ∈ sample_records /\ d !! "sector" = Some (VStr s).
Proof.
  apply (unique_values_sorted_and_distinct sample_records "sector").
  unfold sample_records.
  apply Forall_cons; split; [right; right; eexists; reflexivity|].
  apply Forall_cons; split; [right; right; eexists; reflexivity|].
  apply Forall_cons; split; [left; reflexivity|].
  apply Forall_nil; exact I.
Defined.

Lemma collect_values_app `{PyFloat} before rest field names :
  Forall (text_or_none field) before ->
  collect_values (before ++ rest) field (VStr <$> names)
  = collect_values rest field (VStr <$> collect_names before field names).
Proof.
  intros Ht. revert names.
  induction Ht as [|d before Hd _ IH]; intros names; [reflexivity|].
  rewrite <- app_comm_cons.
  cbn [collect_values collect_names]. unfold get.
  destruct Hd as [Hd|[Hd|[s Hd]]]; rewrite Hd; cbn [truthy].
  - change (String.eqb EmptyString EmptyString) with true. cbn [negb]. apply IH.
  - apply IH.
  - destruct (String.eqb s EmptyString); cbn [negb]; [apply IH|].
    rewrite set_add_name. cbn [rbind]. apply IH.
Qed.

(** X13.  When the first record whose field is not a string, None or missing
    holds a non-empty list or dictionary there, get_unique_values raises
    TypeError. *)
Theorem unique_values_raises_on_unhashable `{PyFloat} `{PyOrder}
    (before after : list dict) (d : dict) (field : string) (v : value) :
  Forall (text_or_none field) before ->
  d !! field = Some v ->
  truthy v = true ->
  hashable v = false ->
  get_unique_values (before ++ d :: after) field = Raise TypeError.
Proof.
  intros Ht Hd Hv Hh. unfold get_unique_values.
  rewrite (collect_values_app before (d :: after) field [] Ht).
  cbn [collect_values]. unfold get. rewrite Hd, Hv.
  unfold set_add. rewrite Hh. reflexivity.
Qed.

Lemma unique_values_raises_witness :
  get_unique_values (sample_records ++ listed_sector :: []) "sector"
  = Raise TypeError.
Proof.
  apply (unique_values_raises_on_unhashable sample_records [] listed_sector
           "sector" (VList [VStr "Energy"; VStr "Grid"])).
  - unfold sample_records.
    apply Forall_cons; split; [right; right; eexists; reflexivity|].
    apply Forall_cons; split; [right; right; eexists; reflexivity|].
    apply Forall_cons; split; [left; reflexivity|].
    apply Forall_nil; exact I.
  - reflexivity.
  - reflexivity.
  - reflexivity.
Defined.

(** * The client *)

Lemma py_in_dict key (d : dict) :
  py_in key (VDict d) = Ok (match d !! key with Some _ => true | None => false end).
Proof.
  cbn [py_in]. f_equal. destruct (d !! key) eqn:Hk.
  - apply bool_decide_eq_true. eauto.
  - apply bool_decide_eq_false. by intros [x Hx].
Qed.

Lemma content_of_response_cases `{PyFloat} data :
  match content_of data with
  | Some v => content_of_response data = Ok v
  | None =>
      content_of_response data = Raise ValueError
      \/ content_of_response data = Raise TypeError
      \/ content_of_response data = Raise KeyError
  end.
Proof.
  destruct data as [| | | |s|l|d]; cbn [content_of];
    try (right; left; reflexivity).
  - unfold content_of_response. cbn [py_in rbind].
    destruct (contains "choices" s); cbn [negb]; auto.
  - unfold content_of_response. cbn [py_in rbind].
    destruct (existsb _ l); cbn [negb]; auto.
  - unfold content_of_response. rewrite py_in_dict. cbn [rbind item].
    destruct (d !! "choices") as [choices|]; cbn [negb rbind]; [|auto].
    destruct (truthy choices) eqn:Ht; cbn [negb];
      [|destruct choices as [| | | | |[|x l]|]; try discriminate; auto].
    destruct choices as [| | | |[|c s]|[|first l]|choices]; cbn [first_item rbind item];
      try discriminate; auto.
    destruct first as [| | | | | |choice]; cbn [item rbind]; auto.
    destruct (choice !! "message") as [message|]; cbn [rbind]; auto.
    destruct message as [| | | | | |message]; cbn [item]; auto.
    destruct (message !! "content"); auto.
Qed.

Lemma ask_ok_iff `{PyFloat}
    (post : string -> dict -> dict -> result value) (self : PerplexityClient)
    (prompt system_prompt : string) (v : value) :
  ask post self prompt system_prompt = Ok v
  <-> exists data,
        post (base_url self) (headers self) (payload self prompt system_prompt)
        = Ok data
        /\ content_of data = Some v.
Proof.
  unfold ask. destruct (post _ _ _) as [data|e]; cbn [rbind].
  - pose proof (content_of_response_cases data) as Hc.
    destruct (content_of data) as [w|] eqn:Hw.
    + rewrite Hc. split.
      * intros [= ->]. by exists data.
      * intros (data' & [= <-] & Hd). congruence.
    + split.
      * destruct Hc as [Hc|[Hc|Hc]]; rewrite Hc; discriminate.
      * intros (data' & [= <-] & Hd). congruence.
  - split; [destruct e; discriminate|]. intros (data & Hd & _). discriminate.
Qed.

(** X14.  ask returns a value exactly when the transport gives a response
    that is an object whose choices is a list starting with an object
    whose message is an object with a content; the value is that content,
    whatever its type. *)
Theorem ask_returns_exactly_the_content `{PyFloat}
    (post : string -> dict -> dict -> result value) (self : PerplexityClient)
    (prompt system_prompt : string) (v : value) :
  ask post self prompt system_prompt = Ok v
  <-> exists data,
        post (base_url self) (headers self) (payload self prompt system_prompt)
        = Ok data
        /\ content_of data = Some v.
Proof. apply ask_ok_iff. Qed.

Example ask_acme_example :
  ask (answering acme_response) acme_client "Which startups?" "Be brief."
  = Ok (VStr acme_json_text).
Proof. vm_cast_no_check (@eq_refl _ (Ok (VStr acme_json_text))). Qed.

(** X15.  When the transport gives a response that has not that shape, ask
    raises ValueError or TypeError: the KeyError of a missing key never
    leaves it. *)
Theorem ask_raises_value_or_type_error `{PyFloat}
    (post : string -> dict -> dict -> result value) (self : PerplexityClient)
    (prompt system_prompt : string) (data : value) :
  post (base_url self) (headers self) (payload self prompt system_prompt)
  = Ok data ->
  content_of data = None ->
  ask post self prompt system_prompt = Raise ValueError
  \/ ask post self prompt system_prompt = Raise TypeError.
Proof.
  intros Hpost Hnone. unfold ask. rewrite Hpost. cbn [rbind].
  pose proof (content_of_response_cases data) as Hc. rewrite Hnone in Hc.
  destruct Hc as [Hc|[Hc|Hc]]; rewrite Hc; auto.
Qed.

Lemma ask_raises_witness :
  ask (answering array_response) acme_client "Which startups?" "Be brief."
  = Raise ValueError
  \/ ask (answering array_response) acme_client "Which startups?" "Be brief."
     = Raise TypeError.
Proof.
  apply (ask_raises_value_or_type_error (answering array_response) acme_client
           "Which startups?" "Be brief." array_response).
  - reflexivity.
  - reflexivity.
Defined.

(** The array is taken to have the key, and subscripting it with a text
    raises the TypeError, which [ask] lets through. *)
Example ask_type_error_example :
  ask (answering array_response) acme_client "Which startups?" "Be brief."
  = Raise TypeError.
Proof. reflexivity. Qed.

(** X16.  A client that could be made has a key that is not empty, the fixed
    URL and the fixed model; its key is the one passed when that is not
    empty, else the secret, else (the secret lookup raising KeyError or
    AttributeError) the environment variable. *)
Theorem client_key_is_never_empty (key : option string)
    (secret : result string) (getenv : option string)
    (client : PerplexityClient) :
  PerplexityClient_init key secret getenv = Ok client ->
  api_key client <> EmptyString
  /\ base_url client = "https://api.perplexity.ai/chat/completions"
  /\ model client = "llama-3-sonar-large-32k"
  /\ (given key = true -> key = Some (api_key client))
  /\ (given key = false ->
      secret = Ok (api_key client)
      \/ ((secret = Raise KeyError \/ secret = Raise AttributeError)
          /\ getenv = Some (api_key client))).
Proof.
  unfold PerplexityClient_init. intros Hinit.
  assert (Hfound : forall found,
    match found with
    | Some k =>
        if given found
        then Ok {| api_key := k;
                   base_url := "https://api.perplexity.ai/chat/completions";
                   model := "llama-3-sonar-large-32k" |}
        else Raise ValueError
    | None => Raise ValueError
    end = Ok client ->
    found = Some (api_key client) /\ api_key client <> EmptyString
    /\ base_url client = "https://api.perplexity.ai/chat/completions"
    /\ model client = "llama-3-sonar-large-32k").
  { intros [k|]; [|discriminate]. cbn [given].
    destruct (String.eqb_spec k EmptyString) as [->|Hk]; cbn [negb];
      [discriminate|].
    intros [= <-]. auto. }
  destruct (given key) eqn:Hkey; cbn [rbind] in Hinit.
  - apply (Hfound key) in Hinit. destruct Hinit as (-> & Hne & Hb & Hm).
    repeat split; try assumption; congruence.
  - destruct secret as [k|e]; cbn [rbind] in Hinit.
    + apply (Hfound (Some k)) in Hinit.
      destruct Hinit as ([= ->] & Hne & Hb & Hm).
      repeat split; try assumption; [congruence|]. by left.
    + destruct e; cbn [rbind] in Hinit; try discriminate;
        apply (Hfound getenv) in Hinit;
        destruct Hinit as (-> & Hne & Hb & Hm);
        (repeat split; try assumption; [congruence|]); right; auto.
Qed.

Lemma client_key_witness :
  api_key acme_client <> EmptyString
  /\ base_url acme_client = "https://api.perplexity.ai/chat/completions"
  /\ model acme_client = "llama-3-sonar-large-32k"
  /\ (given None = true -> None = Some (api_key acme_client))
  /\ (given None = false ->
      no_secret = Ok (api_key acme_client)
      \/ ((no_secret = Raise KeyError \/ no_secret = Raise AttributeError)
          /\ Some "pplx-key" = Some (api_key acme_client))).
Proof.
  apply (client_key_is_never_empty None no_secret (Some "pplx-key")
           acme_client).
  reflexivity.
Defined.

(** * The client in use *)

(** X17.  The miner is left without a client exactly when the secret is the
    empty string (whatever the environment holds), or the secret lookup
    raises KeyError or AttributeError and the environment variable is
    unset or empty, or the secret lookup raises anything else. *)
Theorem miner_has_no_client_exactly_when (secret : result string)
    (getenv : option string) :
  SaaSSignalMiner_init secret getenv = None
  <-> secret = Ok EmptyString
      \/ ((secret = Raise KeyError \/ secret = Raise AttributeError)
          /\ given getenv = false)
      \/ (exists e, secret = Raise e /\ e <> KeyError /\ e <> AttributeError).
Proof.
  assert (Henv : forall found : option string,
    match
      match found with
      | Some k =>
          if given found
          then Ok {| api_key := k;
                     base_url := "https://api.perplexity.ai/chat/completions";
                     model := "llama-3-sonar-large-32k" |}
          else Raise ValueError
      | None => Raise ValueError
      end
    with
    | Ok client => Some client
    | Raise _ => None
    end = None <-> given found = false).
  { intros [k|]; [|done]. destruct (given (Some k)); split; done. }
  unfold SaaSSignalMiner_init, PerplexityClient_init.
  change (given None) with false. cbv iota.
  destruct secret as [k|e]; cbn [rbind].
  - rewrite (Henv (Some k)). cbn [given]. split.
    + intros Hk. apply negb_false_iff, String.eqb_eq in Hk. subst k. by left.
    + intros [[= ->]|[[[?|?] _]|(e & ? & _)]]; try discriminate. reflexivity.
  - destruct e; cbn [rbind];
      try (split; [intros _; right; right; eexists; repeat split; discriminate
                  | reflexivity]).
    + rewrite (Henv getenv). split.
      * intros Hg. right. left. auto.
      * intros [?|[[_ Hg]|(e & [= <-] & _ & He)]]; try discriminate; done.
    + rewrite (Henv getenv). split.
      * intros Hg. right. left. auto.
      * intros [?|[[_ Hg]|(e & [= <-] & He & _)]]; try discriminate; done.
Qed.

Lemma scan_returns `{PyLimits} `{PyOrder} clock client t :
  exists out t', scan_for_startups clock client t = (Ok out, t').
Proof.
  destruct client as [answer|]; cbn [scan_for_startups].
  - apply try_except_catalog.
  - rewrite format_catalog. eauto.
Qed.

(** X18.  load_startup_data raises nothing and returns what the scan of a
    new miner returns, so that its own handler never runs; when the miner
    has no client this is the formatted fallback catalog, whatever the
    transport would answer. *)
Theorem load_startup_data_never_raises `{PyLimits} `{PyFloat} `{PyOrder}
    (clock : nat -> string) (secret : result string) (getenv : option string)
    (post : string -> dict -> dict -> result value) (t : nat) :
  (exists out t',
     load_startup_data clock secret getenv post t = (Ok out, t'))
  /\ load_startup_data clock secret getenv post t
     = scan_for_startups clock
         (asking post (SaaSSignalMiner_init secret getenv)) t
  /\ (SaaSSignalMiner_init secret getenv = None ->
      load_startup_data clock secret getenv post t
      = (Ok (stamped_catalog_by_score clock t), (t + 10)%nat)).
Proof.
  assert (Hload : load_startup_data clock secret getenv post t
                  = scan_for_startups clock
                      (asking post (SaaSSignalMiner_init secret getenv)) t).
  { unfold load_startup_data, try_except, bind, ret.
    destruct (scan_returns clock
                (asking post (SaaSSignalMiner_init secret getenv)) t)
      as (out & t' & ->). reflexivity. }
  split; [|split].
  - rewrite Hload. apply scan_returns.
  - exact Hload.
  - intros Hnone. rewrite Hload, Hnone. cbn [asking fmap option_fmap option_map].
    cbn [scan_for_startups]. apply format_catalog.
Qed.

Lemma load_startup_data_witness :
  load_startup_data fixed_clock no_secret None (answering acme_response) 0%nat
  = (Ok (stamped_catalog_by_score fixed_clock 0), (0 + 10)%nat).
Proof.
  apply (load_startup_data_never_raises fixed_clock no_secret None
           (answering acme_response) 0%nat).
  reflexivity.
Defined.

(** X19.  With a client, the scan returns the formatted fallback catalog
    unless the transport gives a response whose content is a string. *)
Theorem scan_falls_back_unless_content_is_text `{PyLimits} `{PyFloat}
    `{PyOrder}
    (clock : nat -> string) (post : string -> dict -> dict -> result value)
    (self : PerplexityClient) (t : nat) :
  (forall data text,
     post (base_url self) (headers self)
       (payload self generate_startup_query "You are a helpful assistant.")
     = Ok data ->
     content_of data <> Some (VStr text)) ->
  scan_for_startups clock (asking post (Some self)) t
  = (Ok (stamped_catalog_by_score clock t), (t + 10)%nat).
Proof.
  intros Hpost. cbn [asking fmap option_fmap option_map scan_for_startups].
  unfold try_except, bind at 1, lift at 1.
  destruct (ask post self generate_startup_query "You are a helpful assistant.")
    as [v|e] eqn:Hask; [|apply format_catalog].
  apply ask_ok_iff in Hask. destruct Hask as (data & Hd & Hc).
  destruct v as [| | | |text|l|d];
    try (cbn [py_len]; unfold bind, lift; apply format_catalog).
  by destruct (Hpost data text Hd).
Qed.

Lemma scan_falls_back_witness :
  scan_for_startups fixed_clock
    (asking (answering array_response) (Some acme_client)) 0%nat
  = (Ok (stamped_catalog_by_score fixed_clock 0), (0 + 10)%nat).
Proof.
  apply (scan_falls_back_unless_content_is_text fixed_clock
           (answering array_response) acme_client 0%nat).
  intros data text [= <-]. discriminate.
Defined.

(** X20.  With a client, when the transport gives a response whose content is
    a string and the formatter accepts what the parser makes of it, the
    scan returns the formatter's result. *)
Theorem scan_formats_the_parsed_content `{PyLimits} `{PyFloat} `{PyOrder}
    (clock : nat -> string) (post : string -> dict -> dict -> result value)
    (self : PerplexityClient) (data : value) (text : string)
    (records out : list dict) (t t' : nat) :
  post (base_url self) (headers self)
    (payload self generate_startup_query "You are a helpful assistant.")
  = Ok data ->
  content_of data = Some (VStr text) ->
  parse_saas_startups_response text = Ok records ->
  format_startup_data clock records t = (Ok out, t') ->
  scan_for_startups clock (asking post (Some self)) t = (Ok out, t').
Proof.
  intros Hpost Hcontent Hparse Hformat.
  assert (Hask : ask post self generate_startup_query
                   "You are a helpful assistant." = Ok (VStr text))
    by (apply ask_ok_iff; eauto).
  cbn [asking fmap option_fmap option_map scan_for_startups].
  unfold try_except, bind, lift, ret. rewrite Hask.
  cbn [py_len parse_response]. rewrite Hparse, Hformat. reflexivity.
Qed.

Lemma scan_formats_witness :
  scan_for_startups fixed_clock
    (asking (answering acme_response) (Some acme_client)) 0%nat
  = (Ok (stamped fixed_clock 0 [acme_record]), 1%nat).
Proof.
  apply (scan_formats_the_parsed_content fixed_clock
           (answering acme_response) acme_client acme_response acme_json_text
           [acme_record] (stamped fixed_clock 0 [acme_record]) 0%nat 1%nat).
  - reflexivity.
  - reflexivity.
  - vm_cast_no_check (@eq_refl (result (list dict)) (Ok [acme_record])).
  - vm_cast_no_check
      (@eq_refl (result (list dict) * nat)
         (Ok (stamped fixed_clock 0 [acme_record]), 1%nat)).
Defined.

(** * Text that has no name in it *)

Lemma append_empty_r a : a +:+ EmptyString = a.
Proof.
  induction a as [|x a IH]; [reflexivity|].
  rewrite append_cons. f_equal. exact IH.
Qed.

Lemma lower_append a b : lower (a +:+ b) = lower a +:+ lower b.
Proof.
  induction a as [|x a IH]; [reflexivity|].
  rewrite append_cons. cbn [lower]. rewrite append_cons. f_equal. exact IH.
Qed.

Lemma prefix_append needle : forall s after,
  String.prefix needle s = true -> String.prefix needle (s +:+ after) = true.
Proof.
  induction needle as [|x needle IH]; intros s after Hp;
    [by destruct (s +:+ after)|].
  destruct s as [|c s]; [discriminate|].
  rewrite append_cons. cbn [String.prefix] in *.
  destruct (ascii_dec x c); [|discriminate]. by apply IH.
Qed.

Lemma contains_prefix needle s :
  String.prefix needle s = true -> contains needle s = true.
Proof. intros Hp. destruct s; cbn [contains]; by rewrite Hp. Qed.

Lemma contains_append_r needle s after :
  contains needle s = true -> contains needle (s +:+ after) = true.
Proof.
  induction s as [|c s IH]; intros Hc.
  - cbn [contains] in Hc. rewrite orb_false_r in Hc.
    apply contains_prefix. by apply (prefix_append needle EmptyString).
  - rewrite append_cons. cbn [contains] in *.
    apply orb_true_iff in Hc. apply orb_true_iff. destruct Hc as [Hp|Hc].
    + left. by apply (prefix_append needle (String c s)).
    + right. by apply IH.
Qed.

Lemma contains_append_l needle before s :
  contains needle s = true -> contains needle (before +:+ s) = true.
Proof.
  intros Hc. induction before as [|c before IH]; [exact Hc|].
  rewrite append_cons. cbn [contains]. rewrite IH. apply orb_true_r.
Qed.

Lemma contains_part needle piece text :
  part_of piece text ->
  contains needle (lower piece) = true ->
  contains needle (lower text) = true.
Proof.
  intros (before & after & ->) Hc. rewrite !lower_append.
  by apply contains_append_l, contains_append_r.
Qed.

Lemma split_go_part r : forall s skip cur piece,
  skip = 0%nat \/ cur = EmptyString ->
  piece ∈ split_go r s skip cur ->
  part_of piece (cur +:+ s).
Proof.
  assert (Hlater : forall cur c s piece,
            part_of piece s -> part_of piece (cur +:+ String c s)).
  { intros cur c s piece (before & after & ->).
    exists (cur +:+ String c before), after.
    by rewrite append_assoc, append_cons. }
  assert (Hnext : forall cur c s piece,
            part_of piece ((cur +:+ String c EmptyString) +:+ s) ->
            part_of piece (cur +:+ String c s)).
  { intros cur c s piece Hp. by rewrite append_snoc in Hp. }
  induction s as [|c s IH]; intros skip cur piece Hinv Hin.
  - cbn [split_go] in Hin. apply list_elem_of_singleton in Hin. subst piece.
    exists EmptyString, EmptyString. reflexivity.
  - cbn [split_go] in Hin. destruct skip as [|n].
    + destruct (match_here r (String c s)) as [[rest m]|].
      * destruct (String.length (String c s) - String.length rest)%nat
          as [|k].
        -- apply Hnext. eapply IH; [by left|exact Hin].
        -- apply elem_of_cons in Hin. destruct Hin as [->|Hin].
           ++ exists EmptyString, (String c s). reflexivity.
           ++ apply Hlater.
              apply (IH k EmptyString piece); [by right|exact Hin].
      * apply Hnext. eapply IH; [by left|exact Hin].
    + destruct Hinv as [Hskip | ->]; [discriminate|].
      apply (Hlater EmptyString).
      apply (IH n EmptyString piece); [by right|exact Hin].
Qed.

Lemma split_part r text piece : piece ∈ split r text -> part_of piece text.
Proof. intros Hin. apply (split_go_part r text 0%nat EmptyString); auto. Qed.

Lemma name_label_prefix s rest m :
  match_here (label_re "Name") s = Some (rest, m) ->
  String.prefix "name" (lower s) = true.
Proof.
  unfold match_here, label_re.
  destruct s as [|c1 [|c2 [|c3 [|c4 s]]]]; cbn [lit exec ichr]; try discriminate;
    repeat (match goal with
            | |- context [Ascii.eqb (lower_char ?c) ?d] =>
                destruct (Ascii.eqb_spec (lower_char c) d) as [?|?];
                [|discriminate]
            end);
    try discriminate.
  intros _. cbn [lower].
  repeat match goal with H : lower_char _ = _ |- _ => rewrite H; clear H end.
  by destruct (lower s).
Qed.

Lemma name_label_contains entry m :
  search (label_re "Name") entry = Some m -> ci_in "name" entry = true.
Proof.
  intros Hs. apply search_suffix in Hs.
  destruct Hs as (before & s' & rest & -> & Hm).
  unfold ci_in. rewrite lower_append.
  apply contains_append_l, contains_prefix.
  by apply name_label_prefix with rest m.
Qed.

Lemma parse_entry_without_name entry :
  search (label_re "Name") entry = None -> parse_entry entry = None.
Proof. intros Hs. unfold parse_entry. rewrite Hs. by destruct (strip entry). Qed.

Lemma omap_none {A B} (f : A -> option B) l :
  (forall x, x ∈ l -> f x = None) -> omap f l = [].
Proof.
  induction l as [|x l IH]; intros Hf; [reflexivity|].
  cbn [omap list_omap]. rewrite (Hf x) by by left.
  apply IH. intros y Hy. apply Hf. by right.
Qed.

(** X21.  Text in which the word name occurs nowhere, in any case of the
    letters, gives no mapping in structured-text extraction; when it has
    no bracketed span either, the parser returns the empty list and not
    the fallback catalog. *)
Theorem text_without_name_yields_nothing `{PyLimits} (text : string) :
  ci_in "name" text = false ->
  parse_structured_text text = []
  /\ (search json_array_re text = None ->
      parse_saas_startups_response text = Ok []).
Proof.
  intros Hname.
  assert (Hnone : parse_structured_text text = []).
  { unfold parse_structured_text. apply omap_none. intros entry Hin.
    apply parse_entry_without_name.
    destruct (search (label_re "Name") entry) as [m|] eqn:Hs; [|reflexivity].
    apply name_label_contains in Hs. apply split_part in Hin.
    unfold ci_in in *. by rewrite (contains_part _ _ _ Hin Hs) in Hname. }
  split; [exact Hnone|]. intros Hs.
  unfold parse_saas_startups_response, extract. rewrite Hs, Hnone. reflexivity.
Qed.

Lemma text_without_name_witness :
  parse_structured_text refusal = []
  /\ (search json_array_re refusal = None ->
      parse_saas_startups_response refusal = Ok []).
Proof.
  apply (text_without_name_yields_nothing refusal).
  vm_compute. reflexivity.
Defined.
